(** * Tomato: a pomodoro timer served over HTTP (tomato.go)

    A shallow embedding of the timer state machine, its status projection
    and the push notifier of [tomato.go], followed by the properties that
    the specification states about them.

    Conventions of the embedding.
    - [time.Duration] is an [int64] count of nanoseconds: a [Z].
    - [time.Time] is an instant: a [Z] of nanoseconds since Go's zero
      [Time].  [Time.Add] is addition, [Time.After] is [>], and [Time.Sub]
      saturates at the least and greatest [Duration], as package [time]
      documents.
    - Go's [int] is 64 bits wide; [s.count++] wraps around.
    - A [panic] ends the program: operations live in a state monad over
      the [World] whose results are [Ok] or [Panic].
    - [time.Now()] and [httpClient.Get] ask the environment: the [n]-th
      call gets the [n]-th answer of an oracle, and the [World] counts the
      calls.
    - The goroutine that [outputStatus] starts for [doRequest] is run at
      the place where it is started; requests are served one at a time.
    - Of the log only the status line is kept, together with the commands
      handed to [/bin/sh] and the outbound GET requests, in [trace].
    - What a command comes back with is no part of the timer's model;
      [executeCommand_with] and [executeCommandOnStart_with] take it as an
      argument and write the log lines of the two functions as well. *)

From Stdlib Require Import ZArith String Ascii List Bool Lia.
Import ListNotations.
Open Scope string_scope.
Open Scope Z_scope.

(** ** Package [time] *)

Definition Duration := Z.
Definition Time := Z.

Definition Nanosecond : Duration := 1.
Definition Second : Duration := 1000000000.
Definition Minute : Duration := 60 * Second.

Definition minDuration : Duration := - 2 ^ 63.
Definition maxDuration : Duration := 2 ^ 63 - 1.

Definition Time_Add (t : Time) (d : Duration) : Time := t + d.

Definition Time_Sub (t u : Time) : Duration :=
  if t - u <? minDuration then minDuration
  else if maxDuration <? t - u then maxDuration
  else t - u.

Definition Time_After (t u : Time) : bool := u <? t.

(** ** Go's [int] *)

Definition wrap_int (z : Z) : Z := (z + 2 ^ 63) mod 2 ^ 64 - 2 ^ 63.

(** ** [fmt]: the verbs [%d] and [%02d] *)

Definition digit (n : Z) : ascii := ascii_of_nat (48 + Z.to_nat n).

Fixpoint decimal_digits (fuel : nat) (n : Z) (acc : string) : string :=
  match fuel with
  | O => acc
  | S fuel' =>
      let acc' := String (digit (n mod 10)) acc in
      if n <? 10 then acc' else decimal_digits fuel' (n / 10) acc'
  end.

(** The decimal digits of [n >= 0]. *)
Definition decimal (n : Z) : string :=
  decimal_digits (S (Z.to_nat (Z.log2 n))) n "".

(** [%d] *)
Definition fmt_d (n : Z) : string :=
  if n <? 0 then "-" ++ decimal (- n) else decimal n.

(** [%02d]: the sign counts for the width, zeros fill after it. *)
Definition fmt_02d (n : Z) : string :=
  if n <? 0 then "-" ++ decimal (- n)
  else if n <? 10 then "0" ++ decimal n
  else decimal n.

(** ** Package-level variables *)

Definition Mode := string.

Definition version : string := "v1.2.0".

Definition ModeWork : Mode := "work".
Definition ModeShortBreak : Mode := "short-break".
Definition ModeLongBreak : Mode := "long-break".

Definition StateStopped : string := "[S]".
Definition StatePaused : string := "[P]".
Definition StateRunning : string := "[R]".

(** The variables that [main] sets from the command line before the
    server is made. *)
Record Config : Type := {
  N : Z;
  SepColon : string;
  SepBreak : string;
  DurationWork : Duration;
  DurationShortBreak : Duration;
  DurationLongBreak : Duration;
  UUID : string;
  URL : string;
  Icon1Data : string;
  Icon2Data : string;
  Command : string;
  CommandOnStart : string;
  CommandAsync : bool
}.

(** No flag given: [-n=4 -colon=: -colon-alt=: -work=25m -short=5m
    -long=15m], no push URL, no command. *)
Definition default_config : Config := {|
  N := 4;
  SepColon := ":";
  SepBreak := ":";
  DurationWork := 25 * Minute;
  DurationShortBreak := 5 * Minute;
  DurationLongBreak := 15 * Minute;
  UUID := "";
  URL := "";
  Icon1Data := "";
  Icon2Data := "";
  Command := "";
  CommandOnStart := "";
  CommandAsync := false
|}.

(** What [main] lets through: [N <= 0 || N >= 10] is fatal, and
    [parseDuration] refuses [i <= 0]. *)
Definition config_ok (cfg : Config) : Prop :=
  0 < N cfg < 10.

(** ** func formatTimer(d time.Duration, sep string) string *)

Definition formatTimer (d : Duration) (sep : string) : string :=
  let d := if d <? 0 then 0 else d in
  let m := Z.quot d Minute in
  let s := Z.quot (Z.rem d Minute) Second in
  let m := if 99 <? m then 99 else m in
  fmt_02d m ++ sep ++ fmt_02d s.

(** ** type Server struct *)

Record Server : Type := {
  mode : Mode;
  state : string;
  t : Time;
  d : Duration;  (* remaining duration *)
  count : Z
}.

Definition set_mode (m : Mode) (s : Server) : Server :=
  {| mode := m; state := state s; t := t s; d := d s; count := count s |}.
Definition set_state (st : string) (s : Server) : Server :=
  {| mode := mode s; state := st; t := t s; d := d s; count := count s |}.
Definition set_t (x : Time) (s : Server) : Server :=
  {| mode := mode s; state := state s; t := x; d := d s; count := count s |}.
Definition set_d (x : Duration) (s : Server) : Server :=
  {| mode := mode s; state := state s; t := t s; d := x; count := count s |}.
Definition set_count (c : Z) (s : Server) : Server :=
  {| mode := mode s; state := state s; t := t s; d := d s; count := c |}.

(** func NewServer() *Server: the fields not named are zero. *)
Definition NewServer : Server :=
  {| mode := ModeWork; state := StateStopped; t := 0; d := 0; count := 0 |}.

(** ** The world around the server *)

(** What [httpClient.Get] comes back with. *)
Inductive HttpOutcome : Type :=
| GetFailed (err : string)
| GetResponse (StatusCode : Z) (Status : string).

Record Env : Type := {
  clock : nat -> Time;            (* the n-th time.Now() *)
  httpGet : nat -> HttpOutcome;   (* the n-th httpClient.Get *)
  url_Parse_ok : string -> bool   (* url.Parse returns no error *)
}.

Inductive Event : Type :=
| EvLog (line : string)
| EvExec (command : string) (async : bool)
| EvGet (url uuid text icon_data : string).

Record World : Type := {
  srv : Server;
  lastText : string;
  lastIcon : string;
  nowCalls : nat;
  getCalls : nat;
  trace : list Event
}.

Definition with_srv (s : Server) (w : World) : World :=
  {| srv := s; lastText := lastText w; lastIcon := lastIcon w;
     nowCalls := nowCalls w; getCalls := getCalls w; trace := trace w |}.

(** One more reading of the clock taken. *)
Definition clock_read (w : World) : World :=
  {| srv := srv w; lastText := lastText w; lastIcon := lastIcon w;
     nowCalls := S (nowCalls w); getCalls := getCalls w; trace := trace w |}.

Definition with_trace (w : World) (es : list Event) : World :=
  {| srv := srv w; lastText := lastText w; lastIcon := lastIcon w;
     nowCalls := nowCalls w; getCalls := getCalls w; trace := trace w ++ es |}.

(** ** Results and the monad of operations *)

Inductive Panic : Type :=
| PanicString (msg : string)   (* panic("...") *)
| PanicError (err : string).   (* panic(err) *)

Inductive Res (A : Type) : Type :=
| Ok (a : A)
| Panicked (p : Panic).
Arguments Ok {A} a.
Arguments Panicked {A} p.

Definition M (A : Type) : Type := World -> Res (A * World).

Definition ret {A} (a : A) : M A := fun w => Ok (a, w).

Definition bind {A B} (m : M A) (k : A -> M B) : M B :=
  fun w => match m w with
           | Ok (a, w') => k a w'
           | Panicked p => Panicked p
           end.

Definition panic {A} (p : Panic) : M A := fun _ => Panicked p.

Definition lift {A} (r : Res A) : M A :=
  fun w => match r with
           | Ok a => Ok (a, w)
           | Panicked p => Panicked p
           end.

Notation "x <- m ;; k" := (bind m (fun x => k))
  (at level 61, m at next level, right associativity).
Notation "m ;;; k" := (bind m (fun _ => k))
  (at level 61, right associativity).

Definition getServer : M Server := fun w => Ok (srv w, w).
Definition modifyServer (f : Server -> Server) : M unit :=
  fun w => Ok (tt, with_srv (f (srv w)) w).
Definition emit (e : Event) : M unit :=
  fun w => Ok (tt, with_trace w [e]).

Definition unexpected : Panic := PanicString "unexpected".

Section Tomato.

Variable env : Env.
Variable cfg : Config.

(** time.Now() *)
Definition timeNow : M Time :=
  fun w => Ok (clock env (nowCalls w), clock_read w).

(** func (mode Mode) Duration() time.Duration *)
Definition Mode_Duration (mode : Mode) : Res Duration :=
  if String.eqb mode ModeWork then Ok (DurationWork cfg)
  else if String.eqb mode ModeShortBreak then Ok (DurationShortBreak cfg)
  else if String.eqb mode ModeLongBreak then Ok (DurationLongBreak cfg)
  else Panicked unexpected.

(** func (mode Mode) Sep() string *)
Definition Mode_Sep (mode : Mode) : Res string :=
  if String.eqb mode ModeWork then Ok (SepColon cfg)
  else if String.eqb mode ModeShortBreak || String.eqb mode ModeLongBreak
  then Ok (SepBreak cfg)
  else Panicked unexpected.

(** func (s *Server) formatTimer() string.  Go evaluates the arguments of
    the call from left to right: the clock is read before [Sep]. *)
Definition Server_formatTimer : M string :=
  s <- getServer ;;
  if String.eqb (state s) StateStopped then
    dur <- lift (Mode_Duration (mode s)) ;;
    sep <- lift (Mode_Sep (mode s)) ;;
    ret (formatTimer dur sep)
  else if String.eqb (state s) StatePaused then
    sep <- lift (Mode_Sep (mode s)) ;;
    ret (formatTimer (d s) sep)
  else if String.eqb (state s) StateRunning then
    now <- timeNow ;;
    sep <- lift (Mode_Sep (mode s)) ;;
    ret (formatTimer (Time_Sub (t s) now) sep)
  else panic unexpected.

(** func (s *Server) nextMode() *)
Definition nextMode : M unit :=
  s <- getServer ;;
  if String.eqb (mode s) ModeShortBreak || String.eqb (mode s) ModeLongBreak
  then
    (if String.eqb (mode s) ModeLongBreak
     then modifyServer (set_count 0) else ret tt) ;;;
    modifyServer (set_mode ModeWork)
  else if String.eqb (mode s) ModeWork then
    modifyServer (set_count (wrap_int (count s + 1))) ;;;
    s' <- getServer ;;
    if count s' <? N cfg
    then modifyServer (set_mode ModeShortBreak)
    else modifyServer (set_mode ModeLongBreak)
  else panic unexpected.

(** func (s *Server) executeCommand(): the command goes to [/bin/sh -c];
    how it ends is only logged. *)
Definition executeCommand : M unit :=
  if String.eqb (Command cfg) "" then ret tt
  else emit (EvExec (Command cfg) (CommandAsync cfg)).

(** func (s *Server) executeCommandOnStart() *)
Definition executeCommandOnStart : M unit :=
  if String.eqb (CommandOnStart cfg) "" then ret tt
  else emit (EvExec (CommandOnStart cfg) (CommandAsync cfg)).

(** func doRequest(text string, iconData string) error.  The deferred
    function stores the pair when the function returns, whatever the
    request came back with. *)
Definition doRequest (text iconData : string) : M (option string) :=
  fun w =>
    if String.eqb text (lastText w) && String.eqb iconData (lastIcon w)
    then Ok (None, w)
    else if negb (url_Parse_ok env (URL cfg))
    then Panicked (PanicError "url.Parse")  (* panic(err) *)
    else
      let w' := {| srv := srv w; lastText := text; lastIcon := iconData;
                   nowCalls := nowCalls w; getCalls := S (getCalls w);
                   trace := trace w ++
                            [EvGet (URL cfg) (UUID cfg) text iconData] |} in
      match httpGet env (getCalls w) with
      | GetFailed err => Ok (Some err, w')
      | GetResponse code status =>
          if negb (code =? 200)
          then Ok (Some ("Response status: " ++ status), w')
          else Ok (None, w')
      end.

(** func (s *Server) formatStatus() string *)
Definition formatStatus : M string :=
  s <- getServer ;;
  timer <- Server_formatTimer ;;
  ret (state s ++ " " ++ timer ++ " " ++ fmt_d (count s) ++ "/" ++
       fmt_d (N cfg) ++ " " ++ mode s).

(** The map that [formatStatusJSON] hands to [json.Marshal]. *)
Record StatusJSON : Type := {
  json_mode : Mode;
  json_state : string;
  json_timer : string;
  json_i : Z;
  json_n : Z
}.

(** func (s *Server) formatStatusJSON() []byte *)
Definition formatStatusJSON : M StatusJSON :=
  s <- getServer ;;
  timer <- Server_formatTimer ;;
  ret {| json_mode := mode s; json_state := state s; json_timer := timer;
         json_i := count s; json_n := N cfg |}.

(** func (s *Server) outputStatus(output bool) string *)
Definition outputStatus (output : bool) : M string :=
  (if output then line <- formatStatus ;; emit (EvLog line) else ret tt) ;;;
  str <- Server_formatTimer ;;
  (if negb (String.eqb (URL cfg) "") then
     s <- getServer ;;
     let iconData :=
       if negb (String.eqb (mode s) ModeWork)
       then Icon2Data cfg else Icon1Data cfg in
     doRequest str iconData ;;; ret tt
   else ret tt) ;;;
  ret str.

(** func (s *Server) RefreshStatus(output bool) string *)
Definition RefreshStatus (output : bool) : M string :=
  s <- getServer ;;
  output <-
    (if String.eqb (state s) StateRunning then
       now <- timeNow ;;
       if Time_After now (t s) then
         modifyServer (set_state StateStopped) ;;;
         nextMode ;;;
         executeCommand ;;;
         ret true
       else ret output
     else ret output) ;;
  outputStatus output.

(** What a handler writes to the [http.ResponseWriter]. *)
Inductive Reply : Type :=
| NotFound
| Text (body : string)
| Json (body : StatusJSON).

(** func (s *Server) Index(w, r) *)
Definition Index (method : string) : M Reply :=
  if negb (String.eqb method "GET") then ret NotFound
  else ret (Text ("Tomato " ++ version ++ String (ascii_of_nat 10) "")).

(** func (s *Server) Status(w, r) *)
Definition Status (method accept : string) : M Reply :=
  if negb (String.eqb method "GET") then ret NotFound
  else
    str <- RefreshStatus true ;;
    if String.eqb accept "application/json"
    then j <- formatStatusJSON ;; ret (Json j)
    else ret (Text str).

(** func (s *Server) Time(w, r) *)
Definition Server_Time (method : string) : M Reply :=
  if negb (String.eqb method "GET") then ret NotFound
  else str <- RefreshStatus true ;; ret (Text str).

(** func (s *Server) ActionStart(w, r): starts or pauses the current
    interval. *)
Definition ActionStart (method : string) : M Reply :=
  if negb (String.eqb method "POST") then ret NotFound
  else
    now <- timeNow ;;
    s <- getServer ;;
    (if String.eqb (state s) StateStopped then
       dur <- lift (Mode_Duration (mode s)) ;;
       modifyServer (set_t (Time_Add now dur)) ;;;
       modifyServer (set_state StateRunning) ;;;
       executeCommandOnStart
     else if String.eqb (state s) StatePaused then
       modifyServer (set_t (Time_Add now (d s))) ;;;
       modifyServer (set_state StateRunning) ;;;
       executeCommandOnStart
     else if String.eqb (state s) StateRunning then
       RefreshStatus true ;;;
       s' <- getServer ;;
       if String.eqb (state s') StateRunning then
         modifyServer (set_d (Time_Sub (t s') now)) ;;;
         modifyServer (set_state StatePaused)
       else ret tt
     else ret tt) ;;;
    str <- Server_formatTimer ;;
    ret (Text str).

(** func (s *Server) ActionStop(w, r): stops the current running interval
    or switches mode. *)
Definition ActionStop (method : string) : M Reply :=
  if negb (String.eqb method "POST") then ret NotFound
  else
    s <- getServer ;;
    (if String.eqb (state s) StateRunning || String.eqb (state s) StatePaused
     then modifyServer (set_state StateStopped)
     else if String.eqb (state s) StateStopped then
       if String.eqb (mode s) ModeWork then
         if count s <? N cfg
         then modifyServer (set_mode ModeShortBreak)
         else modifyServer (set_mode ModeLongBreak)
       else if String.eqb (mode s) ModeShortBreak then
         modifyServer (set_mode ModeWork)
       else if String.eqb (mode s) ModeLongBreak then
         modifyServer (set_mode ModeShortBreak)
       else ret tt
     else ret tt) ;;;
    str <- RefreshStatus true ;;
    ret (Text str).

(** ** The requests and the ticker *)

(** What reaches the server: the five routes of [Handler], and the tick of
    the goroutine of [main], which calls [s.RefreshStatus(false)]. *)
Inductive Call : Type :=
| GetIndex (method : string)
| GetStatus (method accept : string)
| GetTime (method : string)
| PostStart (method : string)
| PostStop (method : string)
| Tick.

Definition serve (c : Call) : M (option Reply) :=
  match c with
  | GetIndex method => r <- Index method ;; ret (Some r)
  | GetStatus method accept => r <- Status method accept ;; ret (Some r)
  | GetTime method => r <- Server_Time method ;; ret (Some r)
  | PostStart method => r <- ActionStart method ;; ret (Some r)
  | PostStop method => r <- ActionStop method ;; ret (Some r)
  | Tick => RefreshStatus false ;;; ret None
  end.

(** The world after a list of calls. *)
Fixpoint run (cs : list Call) (w : World) : Res World :=
  match cs with
  | [] => Ok w
  | c :: cs' =>
      match serve c w with
      | Ok (_, w') => run cs' w'
      | Panicked p => Panicked p
      end
  end.

(** The worlds that the program can be in: the server starts as
    [NewServer] makes it and changes by the calls only.  [bad w c] rules
    calls out; [reachable] rules none out. *)
Inductive reachable_avoiding (bad : World -> Call -> bool) : World -> Prop :=
| avoiding_init : forall w, srv w = NewServer -> reachable_avoiding bad w
| avoiding_step : forall w c r w',
    reachable_avoiding bad w -> bad w c = false ->
    serve c w = Ok (r, w') -> reachable_avoiding bad w'.

Definition reachable : World -> Prop :=
  reachable_avoiding (fun _ _ => false).

(** ** The vocabulary of the specification *)

(** The push URL is unset, or [url.Parse] takes it: [main] has sent one
    request before the server is made when a URL is set. *)
Definition push_ok : Prop :=
  URL cfg = "" \/ url_Parse_ok env (URL cfg) = true.

Definition monotone_clock : Prop :=
  forall i j : nat, (i <= j)%nat -> clock env i <= clock env j.

(** The timer is running and its deadline lies before the [k]-th reading
    of the clock. *)
Definition due (w : World) (k : nat) : bool :=
  String.eqb (state (srv w)) StateRunning && (t (srv w) <? clock env k).

(** The call finds the running interval over, at the reading of the clock
    that its [RefreshStatus] takes.  [ActionStart] reads the clock once
    before; [ActionStop] stops a running timer before it refreshes. *)
Definition expires (w : World) (c : Call) : bool :=
  match c with
  | GetIndex _ => false
  | GetStatus method _ => String.eqb method "GET" && due w (nowCalls w)
  | GetTime method => String.eqb method "GET" && due w (nowCalls w)
  | PostStart method => String.eqb method "POST" && due w (S (nowCalls w))
  | PostStop _ => false
  | Tick => due w (nowCalls w)
  end.

(** Stop-or-switch on a stopped timer: the manual change of mode. *)
Definition manual_switch (w : World) (c : Call) : bool :=
  match c with
  | PostStop method =>
      String.eqb method "POST" && String.eqb (state (srv w)) StateStopped
  | _ => false
  end.

(** The manual change of mode out of a long break. *)
Definition long_break_switch (w : World) (c : Call) : bool :=
  manual_switch w c && String.eqb (mode (srv w)) ModeLongBreak.

(** A run of calls without manual change of mode, with the number of
    intervals that ran out on the way. *)
Inductive auto_run : nat -> World -> World -> Prop :=
| auto_run_nil : forall w, auto_run O w w
| auto_run_step : forall n w c r w1 w2,
    manual_switch w c = false -> serve c w = Ok (r, w1) ->
    auto_run n w1 w2 ->
    auto_run (if expires w c then S n else n) w w2.

(** The calls [cs] all return, and none of them is [bad] where it is
    made. *)
Fixpoint avoids (bad : World -> Call -> bool) (cs : list Call) (w : World)
  : bool :=
  match cs with
  | [] => true
  | c :: cs' =>
      negb (bad w c) &&
      match serve c w with
      | Ok (_, w') => avoids bad cs' w'
      | Panicked _ => false
      end
  end.

(** The number of intervals that run out during the calls [cs]. *)
Fixpoint expiries (cs : list Call) (w : World) : nat :=
  match cs with
  | [] => O
  | c :: cs' =>
      match serve c w with
      | Ok (_, w') =>
          if expires w c then S (expiries cs' w') else expiries cs' w'
      | Panicked _ => O
      end
  end.

(** Mode-advance rule of automatic expiry: leaving Work counts the
    interval, then looks at the count; a break leads to Work, and the long
    break resets the count. *)
Definition auto_advance (s : Server) : Server :=
  if String.eqb (mode s) ModeWork then
    let c := wrap_int (count s + 1) in
    set_mode (if c <? N cfg then ModeShortBreak else ModeLongBreak)
             (set_count c s)
  else if String.eqb (mode s) ModeShortBreak then set_mode ModeWork s
  else set_mode ModeWork (set_count 0 s).

(** What automatic expiry makes of the timer. *)
Definition expired (s : Server) : Server :=
  auto_advance (set_state StateStopped s).

(** The manual change of mode, as [ActionStop] has it. *)
Definition manual_advance (s : Server) : Server :=
  if String.eqb (mode s) ModeWork then
    set_mode (if count s <? N cfg then ModeShortBreak else ModeLongBreak) s
  else if String.eqb (mode s) ModeShortBreak then set_mode ModeWork s
  else set_mode ModeShortBreak s.

(** The separator that belongs to a mode. *)
Definition separator (m : Mode) : string :=
  if String.eqb m ModeWork then SepColon cfg else SepBreak cfg.

(** The configured duration of a mode. *)
Definition configured (m : Mode) : Duration :=
  if String.eqb m ModeWork then DurationWork cfg
  else if String.eqb m ModeShortBreak then DurationShortBreak cfg
  else DurationLongBreak cfg.

(** The displayed duration at the instant [now]. *)
Definition displayed_duration (s : Server) (now : Time) : Duration :=
  if String.eqb (state s) StateStopped then configured (mode s)
  else if String.eqb (state s) StatePaused then d s
  else Z.max 0 (Time_Sub (t s) now).

(** The timer after a call, as a function of the timer before and of the
    clock. *)
Definition timer_after (c : Call) (w : World) : Server :=
  let s := srv w in
  match c with
  | GetIndex _ => s
  | GetStatus method _ | GetTime method =>
      if String.eqb method "GET" && due w (nowCalls w) then expired s else s
  | Tick => if due w (nowCalls w) then expired s else s
  | PostStart method =>
      if String.eqb method "POST" then
        let now := clock env (nowCalls w) in
        if String.eqb (state s) StateStopped then
          set_state StateRunning (set_t (Time_Add now (configured (mode s))) s)
        else if String.eqb (state s) StatePaused then
          set_state StateRunning (set_t (Time_Add now (d s)) s)
        else if due w (S (nowCalls w)) then expired s
        else set_state StatePaused (set_d (Time_Sub (t s) now) s)
      else s
  | PostStop method =>
      if String.eqb method "POST" then
        if String.eqb (state s) StateStopped then manual_advance s
        else set_state StateStopped s
      else s
  end.

(** The events of the expiry hook. *)
Definition expiry_hook : list Event :=
  if String.eqb (Command cfg) "" then []
  else [EvExec (Command cfg) (CommandAsync cfg)].

End Tomato.

(** ** Valid timers *)

Definition valid_mode (m : Mode) : Prop :=
  m = ModeWork \/ m = ModeShortBreak \/ m = ModeLongBreak.

Definition valid_state (st : string) : Prop :=
  st = StateStopped \/ st = StatePaused \/ st = StateRunning.

Definition valid (s : Server) : Prop :=
  valid_mode (mode s) /\ valid_state (state s).

(** The largest [int]. *)
Definition maxInt : Z := 2 ^ 63 - 1.

(** The count and the mode go together: [N] intervals counted in the long
    break, fewer in work and in the short break. *)
Definition cycle_inv cfg (s : Server) : Prop :=
  (mode s = ModeLongBreak /\ count s = N cfg) \/
  ((mode s = ModeWork \/ mode s = ModeShortBreak) /\ 0 <= count s < N cfg).

(** Where the cycle stands after [n] intervals have run out, begun at work
    with no interval counted: work and the short break take turns, the
    count going up with every work interval, until the [N]-th work
    interval leads to the long break; the interval after it leads to work
    with the count at zero. *)
Definition phase_inv cfg (n : Z) (s : Server) : Prop :=
  (exists k, n = 2 * k /\ 0 <= k < N cfg /\
             mode s = ModeWork /\ count s = k) \/
  (exists k, n = 2 * k + 1 /\ 0 <= k /\ k + 1 < N cfg /\
             mode s = ModeShortBreak /\ count s = k + 1) \/
  (n = 2 * N cfg - 1 /\ mode s = ModeLongBreak /\ count s = N cfg) \/
  (n = 2 * N cfg /\ mode s = ModeWork /\ count s = 0) \/
  2 * N cfg < n.

(** ** Two-digit strings *)

(** Two characters: the tens and the units of [n]. *)
Definition two_digits (n : Z) : string :=
  String (digit (n / 10)) (String (digit (n mod 10)) "").

Definition is_digit (c : ascii) : bool :=
  ((48 <=? nat_of_ascii c) && (nat_of_ascii c <=? 57))%nat.

(** A string of exactly two decimal digits. *)
Definition two_digit_string (s : string) : bool :=
  match s with
  | String a (String b EmptyString) => is_digit a && is_digit b
  | _ => false
  end.

(** ** What an operation leaves behind *)

(** The calls that ask and do not tell: the queries and the tick. *)
Definition is_query (c : Call) : bool :=
  match c with
  | GetIndex _ | GetStatus _ _ | GetTime _ | Tick => true
  | PostStart _ | PostStop _ => false
  end.

Definition is_exec (e : Event) : bool :=
  match e with EvExec _ _ => true | _ => false end.

(** The second world has the timer of the first, a clock read no less
    often, and a trace that goes on without a command run. *)
Definition quiet (w w' : World) : Prop :=
  srv w' = srv w /\ (nowCalls w <= nowCalls w')%nat /\
  exists rest, trace w' = (trace w ++ rest)%list /\
               existsb is_exec rest = false.

(** The timer has run out between the two worlds: stopped, mode advanced,
    the hook run first of all. *)
Definition expiry cfg (w w' : World) : Prop :=
  srv w' = expired cfg (srv w) /\ (nowCalls w <= nowCalls w')%nat /\
  exists rest, trace w' = (trace w ++ expiry_hook cfg ++ rest)%list /\
               existsb is_exec rest = false.

Definition url_panic : Panic := PanicError "url.Parse".

(** What a result is like: a value and a world that [P] holds of, or the
    panic of [doRequest] on a URL that [url.Parse] refuses. *)
Definition outcome env cfg {A} (r : Res (A * World))
           (P : A -> World -> Prop) : Prop :=
  match r with
  | Ok (a, w') => P a w'
  | Panicked p => p = url_panic /\ ~ push_ok env cfg
  end.

(** ** Environments, configurations and worlds to run the program on *)

(** A clock that shows [now] at every reading. *)
Definition frozen (now : Time) : Env :=
  {| clock := fun _ => now;
     httpGet := fun _ => GetResponse 200 "200 OK";
     url_Parse_ok := fun _ => true |}.

(** A clock that is a second further at every reading. *)
Definition ticking : Env :=
  {| clock := fun n => Z.of_nat n * Second;
     httpGet := fun _ => GetResponse 200 "200 OK";
     url_Parse_ok := fun _ => true |}.

(** A clock that is an hour further at every reading: every interval of
    the default configuration is over at the reading after its start. *)
Definition hourly : Env :=
  {| clock := fun n => Z.of_nat n * (60 * Minute);
     httpGet := fun _ => GetResponse 200 "200 OK";
     url_Parse_ok := fun _ => true |}.

(** The default configuration with a push URL, as [-uuid=U -port=12345]
    sets it; the icons are short stand-ins for the encoded images. *)
Definition push_config : Config := {|
  N := 4;
  SepColon := ":";
  SepBreak := ":";
  DurationWork := 25 * Minute;
  DurationShortBreak := 5 * Minute;
  DurationLongBreak := 15 * Minute;
  UUID := "U";
  URL := "http://127.0.0.1:12345/update_touch_bar_widget/";
  Icon1Data := "cmVk";
  Icon2Data := "Z3JlZW4=";
  Command := "";
  CommandOnStart := "";
  CommandAsync := false
|}.

Definition world_of (s : Server) : World :=
  {| srv := s; lastText := ""; lastIcon := ""; nowCalls := O; getCalls := O;
     trace := [] |}.

(** The world in which [main] makes the server, no push URL set. *)
Definition world0 : World := world_of NewServer.

(** The world in which [main] makes the server under [push_config]: its
    first request, text [25:00] with the icon of work, has been sent. *)
Definition pushed : World :=
  {| srv := NewServer; lastText := "25:00"; lastIcon := "cmVk";
     nowCalls := O; getCalls := 1%nat;
     trace := [EvGet (URL push_config) (UUID push_config) "25:00" "cmVk"] |}.

(** A stopped long break, no interval counted. *)
Definition long_break_stopped : World :=
  world_of {| mode := ModeLongBreak; state := StateStopped;
              t := 0; d := 0; count := 0 |}.

(** Work under way, its deadline at the instant [deadline]. *)
Definition work_running (deadline : Time) : World :=
  world_of {| mode := ModeWork; state := StateRunning;
              t := deadline; d := 0; count := 0 |}.

(** A short break under way, its deadline at [12m30s]. *)
Definition break_running : World :=
  world_of {| mode := ModeShortBreak; state := StateRunning;
              t := 12 * Minute + 30 * Second; d := 0; count := 1 |}.

(** The world after the calls [cs], started from [world0]. *)
Definition world_after env cfg (cs : list Call) : World :=
  match run env cfg cs world0 with
  | Ok w => w
  | Panicked _ => world0
  end.

(** One pomodoro round: start, and a tick after the end. *)
Definition round : list Call := [PostStart "POST"; Tick].

(** [n] rounds. *)
Definition rounds (n : nat) : list Call := concat (repeat round n).

(** A work interval of the default configuration under [ticking]:
    started, paused, resumed after a tick and a query, paused again after
    another query. *)
Definition started : World :=
  world_after ticking default_config [PostStart "POST"].

Definition paused_once : World :=
  world_after ticking default_config [PostStart "POST"; PostStart "POST"].

Definition resumed : World :=
  world_after ticking default_config
    [PostStart "POST"; PostStart "POST";
     Tick; GetTime "GET"; PostStart "POST"].

Definition paused_twice : World :=
  world_after ticking default_config
    [PostStart "POST"; PostStart "POST";
     Tick; GetTime "GET"; PostStart "POST";
     GetStatus "GET" ""; PostStart "POST"].

(** ** Statements of the specification, as they are written *)

(** Stop-or-switch on a stopped long break leads to work and resets the
    count. *)
Definition stated_switch_from_long_break env cfg (w : World) : Prop :=
  state (srv w) = StateStopped -> mode (srv w) = ModeLongBreak ->
  exists r w',
    ActionStop env cfg "POST" w = Ok (r, w') /\
    mode (srv w') = ModeWork /\ state (srv w') = StateStopped /\
    count (srv w') = 0.

(** The count lies in [[0, N)]. *)
Definition stated_count_range cfg (w : World) : Prop :=
  0 <= count (srv w) < N cfg.

(** A status query leaves the timer as it is. *)
Definition stated_read_only env cfg (w : World) : Prop :=
  forall r w', Status env cfg "GET" "" w = Ok (r, w') -> srv w' = srv w.

(** Passive refresh stops a running timer from the deadline on. *)
Definition stated_expiry_at_deadline env cfg (w : World) : Prop :=
  state (srv w) = StateRunning -> t (srv w) <= clock env (nowCalls w) ->
  exists str w',
    RefreshStatus env cfg false w = Ok (str, w') /\
    state (srv w') = StateStopped.

(** Two invocations of the notifier in a row with one pair make exactly
    one outbound call. *)
Definition stated_one_call env cfg (text icon : string) (w : World) : Prop :=
  exists e1 w1 e2 w2,
    doRequest env cfg text icon w = Ok (e1, w1) /\
    doRequest env cfg text icon w1 = Ok (e2, w2) /\
    getCalls w2 = S (getCalls w).

(** * The rest of the program *)

(** ** What the operations write and send *)

(** The icon that [outputStatus] picks for a mode. *)
Definition icon_for cfg (m : Mode) : string :=
  if negb (String.eqb m ModeWork) then Icon2Data cfg else Icon1Data cfg.

(** The events of the start hook. *)
Definition start_hook cfg : list Event :=
  if String.eqb (CommandOnStart cfg) "" then []
  else [EvExec (CommandOnStart cfg) (CommandAsync cfg)].

Definition is_log (e : Event) : bool :=
  match e with EvLog _ => true | _ => false end.

(** The number of commands run and of lines logged in a stretch of the
    trace. *)
Definition execs (es : list Event) : nat := length (filter is_exec es).

Definition logs (es : list Event) : nat := length (filter is_log es).

(** The time left on the timer is within the interval of its mode: the
    deadline of a running timer is no further than the configured duration
    from a reading of the clock already taken, and the remaining duration
    of a paused timer is between zero and the configured duration. *)
Definition within_interval env cfg (w : World) : Prop :=
  (state (srv w) = StateRunning ->
   exists k, (k <= nowCalls w)%nat /\
             t (srv w) <= clock env k + configured cfg (mode (srv w))) /\
  (state (srv w) = StatePaused ->
   0 <= d (srv w) <= configured cfg (mode (srv w))).

(** A configuration with both hooks set. *)
Definition hook_config : Config := {|
  N := 4;
  SepColon := ":";
  SepBreak := ":";
  DurationWork := 25 * Minute;
  DurationShortBreak := 5 * Minute;
  DurationLongBreak := 15 * Minute;
  UUID := "";
  URL := "";
  Icon1Data := "";
  Icon2Data := "";
  Command := "say done";
  CommandOnStart := "say go";
  CommandAsync := false
|}.

(** The commands that a call hands to the shell: the start command when
    start-or-pause starts or resumes the timer, the end command when the
    call finds the running interval over, and none otherwise. *)
Definition hooks_of env cfg (w : World) (c : Call) : list Event :=
  match c with
  | PostStart method =>
      if String.eqb method "POST" then
        if String.eqb (state (srv w)) StateStopped
           || String.eqb (state (srv w)) StatePaused
        then start_hook cfg
        else if due env w (S (nowCalls w)) then expiry_hook cfg else []
      else []
  | _ => if expires env w c then expiry_hook cfg else []
  end.

(** ** func parseDuration *)

(** The smallest [int]. *)
Definition minInt : Z := - 2 ^ 63.

(** The value of a string of decimal digits behind the digits read so
    far; no value when a byte is not a digit. *)
Fixpoint parse_digits (acc : Z) (s : string) : option Z :=
  match s with
  | EmptyString => Some acc
  | String c s' =>
      if is_digit c
      then parse_digits (acc * 10 + (Z.of_nat (nat_of_ascii c) - 48)) s'
      else None
  end.

(** strconv.Atoi, as package [strconv] documents it: an optional sign and
    decimal digits, one at least; an error ([None]) for every other
    string and for a value that does not fit an [int]. *)
Definition Atoi (s : string) : option Z :=
  match s with
  | EmptyString => None
  | String c s' =>
      let neg := Ascii.eqb c "-"%char in
      let digits := if neg || Ascii.eqb c "+"%char then s' else s in
      match digits with
      | EmptyString => None
      | _ =>
          match parse_digits 0 digits with
          | None => None
          | Some n =>
              let v := if neg then - n else n in
              if (minInt <=? v) && (v <=? maxInt) then Some v else None
          end
      end
  end.

(** [s[:len(s)-1]] and [s[len(s)-1]] of a string that is not empty. *)
Fixpoint split_last (s : string) : option (string * ascii) :=
  match s with
  | EmptyString => None
  | String c s' =>
      match split_last s' with
      | None => Some (EmptyString, c)
      | Some (body, l) => Some (String c body, l)
      end
  end.

(** The places where the program calls [fatalf], which prints and leaves
    with [os.Exit(1)]. *)
Inductive Exit : Type :=
| InvalidTicker
| InvalidIntervals (n : Z)
| InvalidDuration (s : string)
| PortAndUrl
| PortAndUuid
| UrlParse (url : string)
| IconLoad (err : string)
| FirstRequest (url err : string).

Inductive Fatal (A : Type) : Type :=
| Fine (a : A)
| Fatalf (e : Exit).
Arguments Fine {A} a.
Arguments Fatalf {A} e.

(** func parseDuration(s string) time.Duration.  The product is a product
    of [int64] values and wraps around. *)
Definition parseDuration (s : string) : Fatal Duration :=
  match split_last s with
  | None => Fatalf (InvalidDuration s)   (* s == "" *)
  | Some (body, c) =>
      let unit := if Ascii.eqb c "m"%char then Minute
                  else if Ascii.eqb c "s"%char then Second
                  else Minute in
      let s := if Ascii.eqb c "m"%char then body
               else if Ascii.eqb c "s"%char then body
               else s in
      match Atoi s with
      | None => Fatalf (InvalidDuration s)
      | Some i =>
          if i <=? 0 then Fatalf (InvalidDuration s)
          else Fine (wrap_int (i * unit))
      end
  end.

(** ** func main, up to the server *)

(** The command line as [flag.Parse] leaves it, a field for every flag. *)
Record Flags : Type := {
  flag_listen : string;
  flag_n : Z;
  flag_colon : string;
  flag_colon_alt : string;
  flag_icon1 : string;
  flag_icon2 : string;
  flag_command : string;
  flag_start_command : string;
  flag_uuid : string;
  flag_async : bool;
  flag_work : string;
  flag_short : string;
  flag_long : string;
  flag_port : string;
  flag_url : string;
  flag_tick : Z
}.

(** No flag given. *)
Definition default_flags : Flags := {|
  flag_listen := ":12321";
  flag_n := 4;
  flag_colon := ":";
  flag_colon_alt := ":";
  flag_icon1 := "";
  flag_icon2 := "";
  flag_command := "";
  flag_start_command := "";
  flag_uuid := "";
  flag_async := false;
  flag_work := "25m";
  flag_short := "5m";
  flag_long := "15m";
  flag_port := "";
  flag_url := "";
  flag_tick := 100
|}.

(** How [main] ends before it serves, or what it serves with: the address
    to listen on, the tick in milliseconds, the package-level variables
    and the world with the new server. *)
Inductive Boot : Type :=
| Exited (e : Exit)
| Crashed (p : Panic)
| Serving (listen : string) (tick : Z) (cfg : Config) (w : World).

Section Main.

Variable env : Env.

(** func mustLoadIcon(filename, defaultIcon string) string: the encoded
    icon, or the error of reading it.  The icons built into the program
    ([Asset]) and the files are not part of this development. *)
Variable mustLoadIcon : string -> string -> Fatal string.

(** The [switch] of [main] on [-url], [-port] and [-uuid]. *)
Definition push_url (fl : Flags) : Fatal string :=
  let url := negb (String.eqb (flag_url fl) "") in
  let port := negb (String.eqb (flag_port fl) "") in
  let uuid := negb (String.eqb (flag_uuid fl) "") in
  if url && port then Fatalf PortAndUrl
  else if negb (Bool.eqb port uuid) then Fatalf PortAndUuid
  else if url then
    if url_Parse_ok env (flag_url fl) then Fine (flag_url fl)
    else Fatalf (UrlParse (flag_url fl))
  else if port then
    Fine ("http://127.0.0.1:" ++ flag_port fl ++ "/update_touch_bar_widget/")
  else Fine "".

(** func main(), from [flag.Parse] to [NewServer]. *)
Definition main (fl : Flags) : Boot :=
  if (flag_tick fl <=? 10) || (1000 <=? flag_tick fl)
  then Exited InvalidTicker
  else if (flag_n fl <=? 0) || (10 <=? flag_n fl)
  then Exited (InvalidIntervals (flag_n fl))
  else
    match parseDuration (flag_work fl) with
    | Fatalf e => Exited e
    | Fine work =>
    match parseDuration (flag_short fl) with
    | Fatalf e => Exited e
    | Fine short =>
    match parseDuration (flag_long fl) with
    | Fatalf e => Exited e
    | Fine long =>
    match push_url fl with
    | Fatalf e => Exited e
    | Fine url =>
        let cfg icon1 icon2 :=
          {| N := flag_n fl;
             SepColon := flag_colon fl;
             SepBreak := flag_colon_alt fl;
             DurationWork := work;
             DurationShortBreak := short;
             DurationLongBreak := long;
             UUID := flag_uuid fl;
             URL := url;
             Icon1Data := icon1;
             Icon2Data := icon2;
             Command := flag_command fl;
             CommandOnStart := flag_start_command fl;
             CommandAsync := flag_async fl |} in
        if negb (String.eqb url "") then
          match mustLoadIcon (flag_icon1 fl) "red.png" with
          | Fatalf e => Exited e
          | Fine icon1 =>
          match mustLoadIcon (flag_icon2 fl) "green.png" with
          | Fatalf e => Exited e
          | Fine icon2 =>
              match doRequest env (cfg icon1 icon2)
                      (formatTimer work (flag_colon fl)) icon1 world0 with
              | Panicked p => Crashed p
              | Ok (Some err, _) => Exited (FirstRequest url err)
              | Ok (None, w) =>
                  Serving (flag_listen fl) (flag_tick fl) (cfg icon1 icon2)
                          (with_srv NewServer w)
              end
          end
          end
        else
          Serving (flag_listen fl) (flag_tick fl) (cfg "" "")
                  (with_srv NewServer world0)
    end
    end
    end
    end.

End Main.

(** An icon loader that knows the two built-in icons only. *)
Definition builtin_icons (filename defaultIcon : string) : Fatal string :=
  if String.eqb filename "" then
    if String.eqb defaultIcon "red.png" then Fine "cmVk"
    else if String.eqb defaultIcon "green.png" then Fine "Z3JlZW4="
    else Fatalf (IconLoad "Asset not found")
  else Fatalf (IconLoad "no such file").

(** [-url] and [-uuid] given together, as the usage text has them. *)
Definition url_uuid_flags : Flags := {|
  flag_listen := ":12321";
  flag_n := 4;
  flag_colon := ":";
  flag_colon_alt := ":";
  flag_icon1 := "";
  flag_icon2 := "";
  flag_command := "";
  flag_start_command := "";
  flag_uuid := "UUID";
  flag_async := false;
  flag_work := "25m";
  flag_short := "5m";
  flag_long := "15m";
  flag_port := "";
  flag_url := "http://127.0.0.1:12345/update_touch_bar_widget/";
  flag_tick := 100
|}.

(** ** The commands, with what comes back from them *)

(** What the operating system makes of a command: the error of
    [cmd.Start()] and the error of [cmd.Wait()], [None] for [nil]. *)
Record ExecOutcome : Type := {
  start_error : option string;
  wait_error : option string
}.

(** [cmd.Run()] starts the command and waits for it. *)
Definition cmd_Run (o : ExecOutcome) : option string :=
  match start_error o with
  | Some e => Some e
  | None => wait_error o
  end.

(** strings.Contains *)
Fixpoint contains (s sub : string) : bool :=
  String.prefix sub s ||
  match s with
  | EmptyString => false
  | String _ s' => contains s' sub
  end.

(** The panic of a method call on a [nil] error. *)
Definition nil_dereference : Panic :=
  PanicError "invalid memory address or nil pointer dereference".

Section Commands_run.

Variable cfg : Config.

(** func printCommandError(err error).  [log.Println] writes a [nil]
    error as [<nil>]; [err.Error()] on a [nil] error panics. *)
Definition printCommandError (err : option string) : M unit :=
  emit (EvLog ("Failed to execute command at end of timer: " ++
               match err with Some e => e | None => "<nil>" end)) ;;;
  match err with
  | None => panic nil_dereference
  | Some e =>
      if contains e "exit status 127" &&
         contains (Command cfg) "terminal-notifier"
      then emit (EvLog ("Note: You may need to download terminal-notifier" ++
                        " at https://github.com/julienXX/terminal-notifier"))
      else ret tt
  end.

(** func (s *Server) executeCommand(), with the outcome [o] of the
    command and with its log lines; [executeCommand] above keeps the
    command only.  In the goroutine that waits for the command, [err] is
    the variable of the enclosing function, [nil] at that point. *)
Definition executeCommand_with (o : ExecOutcome) : M unit :=
  if String.eqb (Command cfg) "" then ret tt
  else if CommandAsync cfg then
    emit (EvLog "Executing command (without waiting it to finish)...") ;;;
    emit (EvExec (Command cfg) (CommandAsync cfg)) ;;;
    let err := start_error o in
    (match err with
     | None =>
         match wait_error o with
         | Some _ => printCommandError err
         | None => emit (EvLog "Command executed")
         end
     | Some _ => ret tt
     end) ;;;
    match err with
    | Some _ => printCommandError err
    | None => ret tt
    end
  else
    emit (EvExec (Command cfg) (CommandAsync cfg)) ;;;
    let err := cmd_Run o in
    (match err with
     | None => emit (EvLog "Command executed")
     | Some _ => ret tt
     end) ;;;
    match err with
    | Some _ => printCommandError err
    | None => ret tt
    end.

(** func (s *Server) executeCommandOnStart(), likewise. *)
Definition executeCommandOnStart_with (o : ExecOutcome) : M unit :=
  if String.eqb (CommandOnStart cfg) "" then ret tt
  else if CommandAsync cfg then
    emit (EvLog "Executing command (without waiting it to finish)...") ;;;
    emit (EvExec (CommandOnStart cfg) (CommandAsync cfg)) ;;;
    let err := start_error o in
    (match err with
     | None =>
         match wait_error o with
         | Some _ => printCommandError err
         | None => emit (EvLog "Command executed")
         end
     | Some _ => ret tt
     end) ;;;
    match err with
    | Some _ => printCommandError err
    | None => ret tt
    end
  else
    emit (EvExec (CommandOnStart cfg) (CommandAsync cfg)) ;;;
    let err := cmd_Run o in
    (match err with
     | None => emit (EvLog "Command executed")
     | Some _ => ret tt
     end) ;;;
    match err with
    | Some _ => printCommandError err
    | None => ret tt
    end.

End Commands_run.

(** The command runs and fails afterwards. *)
Definition fails_late (o : ExecOutcome) : bool :=
  match start_error o, wait_error o with
  | None, Some _ => true
  | _, _ => false
  end.

(** [hook_config] with [-async]. *)
Definition async_config : Config := {|
  N := 4;
  SepColon := ":";
  SepBreak := ":";
  DurationWork := 25 * Minute;
  DurationShortBreak := 5 * Minute;
  DurationLongBreak := 15 * Minute;
  UUID := "";
  URL := "";
  Icon1Data := "";
  Icon2Data := "";
  Command := "say done";
  CommandOnStart := "say go";
  CommandAsync := true
|}.

(** * Properties *)

(** ** Time and formatting *)

Lemma Time_Sub_range (t u : Time) :
  minDuration <= Time_Sub t u <= maxDuration.
Proof.
  unfold Time_Sub, minDuration, maxDuration.
  destruct (Z.ltb_spec (t - u) (- 2 ^ 63)); [lia|].
  destruct (Z.ltb_spec (2 ^ 63 - 1) (t - u)); lia.
Qed.

Lemma Time_Sub_exact (t u : Time) :
  minDuration <= t - u <= maxDuration -> Time_Sub t u = t - u.
Proof.
  unfold Time_Sub, minDuration, maxDuration. intros H.
  destruct (Z.ltb_spec (t - u) (- 2 ^ 63)); [lia|].
  destruct (Z.ltb_spec (2 ^ 63 - 1) (t - u)); lia.
Qed.

(** The difference floored at zero does not see the saturation below. *)
Lemma Time_Sub_floor (t u : Time) :
  t - u <= maxDuration -> Z.max 0 (Time_Sub t u) = Z.max 0 (t - u).
Proof.
  unfold Time_Sub, minDuration, maxDuration. intros H.
  destruct (Z.ltb_spec (t - u) (- 2 ^ 63)); [lia|].
  destruct (Z.ltb_spec (2 ^ 63 - 1) (t - u)); lia.
Qed.

Lemma wrap_int_small (z : Z) :
  - 2 ^ 63 <= z < 2 ^ 63 -> wrap_int z = z.
Proof.
  intros H. unfold wrap_int. rewrite Z.mod_small; lia.
Qed.

Lemma fmt_02d_table :
  forallb (fun n => String.eqb (fmt_02d n) (two_digits n))
          (map Z.of_nat (seq 0 100)) = true.
Proof. vm_compute. reflexivity. Qed.

Lemma fmt_02d_two_digits (n : Z) :
  0 <= n <= 99 -> fmt_02d n = two_digits n.
Proof.
  intros H. apply String.eqb_eq.
  pose proof fmt_02d_table as T. rewrite forallb_forall in T.
  apply T. rewrite <- (Z2Nat.id n) by lia.
  apply in_map, in_seq. lia.
Qed.

Lemma formatTimer_floor (d : Duration) (sep : string) :
  formatTimer d sep = formatTimer (Z.max 0 d) sep.
Proof.
  unfold formatTimer.
  destruct (Z.ltb_spec d 0) as [H|H];
    destruct (Z.ltb_spec (Z.max 0 d) 0) as [H'|H']; try lia.
  - now replace (Z.max 0 d) with 0 by lia.
  - now replace (Z.max 0 d) with d by lia.
Qed.

Lemma formatTimer_nonneg (d : Duration) (sep : string) :
  0 <= d ->
  formatTimer d sep =
  two_digits (Z.min 99 (d / Minute)) ++ sep ++
  two_digits ((d mod Minute) / Second).
Proof.
  intros H. unfold formatTimer.
  destruct (Z.ltb_spec d 0) as [H0|_]; [lia|].
  assert (HM : 0 < Minute) by (unfold Minute, Second; lia).
  assert (HS : 0 < Second) by (unfold Second; lia).
  rewrite Z.quot_div_nonneg by lia.
  rewrite Z.rem_mod_nonneg by lia.
  pose proof (Z.mod_pos_bound d Minute HM) as Hr.
  rewrite Z.quot_div_nonneg by lia.
  assert (0 <= d / Minute) by (apply Z.div_pos; lia).
  assert (0 <= (d mod Minute) / Second <= 59).
  { split; [apply Z.div_pos; lia|].
    apply Z.lt_succ_r. apply Z.div_lt_upper_bound; [lia|].
    unfold Minute, Second in *. lia. }
  destruct (Z.ltb_spec 99 (d / Minute)).
  - rewrite Z.min_l by lia. rewrite !fmt_02d_two_digits by lia. reflexivity.
  - rewrite Z.min_r by lia. rewrite !fmt_02d_two_digits by lia. reflexivity.
Qed.

Example formatTimer_25m : formatTimer (25 * Minute) ":" = "25:00".
Proof. reflexivity. Qed.

Example formatTimer_17m43 :
  formatTimer (17 * Minute + 43 * Second + 999999999) ":" = "17:43".
Proof. reflexivity. Qed.

Example formatTimer_3h : formatTimer (180 * Minute + 7 * Second) "x" = "99x07".
Proof. reflexivity. Qed.

Example formatTimer_negative : formatTimer (- Minute) ":" = "00:00".
Proof. reflexivity. Qed.

Example fmt_d_examples :
  (fmt_d 0, fmt_d 7, fmt_d 10, fmt_d 1234, fmt_d (-56)) =
  ("0", "7", "10", "1234", "-56").
Proof. reflexivity. Qed.

(** ** The operations on a valid timer *)

Lemma quiet_refl (w : World) : quiet w w.
Proof.
  repeat split; try lia. exists []. now rewrite app_nil_r.
Qed.

Lemma quiet_trans (w1 w2 w3 : World) :
  quiet w1 w2 -> quiet w2 w3 -> quiet w1 w3.
Proof.
  intros (Hs & Hn & r & Hr & He) (Hs' & Hn' & r' & Hr' & He').
  repeat split; try congruence; try lia.
  exists (r ++ r')%list. split.
  - rewrite Hr', Hr. now rewrite app_assoc.
  - rewrite existsb_app, He, He'. reflexivity.
Qed.

Lemma quiet_clock_read (w : World) : quiet w (clock_read w).
Proof.
  repeat split; simpl; try lia. exists []. now rewrite app_nil_r.
Qed.

Lemma quiet_log (w : World) (line : string) :
  quiet w (with_trace w [EvLog line]).
Proof.
  repeat split; simpl; try lia. now exists [EvLog line].
Qed.

Lemma Server_formatTimer_spec env cfg (w : World) :
  valid (srv w) ->
  Server_formatTimer env cfg w =
  Ok (formatTimer (displayed_duration cfg (srv w) (clock env (nowCalls w)))
                  (separator cfg (mode (srv w))),
      if String.eqb (state (srv w)) StateRunning then clock_read w else w).
Proof.
  destruct w as [[m st t0 d0 c] lt li nc gc tr]. unfold valid. simpl.
  intros [[Hm|[Hm|Hm]] [Hs|[Hs|Hs]]]; subst; try reflexivity.
  all: cbv [Server_formatTimer bind getServer lift ret timeNow]; simpl.
  all: now rewrite formatTimer_floor.
Qed.

Section Outcome.

Variable env : Env.
Variable cfg : Config.

Lemma outcome_weaken {A} (r : Res (A * World)) (P Q : A -> World -> Prop) :
  outcome env cfg r P -> (forall a w, P a w -> Q a w) -> outcome env cfg r Q.
Proof. destruct r as [[a w]|p]; simpl; auto. Qed.

Lemma outcome_ok {A} (r : Res (A * World)) (P : A -> World -> Prop) :
  push_ok env cfg -> outcome env cfg r P ->
  exists a w', r = Ok (a, w') /\ P a w'.
Proof.
  intros Hp. destruct r as [[a w]|p]; simpl.
  - intros H. now exists a, w.
  - intros [_ H]. contradiction.
Qed.

Lemma outcome_inv {A} (r : Res (A * World)) (P : A -> World -> Prop) a w' :
  outcome env cfg r P -> r = Ok (a, w') -> P a w'.
Proof. intros H E. now rewrite E in H. Qed.

Lemma outcome_expected {A} (r : Res (A * World)) (P : A -> World -> Prop) :
  outcome env cfg r P -> r <> Panicked unexpected.
Proof.
  destruct r as [[a w]|p]; simpl; [discriminate|].
  intros [-> _]. discriminate.
Qed.

Lemma outcome_map {A B} (m : M A) (f : A -> B) w
      (Q : B -> World -> Prop) :
  outcome env cfg (m w) (fun a w1 => Q (f a) w1) ->
  outcome env cfg (match m w with
                   | Ok (a, w') => ret (f a) w'
                   | Panicked p => Panicked p
                   end) Q.
Proof. destruct (m w) as [[a w1]|p]; simpl; auto. Qed.

Lemma outcome_bind {A B} (m : M A) (k : A -> M B) w
      (Q : B -> World -> Prop) :
  outcome env cfg (m w) (fun a w1 => outcome env cfg (k a w1) Q) ->
  outcome env cfg (bind m k w) Q.
Proof. unfold bind. destruct (m w) as [[a w1]|p]; simpl; auto. Qed.

Lemma doRequest_outcome text icon w :
  URL cfg <> "" ->
  outcome env cfg (doRequest env cfg text icon w) (fun _ w' => quiet w w').
Proof.
  intros HU. unfold doRequest.
  destruct (String.eqb text (lastText w) && String.eqb icon (lastIcon w)).
  { apply quiet_refl. }
  destruct (url_Parse_ok env (URL cfg)) eqn:EU; simpl.
  2:{ split; [reflexivity|]. intros [H|H]; congruence. }
  assert (Q : quiet w
    {| srv := srv w; lastText := text; lastIcon := icon;
       nowCalls := nowCalls w; getCalls := S (getCalls w);
       trace := trace w ++ [EvGet (URL cfg) (UUID cfg) text icon] |}).
  { repeat split; simpl; try lia. eexists; split; reflexivity. }
  destruct (httpGet env (getCalls w)) as [err|code status]; simpl; auto.
  destruct (code =? 200); simpl; auto.
Qed.

Lemma formatStatus_spec w :
  valid (srv w) ->
  exists line,
    formatStatus env cfg w =
    Ok (line, if String.eqb (state (srv w)) StateRunning
              then clock_read w else w).
Proof.
  intros V. unfold formatStatus, bind, getServer.
  rewrite Server_formatTimer_spec by assumption. simpl.
  eexists. reflexivity.
Qed.

Lemma quiet_formatTimer_world w :
  quiet w (if String.eqb (state (srv w)) StateRunning then clock_read w else w).
Proof.
  destruct (String.eqb (state (srv w)) StateRunning);
    [apply quiet_clock_read | apply quiet_refl].
Qed.

Lemma quiet_valid w w' : quiet w w' -> valid (srv w) -> valid (srv w').
Proof. intros [E _] V. now rewrite E. Qed.

Lemma outputStatus_outcome output w :
  valid (srv w) ->
  outcome env cfg (outputStatus env cfg output w) (fun _ w' => quiet w w').
Proof.
  intros V. unfold outputStatus.
  apply outcome_bind.
  assert (H1 : outcome env cfg
            ((if output
              then line <- formatStatus env cfg ;; emit (EvLog line)
              else ret tt) w)
            (fun _ w1 => quiet w w1)).
  { destruct output; [|apply quiet_refl].
    destruct (formatStatus_spec w V) as [line E].
    unfold bind. rewrite E. simpl.
    eapply quiet_trans; [apply quiet_formatTimer_world | apply quiet_log]. }
  eapply outcome_weaken; [exact H1|]. clear H1.
  intros u1 w1 Q1. simpl in Q1.
  pose proof (quiet_valid _ _ Q1 V) as V1.
  apply outcome_bind. rewrite Server_formatTimer_spec by assumption. simpl.
  set (w2 := if String.eqb (state (srv w1)) StateRunning
             then clock_read w1 else w1).
  assert (Q2 : quiet w w2).
  { eapply quiet_trans; [exact Q1 | apply quiet_formatTimer_world]. }
  apply outcome_bind.
  destruct (String.eqb (URL cfg) "") eqn:EU; simpl.
  - exact Q2.
  - apply outcome_bind. unfold getServer. simpl.
    apply outcome_bind.
    eapply outcome_weaken.
    + apply doRequest_outcome. intros H. rewrite H in EU. discriminate.
    + intros u3 w3 Q3. simpl in *. eapply quiet_trans; eassumption.
Qed.

Lemma nextMode_spec w :
  valid_mode (mode (srv w)) ->
  nextMode cfg w = Ok (tt, with_srv (auto_advance cfg (srv w)) w).
Proof.
  destruct w as [[m st t0 d0 c] lt li nc gc tr]. simpl.
  intros [Hm|[Hm|Hm]]; subst; try reflexivity.
  cbv [nextMode bind getServer modifyServer ret auto_advance]. simpl.
  destruct (wrap_int (c + 1) <? N cfg); reflexivity.
Qed.

Lemma auto_advance_valid s :
  valid (s) -> valid (auto_advance cfg s) /\
  state (auto_advance cfg s) = state s.
Proof.
  destruct s as [m st t0 d0 c]. unfold valid, valid_mode. simpl.
  intros [[Hm|[Hm|Hm]] Hs]; subst; unfold auto_advance; simpl;
    try destruct (wrap_int (c + 1) <? N cfg); simpl; auto.
Qed.

Lemma expired_valid s :
  valid_mode (mode s) ->
  valid (expired cfg s) /\ state (expired cfg s) = StateStopped.
Proof.
  intros Hm. unfold expired.
  destruct (auto_advance_valid (set_state StateStopped s)) as [V E].
  - split; [exact Hm | left; reflexivity].
  - split; [exact V | exact E].
Qed.

Lemma RefreshStatus_outcome output w :
  valid (srv w) ->
  outcome env cfg (RefreshStatus env cfg output w)
    (fun _ w' => if due env w (nowCalls w)
                 then expiry cfg w w' else quiet w w').
Proof.
  intros V. unfold RefreshStatus, due.
  cbv [bind getServer].
  destruct (String.eqb (state (srv w)) StateRunning) eqn:ES; simpl.
  2:{ apply outputStatus_outcome, V. }
  unfold Time_After.
  destruct (t (srv w) <? clock env (nowCalls w)) eqn:ET; simpl.
  2:{ eapply outcome_weaken.
      - apply outputStatus_outcome. exact V.
      - intros u w' Q. simpl in Q.
        eapply quiet_trans; [apply quiet_clock_read | exact Q]. }
  rewrite nextMode_spec by (simpl; apply V). simpl.
  fold (expired cfg (srv w)).
  destruct (expired_valid (srv w) (proj1 V)) as [VE _].
  unfold executeCommand, expiry, expiry_hook.
  destruct (String.eqb (Command cfg) ""); simpl.
  - eapply outcome_weaken.
    + apply outputStatus_outcome. simpl. exact VE.
    + intros u w' (Q1 & Q2 & rest & Q3 & Q4). simpl in *.
      repeat split; auto; try lia. exists rest. auto.
  - eapply outcome_weaken.
    + apply outputStatus_outcome. simpl. exact VE.
    + intros u w' (Q1 & Q2 & rest & Q3 & Q4). simpl in *.
      repeat split; auto; try lia. exists rest. split; [|exact Q4].
      rewrite Q3. now rewrite <- app_assoc.
Qed.

Lemma Mode_Duration_spec m :
  valid_mode m -> Mode_Duration cfg m = Ok (configured cfg m).
Proof. intros [H|[H|H]]; subst; reflexivity. Qed.

Lemma Mode_Sep_spec m :
  valid_mode m -> Mode_Sep cfg m = Ok (separator cfg m).
Proof. intros [H|[H|H]]; subst; reflexivity. Qed.

Lemma executeCommandOnStart_srv w :
  exists w', executeCommandOnStart cfg w = Ok (tt, w') /\
             srv w' = srv w /\ nowCalls w' = nowCalls w.
Proof.
  unfold executeCommandOnStart.
  destruct (String.eqb (CommandOnStart cfg) ""); eexists; repeat split.
Qed.

Lemma Server_formatTimer_outcome w :
  valid (srv w) ->
  outcome env cfg (Server_formatTimer env cfg w) (fun _ w' => quiet w w').
Proof.
  intros V. rewrite Server_formatTimer_spec by assumption. simpl.
  apply quiet_formatTimer_world.
Qed.

Lemma ActionStart_outcome method w :
  valid (srv w) ->
  outcome env cfg (ActionStart env cfg method w)
    (fun _ w' => srv w' = timer_after env cfg (PostStart method) w /\
                 if String.eqb method "POST"
                 then (S (nowCalls w) <= nowCalls w')%nat else w' = w).
Proof.
  intros V. unfold ActionStart, timer_after.
  destruct (String.eqb method "POST"); simpl; [|auto].
  apply outcome_bind. unfold timeNow. simpl.
  apply outcome_bind. unfold getServer. simpl.
  destruct V as [Vm [Hs|[Hs|Hs]]].
  - (* stopped *)
    rewrite Hs. simpl. apply outcome_bind. apply outcome_bind.
    rewrite Mode_Duration_spec by assumption. simpl.
    cbv [bind modifyServer].
    match goal with |- context [executeCommandOnStart cfg ?x] =>
      destruct (executeCommandOnStart_srv x) as (w1 & E1 & S1 & N1) end.
    rewrite E1. simpl. simpl in S1, N1.
    apply (outcome_map _ Text).
    eapply outcome_weaken.
    + apply Server_formatTimer_outcome. rewrite S1.
      split; simpl; [exact Vm | right; right; reflexivity].
    + intros r w' (Q1 & Q2 & _). simpl. rewrite Q1, S1.
      split; [reflexivity | lia].
  - (* paused *)
    rewrite Hs. simpl. apply outcome_bind.
    cbv [bind modifyServer].
    match goal with |- context [executeCommandOnStart cfg ?x] =>
      destruct (executeCommandOnStart_srv x) as (w1 & E1 & S1 & N1) end.
    rewrite E1. simpl. simpl in S1, N1.
    apply (outcome_map _ Text).
    eapply outcome_weaken.
    + apply Server_formatTimer_outcome. rewrite S1.
      split; simpl; [exact Vm | right; right; reflexivity].
    + intros r w' (Q1 & Q2 & _). simpl. rewrite Q1, S1.
      split; [reflexivity | lia].
  - (* running *)
    rewrite Hs. simpl. apply outcome_bind. apply outcome_bind.
    eapply outcome_weaken.
    + apply (RefreshStatus_outcome true (clock_read w)). simpl.
      split; [exact Vm | right; right; exact Hs].
    + intros str w1. unfold due. simpl. rewrite Hs. simpl.
      destruct (t (srv w) <? clock env (S (nowCalls w))) eqn:ET.
      * intros (S1 & N1 & _). simpl in S1, N1. simpl.
        destruct (expired_valid (srv w) Vm) as [VE SE].
        cbv [bind]. simpl. rewrite S1, SE. simpl.
        apply (outcome_map _ Text).
        eapply outcome_weaken.
        -- apply Server_formatTimer_outcome. now rewrite S1.
        -- intros r w' (Q1 & Q2 & _). simpl. rewrite Q1, S1.
           split; [reflexivity | lia].
      * intros (S1 & N1 & _). simpl in S1, N1. simpl.
        cbv [bind]. simpl. rewrite S1, Hs. simpl.
        apply (outcome_map _ Text).
        eapply outcome_weaken.
        -- apply Server_formatTimer_outcome. simpl.
           split; simpl; [now rewrite S1 | right; left; reflexivity].
        -- intros r w' (Q1 & Q2 & _). simpl in *. rewrite Q1, S1.
           split; [reflexivity | lia].
Qed.

Lemma manual_advance_valid s :
  valid s -> valid (manual_advance cfg s) /\
  state (manual_advance cfg s) = state s.
Proof.
  destruct s as [m st t0 d0 c]. unfold valid, valid_mode. simpl.
  intros [[Hm|[Hm|Hm]] Hs]; subst; unfold manual_advance; simpl;
    try destruct (c <? N cfg); simpl; auto.
Qed.

Lemma ActionStop_outcome method w :
  valid (srv w) ->
  outcome env cfg (ActionStop env cfg method w)
    (fun _ w' => srv w' = timer_after env cfg (PostStop method) w /\
                 (nowCalls w <= nowCalls w')%nat).
Proof.
  intros V. unfold ActionStop, timer_after.
  destruct (String.eqb method "POST"); simpl; [|auto].
  cbv [bind getServer].
  assert (R : forall s', valid s' -> state s' = StateStopped ->
    outcome env cfg
      match RefreshStatus env cfg true (with_srv s' w) with
      | Ok (a, w') => ret (Text a) w'
      | Panicked p => Panicked p
      end
      (fun _ w' => srv w' = s' /\ (nowCalls w <= nowCalls w')%nat)).
  { intros s' V' S'. apply (outcome_map _ Text).
    eapply outcome_weaken.
    - apply RefreshStatus_outcome. exact V'.
    - intros str w'. unfold due. simpl. rewrite S'. simpl.
      intros (Q1 & Q2 & _). simpl in *. auto. }
  destruct V as [Vm [Hs|[Hs|Hs]]]; rewrite Hs; simpl.
  - (* stopped: the mode is switched *)
    destruct (manual_advance_valid (srv w)) as [VA SA].
    { split; [exact Vm | left; exact Hs]. }
    rewrite Hs in SA. specialize (R _ VA SA).
    unfold manual_advance in *.
    destruct Vm as [Hm|[Hm|Hm]]; rewrite Hm in *; simpl in *;
      try destruct (count (srv w) <? N cfg); exact R.
  - apply R; [split; [exact Vm | left; reflexivity] | reflexivity].
  - apply R; [split; [exact Vm | left; reflexivity] | reflexivity].
Qed.

Lemma Status_outcome method accept w :
  valid (srv w) ->
  outcome env cfg (Status env cfg method accept w)
    (fun _ w' => srv w' = timer_after env cfg (GetStatus method accept) w /\
                 (nowCalls w <= nowCalls w')%nat).
Proof.
  intros V. unfold Status, timer_after.
  destruct (String.eqb method "GET"); simpl; [|auto].
  apply outcome_bind. eapply outcome_weaken.
  { apply RefreshStatus_outcome. exact V. }
  intros str w1 H.
  assert (H1 : srv w1 = (if due env w (nowCalls w)
                         then expired cfg (srv w) else srv w) /\
               (nowCalls w <= nowCalls w1)%nat).
  { destruct (due env w (nowCalls w)); destruct H as (Q1 & Q2 & _); auto. }
  clear H. destruct H1 as [S1 N1].
  assert (V1 : valid (srv w1)).
  { rewrite S1. destruct (due env w (nowCalls w)); [|exact V].
    apply expired_valid, V. }
  destruct (String.eqb accept "application/json"); simpl; [|auto].
  unfold formatStatusJSON. cbv [bind getServer].
  rewrite Server_formatTimer_spec by exact V1. simpl.
  destruct (String.eqb (state (srv w1)) StateRunning); simpl;
    split; auto; lia.
Qed.

Lemma Server_Time_outcome method w :
  valid (srv w) ->
  outcome env cfg (Server_Time env cfg method w)
    (fun _ w' => srv w' = timer_after env cfg (GetTime method) w /\
                 (nowCalls w <= nowCalls w')%nat).
Proof.
  intros V. unfold Server_Time, timer_after.
  destruct (String.eqb method "GET"); simpl; [|auto].
  apply (outcome_map _ Text). eapply outcome_weaken.
  { apply RefreshStatus_outcome. exact V. }
  intros str w1 H. simpl.
  destruct (due env w (nowCalls w)); destruct H as (Q1 & Q2 & _); auto.
Qed.

(** Every call, on a valid timer: the timer afterwards is [timer_after],
    and the clock has been read no less often. *)
Lemma serve_outcome c w :
  valid (srv w) ->
  outcome env cfg (serve env cfg c w)
    (fun _ w' => srv w' = timer_after env cfg c w /\
                 (nowCalls w <= nowCalls w')%nat).
Proof.
  intros V. destruct c as [m|m a|m|m|m|]; unfold serve.
  - unfold Index. destruct (negb (String.eqb m "GET")); simpl; auto.
  - apply (outcome_map _ Some). eapply outcome_weaken.
    + apply Status_outcome, V.
    + auto.
  - apply (outcome_map _ Some). eapply outcome_weaken.
    + apply Server_Time_outcome, V.
    + auto.
  - apply (outcome_map _ Some). eapply outcome_weaken.
    + apply ActionStart_outcome, V.
    + simpl. intros r w' [H1 H2]. split; [exact H1|].
      destruct (String.eqb m "POST"); [lia | subst; lia].
  - apply (outcome_map _ Some). eapply outcome_weaken.
    + apply ActionStop_outcome, V.
    + auto.
  - apply (outcome_map _ (fun _ => None)). eapply outcome_weaken.
    + apply RefreshStatus_outcome, V.
    + simpl. intros str w1 H.
      destruct (due env w (nowCalls w)); destruct H as (Q1 & Q2 & _); auto.
Qed.

End Outcome.

(** ** Steps, runs and reachable worlds *)

Section Steps.

Variable env : Env.
Variable cfg : Config.

Lemma expired_cases s :
  valid_mode (mode s) ->
  state (expired cfg s) = StateStopped /\
  t (expired cfg s) = t s /\ d (expired cfg s) = d s /\
  (mode s = ModeWork ->
   count (expired cfg s) = wrap_int (count s + 1) /\
   mode (expired cfg s) =
   if wrap_int (count s + 1) <? N cfg
   then ModeShortBreak else ModeLongBreak) /\
  (mode s = ModeShortBreak ->
   count (expired cfg s) = count s /\ mode (expired cfg s) = ModeWork) /\
  (mode s = ModeLongBreak ->
   count (expired cfg s) = 0 /\ mode (expired cfg s) = ModeWork).
Proof.
  destruct s as [m st t0 d0 c]. simpl.
  intros [Hm|[Hm|Hm]]; subst; unfold expired, auto_advance; simpl;
    repeat split; try discriminate; auto.
Qed.

Lemma timer_after_valid c w :
  valid (srv w) -> valid (timer_after env cfg c w).
Proof.
  intros V. pose proof (expired_valid cfg (srv w) (proj1 V)) as [VE _].
  pose proof (manual_advance_valid cfg (srv w) V) as [VA _].
  assert (VS : forall st s', valid_mode (mode s') -> valid_state st ->
                             valid (set_state st s')).
  { intros st s' Hm Hs. split; assumption. }
  destruct V as [Vm Vs].
  destruct c as [m|m a|m|m|m|]; simpl; auto;
    repeat match goal with
           | |- context [if ?b then _ else _] => destruct b
           end;
    auto; try (split; assumption);
    apply VS; simpl; auto; unfold valid_state; auto.
Qed.

Lemma serve_valid c w r w' :
  valid (srv w) -> serve env cfg c w = Ok (r, w') -> valid (srv w').
Proof.
  intros V E.
  destruct (outcome_inv env cfg _ _ _ _ (serve_outcome env cfg c w V) E)
    as [S1 _].
  rewrite S1. apply timer_after_valid, V.
Qed.

Lemma NewServer_valid : valid NewServer.
Proof. split; left; reflexivity. Qed.

Lemma reachable_avoiding_valid bad w :
  reachable_avoiding env cfg bad w -> valid (srv w).
Proof.
  induction 1 as [w E | w c r w' _ IH _ E].
  - rewrite E. apply NewServer_valid.
  - eapply serve_valid; eassumption.
Qed.

(** Every call returns on a valid timer, the push URL being in order. *)
Lemma serve_total c w :
  push_ok env cfg -> valid (srv w) ->
  exists r w', serve env cfg c w = Ok (r, w').
Proof.
  intros P V.
  destruct (outcome_ok env cfg _ _ P (serve_outcome env cfg c w V))
    as (r & w' & E & _).
  eauto.
Qed.

Lemma run_app cs1 cs2 w :
  run env cfg (cs1 ++ cs2) w =
  match run env cfg cs1 w with
  | Ok w1 => run env cfg cs2 w1
  | Panicked p => Panicked p
  end.
Proof.
  revert w. induction cs1 as [|c cs1 IH]; intros w; simpl; [reflexivity|].
  destruct (serve env cfg c w) as [[r w1]|p]; [apply IH | reflexivity].
Qed.

Lemma run_reachable bad cs w w' :
  avoids env cfg bad cs w = true ->
  reachable_avoiding env cfg bad w -> run env cfg cs w = Ok w' ->
  reachable_avoiding env cfg bad w'.
Proof.
  revert w. induction cs as [|c cs IH]; intros w A R E; simpl in E, A.
  - now inversion E; subst.
  - apply andb_true_iff in A. destruct A as [B A].
    apply negb_true_iff in B.
    destruct (serve env cfg c w) as [[r w1]|p] eqn:E1; [|discriminate].
    apply (IH w1); [exact A | | exact E].
    eapply avoiding_step; [exact R | exact B | exact E1].
Qed.

Lemma run_auto_run cs w w' :
  avoids env cfg manual_switch cs w = true -> run env cfg cs w = Ok w' ->
  auto_run env cfg (expiries env cfg cs w) w w'.
Proof.
  revert w. induction cs as [|c cs IH]; intros w A E; simpl in *.
  - inversion E; subst. apply auto_run_nil.
  - apply andb_true_iff in A. destruct A as [B A].
    apply negb_true_iff in B.
    destruct (serve env cfg c w) as [[r w1]|p] eqn:E1; [|discriminate].
    pose proof (auto_run_step env cfg (expiries env cfg cs w1) w c r w1 w'
                  B E1 (IH w1 A E)) as H.
    destruct (expires env w c); exact H.
Qed.

Lemma run_single c w w' :
  run env cfg [c] w = Ok w' -> exists r, serve env cfg c w = Ok (r, w').
Proof.
  unfold run. destruct (serve env cfg c w) as [[r w1]|p]; intros E;
    inversion E; subst. eauto.
Qed.

Lemma run_valid cs w w' :
  run env cfg cs w = Ok w' -> valid (srv w) -> valid (srv w').
Proof.
  revert w. induction cs as [|c cs IH]; intros w E V; simpl in E.
  - inversion E; subst. exact V.
  - destruct (serve env cfg c w) as [[r w1]|p] eqn:E1; [|discriminate].
    apply (IH w1); [exact E|]. eapply serve_valid; eassumption.
Qed.

Lemma serve_PostStart m w r w' :
  serve env cfg (PostStart m) w = Ok (r, w') ->
  exists a, ActionStart env cfg m w = Ok (a, w').
Proof.
  unfold serve, bind.
  destruct (ActionStart env cfg m w) as [[a w1]|p]; intros E;
    inversion E; subst. eauto.
Qed.

End Steps.

(** ** The status projection *)

Lemma two_digits_table :
  forallb (fun n => two_digit_string (two_digits n))
          (map Z.of_nat (seq 0 100)) = true.
Proof. vm_compute. reflexivity. Qed.

Lemma two_digits_shape (n : Z) :
  0 <= n <= 99 -> two_digit_string (two_digits n) = true.
Proof.
  intros H. pose proof two_digits_table as T. rewrite forallb_forall in T.
  apply T. rewrite <- (Z2Nat.id n) by lia.
  apply in_map, in_seq. lia.
Qed.

Lemma minutes_seconds_bounds (dur : Duration) :
  0 <= dur ->
  0 <= Z.min 99 (dur / Minute) <= 99 /\ 0 <= (dur mod Minute) / Second <= 59.
Proof.
  intros H.
  assert (HM : 0 < Minute) by (unfold Minute, Second; lia).
  assert (HS : 0 < Second) by (unfold Second; lia).
  pose proof (Z.mod_pos_bound dur Minute HM) as Hr.
  assert (0 <= dur / Minute) by (apply Z.div_pos; lia).
  split; [lia|].
  split; [apply Z.div_pos; lia|].
  apply Z.lt_succ_r. apply Z.div_lt_upper_bound; [lia|].
  unfold Minute, Second in *. lia.
Qed.

(** C8.  For a duration [dur >= 0], [formatTimer] writes the minutes,
    clamped to at most 99, and the seconds, each as exactly two decimal
    digits, around the separator it is given; a negative duration is
    written as zero; and [Server.formatTimer] gives it the separator that
    belongs to the current mode: [SepColon] at work, [SepBreak] in both
    breaks. *)
Theorem formatTimer_two_digits :
  forall env cfg (dur : Duration) (sep : string) (w : World),
    0 <= dur -> valid (srv w) ->
    let m := Z.min 99 (dur / Minute) in
    let s := (dur mod Minute) / Second in
    (0 <= m <= 99 /\ 0 <= s <= 59 /\
     formatTimer dur sep = two_digits m ++ sep ++ two_digits s /\
     two_digit_string (two_digits m) = true /\
     two_digit_string (two_digits s) = true) /\
    (forall neg, neg < 0 -> formatTimer neg sep = "00" ++ sep ++ "00") /\
    (exists shown w',
        Server_formatTimer env cfg w =
        Ok (formatTimer shown (separator cfg (mode (srv w))), w') /\
        Mode_Sep cfg (mode (srv w)) = Ok (separator cfg (mode (srv w))) /\
        (mode (srv w) = ModeWork ->
         separator cfg (mode (srv w)) = SepColon cfg) /\
        (mode (srv w) = ModeShortBreak \/ mode (srv w) = ModeLongBreak ->
         separator cfg (mode (srv w)) = SepBreak cfg)).
Proof.
  intros env cfg dur sep w Hd V m s.
  destruct (minutes_seconds_bounds dur Hd) as [Bm Bs].
  split; [|split].
  - split; [exact Bm|]. split; [exact Bs|].
    split; [apply formatTimer_nonneg, Hd|].
    split; apply two_digits_shape; [exact Bm | unfold s; lia].
  - intros neg Hn. unfold formatTimer.
    destruct (Z.ltb_spec neg 0); [reflexivity | lia].
  - eexists. eexists. split; [apply Server_formatTimer_spec, V|].
    split; [apply Mode_Sep_spec, V|].
    split; intros H.
    + now rewrite H.
    + destruct H as [H|H]; now rewrite H.
Qed.

Lemma formatTimer_two_digits_witness :
  0 <= 180 * Minute + 7 * Second /\ valid (srv world0) /\
  formatTimer (180 * Minute + 7 * Second) "." = "99.07" /\
  formatTimer (- Minute) "." = "00.00".
Proof.
  assert (D : 0 <= 180 * Minute + 7 * Second) by (vm_compute; discriminate).
  split; [exact D|]. split; [apply NewServer_valid|].
  destruct (formatTimer_two_digits hourly default_config
              (180 * Minute + 7 * Second) "." world0 D NewServer_valid)
    as [(_ & _ & E & _) [Z0 _]].
  split; [exact E|]. apply Z0. reflexivity.
Defined.

(** C6.  On every valid timer and at every instant, [Server.formatTimer]
    formats the displayed duration: the configured duration of the mode
    when stopped, the stored remaining duration when paused, and the
    deadline minus the reading of the clock, floored at zero, when
    running. *)
Theorem displayed_duration_by_state :
  forall env cfg (w : World),
    valid (srv w) ->
    let now := clock env (nowCalls w) in
    let shown := displayed_duration cfg (srv w) now in
    (exists w',
        Server_formatTimer env cfg w =
        Ok (formatTimer shown (separator cfg (mode (srv w))), w') /\
        srv w' = srv w) /\
    (state (srv w) = StateStopped ->
     Mode_Duration cfg (mode (srv w)) = Ok shown) /\
    (state (srv w) = StatePaused -> shown = d (srv w)) /\
    (state (srv w) = StateRunning ->
     shown = Z.max 0 (Time_Sub (t (srv w)) now) /\
     (t (srv w) - now <= maxDuration ->
      shown = Z.max 0 (t (srv w) - now))).
Proof.
  intros env cfg w V now shown.
  split; [|split; [|split]].
  - eexists. split; [apply Server_formatTimer_spec, V|].
    destruct (String.eqb (state (srv w)) StateRunning); reflexivity.
  - intros H. unfold shown, displayed_duration. rewrite H. simpl.
    apply Mode_Duration_spec, V.
  - intros H. unfold shown, displayed_duration. rewrite H. reflexivity.
  - intros H. unfold shown, displayed_duration. rewrite H. simpl.
    split; [reflexivity|]. intros Hr. apply Time_Sub_floor, Hr.
Qed.

Lemma displayed_duration_by_state_witness :
  valid (srv break_running) /\
  exists w',
    Server_formatTimer (frozen (10 * Minute)) default_config break_running =
    Ok ("02:30", w') /\ srv w' = srv break_running.
Proof.
  assert (V : valid (srv break_running)).
  { split; [right; left; reflexivity | right; right; reflexivity]. }
  split; [exact V|].
  destruct (displayed_duration_by_state (frozen (10 * Minute)) default_config
              break_running V) as [(w' & E & S) _].
  exists w'. split; [exact E | exact S].
Defined.

(** ** The program at work *)

(** The first request of [main] under [push_config] leads to [pushed]. *)
Example first_request :
  doRequest hourly push_config
    (formatTimer (DurationWork push_config) (SepColon push_config))
    (Icon1Data push_config) world0 = Ok (None, pushed).
Proof. reflexivity. Qed.

(** Start, and the full interval gone by: the short break, stopped, one
    interval counted, and the status line in the log. *)
Example start_and_expire :
  run hourly default_config round world0 =
  Ok {| srv := {| mode := ModeShortBreak; state := StateStopped;
                  t := 25 * Minute; d := 0; count := 1 |};
        lastText := ""; lastIcon := ""; nowCalls := 3; getCalls := 0;
        trace := [EvLog "[S] 05:00 1/4 short-break"] |}.
Proof. vm_compute. reflexivity. Qed.

(** Work running with five seconds to go, and start-or-pause at once:
    paused with five seconds remaining. *)
Example pause_at_once :
  exists w',
    ActionStart (frozen 0) default_config "POST" (work_running (5 * Second)) =
    Ok (Text "00:05", w') /\
    srv w' = {| mode := ModeWork; state := StatePaused;
                t := 5 * Second; d := 5 * Second; count := 0 |}.
Proof. eexists. split; [vm_compute; reflexivity | reflexivity]. Qed.

(** The status as text and as a record, and a request with the wrong
    method. *)
Example status_replies :
  (exists w', Status hourly default_config "GET" "" world0 =
              Ok (Text "25:00", w')) /\
  (exists w', Status hourly default_config "GET" "application/json" world0 =
              Ok (Json {| json_mode := "work"; json_state := "[S]";
                          json_timer := "25:00"; json_i := 0; json_n := 4 |},
                  w')) /\
  Status hourly default_config "POST" "" world0 = Ok (NotFound, world0).
Proof.
  split; [eexists; vm_compute; reflexivity|].
  split; [eexists; vm_compute; reflexivity | reflexivity].
Qed.

(** ** Stop or switch *)

Lemma hourly_push_ok cfg : push_ok hourly cfg.
Proof. right. reflexivity. Qed.

Lemma frozen_push_ok now cfg : push_ok (frozen now) cfg.
Proof. right. reflexivity. Qed.

(** C1, as the specification has it, fails on a stopped long break: the
    switch leads to the short break, not to work. *)
Lemma switch_from_long_break_counterexample :
  ~ stated_switch_from_long_break hourly default_config long_break_stopped.
Proof.
  intros H. destruct (H eq_refl eq_refl) as (r & w' & E & Hm & _).
  vm_compute in E. inversion E; subst. discriminate Hm.
Qed.

(** C1, amended.  On a stopped timer stop-or-switch changes the mode and
    nothing else of the timer, the count least of all: work gives way to
    the short break when the count is below [N] and to the long break
    otherwise, the short break gives way to work, and the long break gives
    way to the short break. *)
Theorem ActionStop_switches_mode :
  forall env cfg (w : World),
    push_ok env cfg -> valid_mode (mode (srv w)) ->
    state (srv w) = StateStopped ->
    exists r w',
      ActionStop env cfg "POST" w = Ok (r, w') /\
      count (srv w') = count (srv w) /\
      state (srv w') = StateStopped /\
      t (srv w') = t (srv w) /\ d (srv w') = d (srv w) /\
      (mode (srv w) = ModeWork ->
       mode (srv w') =
       if count (srv w) <? N cfg then ModeShortBreak else ModeLongBreak) /\
      (mode (srv w) = ModeShortBreak -> mode (srv w') = ModeWork) /\
      (mode (srv w) = ModeLongBreak -> mode (srv w') = ModeShortBreak).
Proof.
  intros env cfg w P Vm Hs.
  assert (V : valid (srv w)) by (split; [exact Vm | left; exact Hs]).
  destruct (outcome_ok env cfg _ _ P (ActionStop_outcome env cfg "POST" w V))
    as (r & w' & E & S1 & _).
  exists r, w'. split; [exact E|].
  rewrite S1. unfold timer_after. simpl. rewrite Hs. simpl.
  destruct (srv w) as [m st t0 d0 c]. simpl in *.
  unfold manual_advance. simpl.
  destruct Vm as [Hm|[Hm|Hm]]; subst m; simpl;
    repeat split; auto; try discriminate.
Qed.

Lemma ActionStop_switches_mode_witness :
  push_ok hourly default_config /\
  valid_mode (mode (srv long_break_stopped)) /\
  state (srv long_break_stopped) = StateStopped /\
  exists r w',
    ActionStop hourly default_config "POST" long_break_stopped = Ok (r, w') /\
    mode (srv w') = ModeShortBreak /\ count (srv w') = 0.
Proof.
  assert (Vm : valid_mode (mode (srv long_break_stopped))).
  { right; right; reflexivity. }
  split; [apply hourly_push_ok|]. split; [exact Vm|].
  split; [reflexivity|].
  destruct (ActionStop_switches_mode hourly default_config long_break_stopped
              (hourly_push_ok _) Vm eq_refl)
    as (r & w' & E & Hc & _ & _ & _ & _ & _ & Hl).
  exists r, w'. split; [exact E|]. split; [apply Hl; reflexivity | exact Hc].
Defined.

(** ** Passive refresh and the status query *)

Lemma due_true env w k :
  due env w k = true <->
  state (srv w) = StateRunning /\ t (srv w) < clock env k.
Proof.
  unfold due. rewrite andb_true_iff, String.eqb_eq, Z.ltb_lt. tauto.
Qed.

Lemma due_false env w k :
  due env w k = false <->
  state (srv w) <> StateRunning \/ clock env k <= t (srv w).
Proof.
  unfold due. rewrite andb_false_iff, String.eqb_neq, Z.ltb_ge. tauto.
Qed.

(** C4, as the specification has it, fails on a running timer whose
    deadline has passed: the query stops it and advances the mode. *)
Lemma read_only_counterexample :
  ~ stated_read_only (frozen 1) default_config (work_running 0).
Proof.
  intros H.
  assert (E : exists r w',
             Status (frozen 1) default_config "GET" "" (work_running 0) =
             Ok (r, w') /\ state (srv w') = StateStopped).
  { eexists. eexists. split; [vm_compute; reflexivity | reflexivity]. }
  destruct E as (r & w' & E & Hs).
  apply H in E. rewrite E in Hs. discriminate Hs.
Qed.

(** C4, amended.  A status query, [/status] or [/time], leaves every field
    of the timer as it is unless the timer is running and its deadline
    lies before the reading of the clock; then the query, a [GET], does
    what passive refresh does: the timer is stopped and its mode
    advanced. *)
Theorem status_query_effect :
  forall env cfg (w : World) (method accept : string),
    push_ok env cfg -> valid (srv w) ->
    let now := clock env (nowCalls w) in
    exists r1 w1 r2 w2,
      Status env cfg method accept w = Ok (r1, w1) /\
      Server_Time env cfg method w = Ok (r2, w2) /\
      (state (srv w) <> StateRunning \/ now <= t (srv w) \/ method <> "GET" ->
       srv w1 = srv w /\ srv w2 = srv w) /\
      (state (srv w) = StateRunning -> t (srv w) < now -> method = "GET" ->
       srv w1 = expired cfg (srv w) /\ srv w2 = expired cfg (srv w)).
Proof.
  intros env cfg w method accept P V now.
  destruct (outcome_ok env cfg _ _ P
              (Status_outcome env cfg method accept w V))
    as (r1 & w1 & E1 & S1 & _).
  destruct (outcome_ok env cfg _ _ P
              (Server_Time_outcome env cfg method w V))
    as (r2 & w2 & E2 & S2 & _).
  exists r1, w1, r2, w2. split; [exact E1|]. split; [exact E2|].
  rewrite S1, S2. unfold timer_after. split.
  - intros H.
    assert (F : String.eqb method "GET" && due env w (nowCalls w) = false).
    { apply andb_false_iff.
      destruct H as [H|[H|H]].
      - right. apply due_false. left. exact H.
      - right. apply due_false. right. exact H.
      - left. apply String.eqb_neq. exact H. }
    rewrite F. split; reflexivity.
  - intros Hs Ht Hm. subst method.
    assert (D : due env w (nowCalls w) = true) by (apply due_true; auto).
    rewrite D. split; reflexivity.
Qed.

Lemma status_query_effect_witness :
  push_ok (frozen 1) default_config /\ valid (srv (work_running 0)) /\
  exists r1 w1,
    Status (frozen 1) default_config "GET" "" (work_running 0) =
    Ok (r1, w1) /\
    state (srv w1) = StateStopped /\ mode (srv w1) = ModeShortBreak /\
    count (srv w1) = 1.
Proof.
  assert (V : valid (srv (work_running 0))).
  { split; [left; reflexivity | right; right; reflexivity]. }
  split; [apply frozen_push_ok|]. split; [exact V|].
  destruct (status_query_effect (frozen 1) default_config (work_running 0)
              "GET" "" (frozen_push_ok _ _) V)
    as (r1 & w1 & r2 & w2 & E1 & _ & _ & H).
  destruct H as [S1 _]; [reflexivity | reflexivity | reflexivity |].
  exists r1, w1. split; [exact E1|]. rewrite S1. repeat split.
Defined.

(** C5, as the specification has it, fails at the deadline itself: a
    reading of the clock equal to the deadline leaves the timer running. *)
Lemma expiry_at_deadline_counterexample :
  ~ stated_expiry_at_deadline (frozen 0) default_config (work_running 0).
Proof.
  intros H.
  destruct H as (str & w' & E & Hs);
    [reflexivity | vm_compute; discriminate |].
  vm_compute in E. inversion E; subst. discriminate Hs.
Qed.

(** C5, amended.  On a running timer passive refresh, at a reading [now]
    of the clock later than the deadline, stops the timer, advances the
    mode (counting the interval when work is left, resetting the count
    when the long break is left) and runs the expiry hook before anything
    else; at a reading not later than the deadline it leaves the timer as
    it is and runs no command. *)
Theorem RefreshStatus_expiry :
  forall env cfg (w : World) (output : bool),
    push_ok env cfg -> valid_mode (mode (srv w)) ->
    state (srv w) = StateRunning ->
    let now := clock env (nowCalls w) in
    exists str w',
      RefreshStatus env cfg output w = Ok (str, w') /\
      (t (srv w) < now ->
       state (srv w') = StateStopped /\
       (mode (srv w) = ModeWork ->
        count (srv w') = wrap_int (count (srv w) + 1) /\
        mode (srv w') =
        if wrap_int (count (srv w) + 1) <? N cfg
        then ModeShortBreak else ModeLongBreak) /\
       (mode (srv w) = ModeShortBreak ->
        count (srv w') = count (srv w) /\ mode (srv w') = ModeWork) /\
       (mode (srv w) = ModeLongBreak ->
        count (srv w') = 0 /\ mode (srv w') = ModeWork) /\
       exists rest,
         trace w' = (trace w ++ expiry_hook cfg ++ rest)%list /\
         existsb is_exec rest = false) /\
      (now <= t (srv w) ->
       srv w' = srv w /\
       exists rest,
         trace w' = (trace w ++ rest)%list /\ existsb is_exec rest = false).
Proof.
  intros env cfg w output P Vm Hs now.
  assert (V : valid (srv w)) by (split; [exact Vm | right; right; exact Hs]).
  destruct (outcome_ok env cfg _ _ P
              (RefreshStatus_outcome env cfg output w V))
    as (str & w' & E & H).
  exists str, w'. split; [exact E|]. split.
  - intros Ht.
    assert (D : due env w (nowCalls w) = true) by (apply due_true; auto).
    rewrite D in H. destruct H as (S1 & _ & H).
    destruct (expired_cases cfg (srv w) Vm) as (C1 & _ & _ & C2 & C3 & C4).
    rewrite S1. auto.
  - intros Ht.
    assert (D : due env w (nowCalls w) = false)
      by (apply due_false; right; exact Ht).
    rewrite D in H. destruct H as (S1 & _ & H). auto.
Qed.

Lemma RefreshStatus_expiry_witness :
  push_ok (frozen 1) default_config /\
  valid_mode (mode (srv (work_running 0))) /\
  state (srv (work_running 0)) = StateRunning /\
  exists str w',
    RefreshStatus (frozen 1) default_config false (work_running 0) =
    Ok (str, w') /\
    state (srv w') = StateStopped /\ mode (srv w') = ModeShortBreak /\
    count (srv w') = 1.
Proof.
  assert (Vm : valid_mode (mode (srv (work_running 0)))).
  { left; reflexivity. }
  split; [apply frozen_push_ok|]. split; [exact Vm|].
  split; [reflexivity|].
  destruct (RefreshStatus_expiry (frozen 1) default_config (work_running 0)
              false (frozen_push_ok _ _) Vm eq_refl)
    as (str & w' & E & H & _).
  destruct H as (S1 & [C M] & _); [reflexivity | reflexivity |].
  exists str, w'. split; [exact E|]. split; [exact S1|].
  split; [exact M | exact C].
Defined.

(** ** The push notifier *)

(** C9, as the specification has it, fails when the pair was the last one
    sent before the two invocations: a stopped timer sends the same text
    at every tick, and neither invocation makes a call. *)
Lemma one_call_counterexample :
  ~ stated_one_call hourly push_config "25:00" "cmVk" pushed.
Proof.
  intros (e1 & w1 & e2 & w2 & E1 & E2 & H).
  vm_compute in E1. inversion E1; subst. clear E1.
  vm_compute in E2. inversion E2; subst. clear E2.
  discriminate H.
Qed.

(** C9, amended.  Of two invocations of [doRequest] in a row with one
    pair, the second returns without sending, the last-sent pair being
    this pair; the first makes one outbound call when the pair differs
    from the pair sent last before it, and none otherwise.  So the two
    make at most one outbound call, and exactly one when the pair is a
    new one. *)
Theorem doRequest_dedup :
  forall env cfg (text icon : string) (w : World),
    url_Parse_ok env (URL cfg) = true ->
    let fresh :=
      negb (String.eqb text (lastText w) && String.eqb icon (lastIcon w)) in
    exists e1 w1,
      doRequest env cfg text icon w = Ok (e1, w1) /\
      doRequest env cfg text icon w1 = Ok (None, w1) /\
      lastText w1 = text /\ lastIcon w1 = icon /\
      getCalls w1 = (if fresh then S (getCalls w) else getCalls w) /\
      trace w1 =
      (trace w ++
       if fresh then [EvGet (URL cfg) (UUID cfg) text icon] else [])%list.
Proof.
  intros env cfg text icon w HU fresh.
  assert (R : forall w1, lastText w1 = text -> lastIcon w1 = icon ->
                         doRequest env cfg text icon w1 = Ok (None, w1)).
  { intros w1 H1 H2. unfold doRequest.
    rewrite H1, H2, !String.eqb_refl. reflexivity. }
  assert (F : exists e1 w1,
             doRequest env cfg text icon w = Ok (e1, w1) /\
             lastText w1 = text /\ lastIcon w1 = icon /\
             getCalls w1 = (if fresh then S (getCalls w) else getCalls w) /\
             trace w1 =
             (trace w ++
              if fresh then [EvGet (URL cfg) (UUID cfg) text icon]
              else [])%list).
  { unfold fresh, doRequest.
    destruct (String.eqb text (lastText w) && String.eqb icon (lastIcon w))
      eqn:EQ; simpl.
    - apply andb_true_iff in EQ. destruct EQ as [E1 E2].
      apply String.eqb_eq in E1, E2.
      exists None, w. repeat split; auto. now rewrite app_nil_r.
    - rewrite HU. simpl.
      destruct (httpGet env (getCalls w)) as [err|code status];
        [|destruct (negb (code =? 200))];
        eexists; eexists; repeat split. }
  destruct F as (e1 & w1 & E1 & L1 & L2 & G & T).
  exists e1, w1. split; [exact E1|]. split; [apply R; assumption|].
  repeat split; assumption.
Qed.

Lemma doRequest_dedup_witness :
  url_Parse_ok hourly (URL push_config) = true /\
  exists e1 w1,
    doRequest hourly push_config "24:59" "cmVk" pushed = Ok (e1, w1) /\
    doRequest hourly push_config "24:59" "cmVk" w1 = Ok (None, w1) /\
    getCalls w1 = S (getCalls pushed).
Proof.
  split; [reflexivity|].
  destruct (doRequest_dedup hourly push_config "24:59" "cmVk" pushed eq_refl)
    as (e1 & w1 & E1 & E2 & _ & _ & G & _).
  exists e1, w1. split; [exact E1|]. split; [exact E2 | exact G].
Defined.

(** ** Reachable worlds *)

(** C10.  In every world reachable from the server that [NewServer]
    makes, the mode is one of [work], [short-break], [long-break] and the
    state one of [[S]], [[P]], [[R]]; [Mode.Duration], [Mode.Sep],
    [Server.formatTimer] and [Server.nextMode] return there, and no call
    ends in [panic("unexpected")]. *)
Theorem reachable_never_unexpected :
  forall env cfg (w : World),
    reachable env cfg w ->
    valid_mode (mode (srv w)) /\ valid_state (state (srv w)) /\
    (exists dur, Mode_Duration cfg (mode (srv w)) = Ok dur) /\
    (exists sep, Mode_Sep cfg (mode (srv w)) = Ok sep) /\
    (exists str w', Server_formatTimer env cfg w = Ok (str, w')) /\
    (exists w', nextMode cfg w = Ok (tt, w')) /\
    (forall c, serve env cfg c w <> Panicked unexpected).
Proof.
  intros env cfg w R.
  pose proof (reachable_avoiding_valid env cfg _ w R) as V.
  split; [apply V|]. split; [apply V|].
  split; [eexists; apply Mode_Duration_spec, V|].
  split; [eexists; apply Mode_Sep_spec, V|].
  split; [eexists; eexists; apply Server_formatTimer_spec, V|].
  split; [eexists; apply nextMode_spec, V|].
  intros c. eapply outcome_expected. apply serve_outcome, V.
Qed.

Lemma reachable_never_unexpected_witness :
  reachable hourly default_config
    (world_after hourly default_config (round ++ [PostStart "POST"])) /\
  mode (srv (world_after hourly default_config
               (round ++ [PostStart "POST"]))) = ModeShortBreak /\
  forall c,
    serve hourly default_config c
      (world_after hourly default_config (round ++ [PostStart "POST"])) <>
    Panicked unexpected.
Proof.
  assert (R : reachable hourly default_config
                (world_after hourly default_config
                   (round ++ [PostStart "POST"]))).
  { apply (run_reachable hourly default_config _
             (round ++ [PostStart "POST"]) world0).
    - vm_compute. reflexivity.
    - apply avoiding_init. reflexivity.
    - vm_compute. reflexivity. }
  split; [exact R|]. split; [reflexivity|].
  apply (reachable_never_unexpected hourly default_config _ R).
Defined.

(** ** The count of completed intervals *)

Section Cycle.

Variable env : Env.
Variable cfg : Config.

(** A call is a manual change of mode, or finds the interval over, or
    leaves mode and count alone. *)
Lemma timer_after_kinds c w :
  valid (srv w) ->
  (manual_switch w c = true /\
   timer_after env cfg c w = manual_advance cfg (srv w)) \/
  (manual_switch w c = false /\ expires env w c = true /\
   timer_after env cfg c w = expired cfg (srv w)) \/
  (manual_switch w c = false /\ expires env w c = false /\
   mode (timer_after env cfg c w) = mode (srv w) /\
   count (timer_after env cfg c w) = count (srv w)).
Proof.
  intros [Vm Vs].
  assert (K : forall b : bool,
    false = true /\
    (if b then expired cfg (srv w) else srv w) = manual_advance cfg (srv w) \/
    false = false /\ b = true /\
    (if b then expired cfg (srv w) else srv w) = expired cfg (srv w) \/
    false = false /\ b = false /\
    mode (if b then expired cfg (srv w) else srv w) = mode (srv w) /\
    count (if b then expired cfg (srv w) else srv w) = count (srv w)).
  { intros [|]; [right; left | right; right]; repeat split. }
  destruct c as [m|m a|m|m|m|]; unfold timer_after, expires, manual_switch.
  - apply (K false).
  - destruct (String.eqb m "GET"); simpl; [apply K | apply (K false)].
  - destruct (String.eqb m "GET"); simpl; [apply K | apply (K false)].
  - (* start or pause *)
    destruct (String.eqb m "POST"); simpl; [|apply (K false)].
    unfold due.
    destruct Vs as [Hs|[Hs|Hs]]; rewrite Hs; simpl.
    + right; right; repeat split.
    + right; right; repeat split.
    + destruct (t (srv w) <? clock env (S (nowCalls w)));
        [right; left | right; right]; repeat split.
  - (* stop or switch *)
    destruct (String.eqb m "POST"); simpl; [|apply (K false)].
    destruct Vs as [Hs|[Hs|Hs]]; rewrite Hs; simpl.
    + left. split; reflexivity.
    + right; right; repeat split.
    + right; right; repeat split.
  - apply K.
Qed.

Lemma expired_cycle s :
  config_ok cfg -> cycle_inv cfg s ->
  cycle_inv cfg (expired cfg s) /\
  (mode s <> ModeLongBreak -> mode (expired cfg s) = ModeLongBreak ->
   count (expired cfg s) = N cfg /\ count s = N cfg - 1) /\
  (mode s = ModeLongBreak -> count (expired cfg s) = 0).
Proof.
  intros C I. unfold config_ok in C.
  assert (Vm : valid_mode (mode s)).
  { unfold valid_mode. destruct I as [[I _]|[[I|I] _]]; auto. }
  destruct (expired_cases cfg s Vm) as (_ & _ & _ & CW & CS & CL).
  unfold cycle_inv.
  destruct I as [[Hm Hc]|[[Hm|Hm] Hc]].
  - destruct (CL Hm) as [E1 E2]. rewrite E1, E2.
    split; [right; split; [left; reflexivity | lia]|].
    split; [intros H; contradiction | reflexivity].
  - destruct (CW Hm) as [E1 E2]. rewrite E1, E2.
    rewrite wrap_int_small by lia.
    destruct (Z.ltb_spec (count s + 1) (N cfg)).
    + split; [right; split; [right; reflexivity | lia]|].
      split; [discriminate | rewrite Hm; discriminate].
    + split; [left; split; [reflexivity | lia]|].
      split; [intros _ _; lia | rewrite Hm; discriminate].
  - destruct (CS Hm) as [E1 E2]. rewrite E1, E2.
    split; [right; split; [left; reflexivity | lia]|].
    split; [discriminate | rewrite Hm; discriminate].
Qed.

Lemma manual_advance_cycle s :
  cycle_inv cfg s -> mode s <> ModeLongBreak ->
  cycle_inv cfg (manual_advance cfg s) /\
  mode (manual_advance cfg s) <> ModeLongBreak.
Proof.
  intros [[Hm Hc]|[[Hm|Hm] Hc]] HL; [contradiction| |];
    unfold manual_advance, cycle_inv; rewrite Hm; simpl.
  - destruct (Z.ltb_spec (count s) (N cfg)); [|lia]. simpl.
    split; [right; split; [right; reflexivity | lia] | discriminate].
  - split; [right; split; [left; reflexivity | lia] | discriminate].
Qed.

Lemma long_break_switch_false c w :
  long_break_switch w c = false ->
  manual_switch w c = false \/ mode (srv w) <> ModeLongBreak.
Proof.
  unfold long_break_switch. intros H. apply andb_false_iff in H.
  destruct H as [H|H]; [left; exact H | right].
  now apply String.eqb_neq.
Qed.

(** What a call other than the manual change out of the long break does
    to the cycle. *)
Lemma timer_after_cycle c w :
  config_ok cfg -> valid (srv w) -> cycle_inv cfg (srv w) ->
  long_break_switch w c = false ->
  cycle_inv cfg (timer_after env cfg c w) /\
  (mode (srv w) <> ModeLongBreak ->
   mode (timer_after env cfg c w) = ModeLongBreak ->
   count (timer_after env cfg c w) = N cfg /\ count (srv w) = N cfg - 1) /\
  (mode (srv w) = ModeLongBreak ->
   mode (timer_after env cfg c w) <> ModeLongBreak ->
   count (timer_after env cfg c w) = 0).
Proof.
  intros C V I B.
  destruct (timer_after_kinds c w V)
    as [[M E]|[(M & X & E)|(M & X & E1 & E2)]].
  - destruct (long_break_switch_false c w B) as [H|H]; [congruence|].
    destruct (manual_advance_cycle (srv w) I H) as [I' L'].
    rewrite E. split; [exact I'|]. split; [contradiction|].
    intros; contradiction.
  - rewrite E. destruct (expired_cycle (srv w) C I) as (I' & A1 & A2).
    split; [exact I'|]. split; [exact A1 | intros H _; apply A2, H].
  - unfold cycle_inv. rewrite E1, E2.
    split; [exact I|]. split; intros; contradiction.
Qed.

Lemma reachable_cycle_inv w :
  config_ok cfg ->
  reachable_avoiding env cfg long_break_switch w -> cycle_inv cfg (srv w).
Proof.
  intros C. induction 1 as [w E | w c r w' R IH B E].
  - rewrite E. right. unfold config_ok in C. simpl.
    split; [left; reflexivity | lia].
  - pose proof (reachable_avoiding_valid env cfg _ w R) as V.
    destruct (outcome_inv env cfg _ _ _ _ (serve_outcome env cfg c w V) E)
      as [S1 _].
    rewrite S1. apply timer_after_cycle; assumption.
Qed.

End Cycle.

(** C2, as the specification has it, fails after the fourth pomodoro of
    the default configuration: the long break is entered with the count at
    [N = 4]; the count is reset when the long break is left, not when it
    is entered. *)
Lemma count_range_counterexample :
  reachable hourly default_config
    (world_after hourly default_config (rounds 7)) /\
  mode (srv (world_after hourly default_config (rounds 7))) =
  ModeLongBreak /\
  count (srv (world_after hourly default_config (rounds 7))) = 4 /\
  ~ stated_count_range default_config
      (world_after hourly default_config (rounds 7)).
Proof.
  split; [|split; [reflexivity | split; [reflexivity|]]].
  - apply (run_reachable hourly default_config _ (rounds 7) world0).
    + vm_compute. reflexivity.
    + apply avoiding_init. reflexivity.
    + vm_compute. reflexivity.
  - unfold stated_count_range. vm_compute. intros [_ H]. discriminate H.
Qed.

(** With the manual change of mode out of the long break, which keeps the
    count, the count goes beyond [N]: long break, short break, work, and
    the next work interval is the fifth of four. *)
Example count_beyond_N :
  reachable hourly default_config
    (world_after hourly default_config
       (rounds 7 ++ [PostStop "POST"; PostStop "POST"] ++ round)) /\
  count (srv (world_after hourly default_config
                (rounds 7 ++ [PostStop "POST"; PostStop "POST"] ++ round))) =
  5.
Proof.
  split; [|reflexivity].
  apply (run_reachable hourly default_config _
           (rounds 7 ++ [PostStop "POST"; PostStop "POST"] ++ round) world0).
  - vm_compute. reflexivity.
  - apply avoiding_init. reflexivity.
  - vm_compute. reflexivity.
Qed.

(** C2, amended.  In every world reachable from the initial timer by
    calls among which stop-or-switch is never applied to a stopped long
    break, the count lies in [[0, N]]: it is [N] in the long break and
    below [N] in work and in the short break.  At the moment the mode
    becomes the long break the count is [N]; it is set to [0] at the
    moment the long break is left. *)
Theorem count_cycle :
  forall env cfg (w : World),
    config_ok cfg ->
    reachable_avoiding env cfg long_break_switch w ->
    0 <= count (srv w) <= N cfg /\
    (mode (srv w) = ModeLongBreak -> count (srv w) = N cfg) /\
    (mode (srv w) <> ModeLongBreak -> count (srv w) < N cfg) /\
    (forall c r w',
        long_break_switch w c = false ->
        serve env cfg c w = Ok (r, w') ->
        (mode (srv w) <> ModeLongBreak -> mode (srv w') = ModeLongBreak ->
         count (srv w') = N cfg) /\
        (mode (srv w) = ModeLongBreak -> mode (srv w') <> ModeLongBreak ->
         count (srv w') = 0)).
Proof.
  intros env cfg w C R.
  pose proof (reachable_cycle_inv env cfg w C R) as I.
  pose proof (reachable_avoiding_valid env cfg _ w R) as V.
  unfold config_ok in C.
  split; [|split; [|split]].
  - destruct I as [[_ Hc]|[_ Hc]]; lia.
  - intros Hm. destruct I as [[_ Hc]|[[H|H] _]]; [exact Hc| |];
      rewrite H in Hm; discriminate Hm.
  - intros Hm. destruct I as [[H _]|[_ Hc]]; [contradiction | lia].
  - intros c r w' B E.
    destruct (outcome_inv env cfg _ _ _ _ (serve_outcome env cfg c w V) E)
      as [S1 _].
    destruct (timer_after_cycle env cfg c w C V I B) as (_ & A1 & A2).
    rewrite S1. split; [|exact A2].
    intros H1 H2. apply A1; assumption.
Qed.

Lemma count_cycle_witness :
  config_ok default_config /\
  reachable_avoiding hourly default_config long_break_switch
    (world_after hourly default_config (rounds 7)) /\
  0 <= count (srv (world_after hourly default_config (rounds 7))) <= 4.
Proof.
  assert (C : config_ok default_config) by (vm_compute; split; reflexivity).
  assert (R : reachable_avoiding hourly default_config long_break_switch
                (world_after hourly default_config (rounds 7))).
  { apply (run_reachable hourly default_config _ (rounds 7) world0).
    - vm_compute. reflexivity.
    - apply avoiding_init. reflexivity.
    - vm_compute. reflexivity. }
  split; [exact C|]. split; [exact R|].
  apply (count_cycle hourly default_config _ C R).
Defined.

(** ** Automatic expiry round the cycle *)

Section Phase.

Variable env : Env.
Variable cfg : Config.
Hypothesis cfg_ok : config_ok cfg.

Lemma phase_inv_expired n s :
  valid_mode (mode s) ->
  phase_inv cfg n s -> phase_inv cfg (n + 1) (expired cfg s).
Proof.
  intros Vm P. unfold config_ok in cfg_ok.
  destruct (expired_cases cfg s Vm) as (_ & _ & _ & CW & CS & CL).
  unfold phase_inv.
  destruct P as [(k & Hn & Hk & Hm & Hc)|[(k & Hn & Hk & Hk' & Hm & Hc)|
                 [(Hn & Hm & Hc)|[(Hn & Hm & Hc)|Hn]]]].
  - destruct (CW Hm) as [E1 E2]. rewrite E1, E2, Hc.
    rewrite wrap_int_small by lia.
    destruct (Z.ltb_spec (k + 1) (N cfg)).
    + right; left. exists k. repeat split; auto; lia.
    + right; right; left. repeat split; auto; lia.
  - destruct (CS Hm) as [E1 E2]. rewrite E1, E2, Hc.
    left. exists (k + 1). repeat split; auto; lia.
  - destruct (CL Hm) as [E1 E2]. rewrite E1, E2.
    right; right; right; left. repeat split; auto; lia.
  - right; right; right; right. lia.
  - right; right; right; right. lia.
Qed.

Lemma phase_inv_same n s s' :
  mode s' = mode s -> count s' = count s ->
  phase_inv cfg n s -> phase_inv cfg n s'.
Proof. unfold phase_inv. intros -> ->. auto. Qed.

Lemma auto_run_phase n w w' :
  auto_run env cfg n w w' -> valid (srv w) ->
  forall m, phase_inv cfg m (srv w) ->
            phase_inv cfg (m + Z.of_nat n) (srv w').
Proof.
  induction 1 as [w | n w c r w1 w2 B E R IH]; intros V m P.
  - now rewrite Z.add_0_r.
  - pose proof (serve_valid env cfg c w r w1 V E) as V1.
    destruct (outcome_inv env cfg _ _ _ _ (serve_outcome env cfg c w V) E)
      as [S1 _].
    destruct (timer_after_kinds env cfg c w V)
      as [[M _]|[(_ & X & T)|(_ & X & T1 & T2)]]; [congruence| |].
    + rewrite X.
      replace (m + Z.of_nat (S n)) with ((m + 1) + Z.of_nat n) by lia.
      apply IH; [exact V1|]. rewrite S1, T.
      apply phase_inv_expired; [apply V | exact P].
    + rewrite X. apply IH; [exact V1|].
      apply (phase_inv_same m (srv w)); [congruence | congruence | exact P].
Qed.

End Phase.

(** C3.  On a running timer whose deadline lies before the reading of the
    clock, passive refresh counts one interval more when work is left
    ([count++] on Go's [int], which is the count plus one below the
    largest [int]), keeps the count when the short break is left and
    sets it to zero when the long break is left.  Begun at work with no
    interval counted and without manual change of mode, work and short
    break take turns: after [n < 2N - 1] intervals have run out the count
    is the number of work intervals among them; the interval number
    [2N - 1], the [N]-th work interval, leads to the long break with the
    count at [N], and the interval after it leads to work with the count
    at zero. *)
Theorem expiry_counts_intervals :
  forall env cfg,
    push_ok env cfg -> config_ok cfg ->
    (forall (w : World) (output : bool),
        valid_mode (mode (srv w)) -> state (srv w) = StateRunning ->
        t (srv w) < clock env (nowCalls w) ->
        exists str w',
          RefreshStatus env cfg output w = Ok (str, w') /\
          (mode (srv w) = ModeWork ->
           count (srv w') = wrap_int (count (srv w) + 1) /\
           (- 2 ^ 63 <= count (srv w) < maxInt ->
            count (srv w') = count (srv w) + 1)) /\
          (mode (srv w) = ModeShortBreak ->
           count (srv w') = count (srv w)) /\
          (mode (srv w) = ModeLongBreak -> count (srv w') = 0)) /\
    (forall (n : nat) (w0 w1 : World),
        valid_state (state (srv w0)) ->
        mode (srv w0) = ModeWork -> count (srv w0) = 0 ->
        auto_run env cfg n w0 w1 ->
        (Z.of_nat n < 2 * N cfg - 1 ->
         (mode (srv w1) = ModeWork /\ 2 * count (srv w1) = Z.of_nat n) \/
         (mode (srv w1) = ModeShortBreak /\
          2 * count (srv w1) = Z.of_nat n + 1)) /\
        (Z.of_nat n = 2 * N cfg - 1 ->
         mode (srv w1) = ModeLongBreak /\ count (srv w1) = N cfg) /\
        (Z.of_nat n = 2 * N cfg ->
         mode (srv w1) = ModeWork /\ count (srv w1) = 0)).
Proof.
  intros env cfg P C. split.
  - intros w output Vm Hs Ht.
    assert (V : valid (srv w)) by (split; [exact Vm | right; right; exact Hs]).
    destruct (outcome_ok env cfg _ _ P
                (RefreshStatus_outcome env cfg output w V))
      as (str & w' & E & H).
    assert (D : due env w (nowCalls w) = true) by (apply due_true; auto).
    rewrite D in H. destruct H as (S1 & _).
    destruct (expired_cases cfg (srv w) Vm) as (_ & _ & _ & CW & CS & CL).
    exists str, w'. split; [exact E|]. rewrite S1.
    split; [|split].
    + intros Hm. destruct (CW Hm) as [E1 _]. split; [exact E1|].
      intros Hr. rewrite E1. apply wrap_int_small.
      unfold maxInt in Hr. lia.
    + intros Hm. apply (CS Hm).
    + intros Hm. apply (CL Hm).
  - intros n w0 w1 Vs Hm Hc R.
    assert (V : valid (srv w0)) by (split; [left; exact Hm | exact Vs]).
    assert (P0 : phase_inv cfg 0 (srv w0)).
    { left. exists 0. unfold config_ok in C. repeat split; auto; lia. }
    pose proof (auto_run_phase env cfg C n w0 w1 R V 0 P0) as P1.
    simpl in P1. unfold config_ok in C.
    destruct P1 as [(k & Hn & Hk & Hm1 & Hc1)|[(k & Hn & Hk & Hk' & Hm1 & Hc1)|
                    [(Hn & Hm1 & Hc1)|[(Hn & Hm1 & Hc1)|Hn]]]].
    + split; [intros _; left; split; [exact Hm1 | lia]|].
      split; intros; lia.
    + split; [intros _; right; split; [exact Hm1 | lia]|].
      split; intros; lia.
    + split; [intros; lia|]. split; [auto | intros; lia].
    + split; [intros; lia|]. split; [intros; lia | auto].
    + split; [intros; lia|]. split; intros; lia.
Qed.

Lemma expiry_counts_intervals_witness :
  push_ok hourly default_config /\ config_ok default_config /\
  (exists str w',
      RefreshStatus (frozen 1) default_config false (work_running 0) =
      Ok (str, w') /\ count (srv w') = 1) /\
  auto_run hourly default_config 7 world0
    (world_after hourly default_config (rounds 7)) /\
  mode (srv (world_after hourly default_config (rounds 7))) =
  ModeLongBreak /\
  count (srv (world_after hourly default_config (rounds 7))) = 4.
Proof.
  assert (C : config_ok default_config) by (vm_compute; split; reflexivity).
  assert (R : auto_run hourly default_config 7 world0
                (world_after hourly default_config (rounds 7))).
  { apply (run_auto_run hourly default_config (rounds 7) world0).
    - vm_compute. reflexivity.
    - vm_compute. reflexivity. }
  split; [apply hourly_push_ok|]. split; [exact C|].
  split.
  - destruct (expiry_counts_intervals (frozen 1) default_config
                (frozen_push_ok _ _) C) as [H _].
    destruct (H (work_running 0) false) as (str & w' & E & HW & _);
      [left; reflexivity | reflexivity | reflexivity |].
    exists str, w'. split; [exact E|].
    destruct (HW eq_refl) as [_ H1]. apply H1.
    vm_compute. split; [discriminate | reflexivity].
  - split; [exact R|].
    destruct (expiry_counts_intervals hourly default_config
                (hourly_push_ok _) C) as [_ H].
    destruct (H 7%nat world0 _ (or_introl eq_refl) eq_refl eq_refl R)
      as (_ & H7 & _).
    apply H7. reflexivity.
Defined.

(** ** Pause and resume *)

Section Pause.

Variable env : Env.
Variable cfg : Config.

Lemma query_step c w r w' :
  is_query c = true -> valid (srv w) -> serve env cfg c w = Ok (r, w') ->
  (nowCalls w <= nowCalls w')%nat /\
  (srv w' = srv w \/
   (state (srv w) = StateRunning /\ state (srv w') = StateStopped)).
Proof.
  intros Q V E.
  destruct (outcome_inv env cfg _ _ _ _ (serve_outcome env cfg c w V) E)
    as [S1 N1].
  split; [exact N1|]. rewrite S1.
  destruct (expired_valid cfg (srv w) (proj1 V)) as [_ SE].
  assert (K : forall b k, b && due env w k = true \/
                          b && due env w k = false).
  { intros b k. destruct (b && due env w k); auto. }
  assert (D : forall b k, b && due env w k = true ->
                          state (srv w) = StateRunning).
  { intros b k H. apply andb_true_iff in H. destruct H as [_ H].
    now apply due_true in H. }
  destruct c as [m|m a|m|m|m|]; try discriminate Q; simpl.
  - left; reflexivity.
  - destruct (K (String.eqb m "GET") (nowCalls w)) as [H|H]; rewrite H;
      [right; split; [eapply D; exact H | exact SE] | left; reflexivity].
  - destruct (K (String.eqb m "GET") (nowCalls w)) as [H|H]; rewrite H;
      [right; split; [eapply D; exact H | exact SE] | left; reflexivity].
  - destruct (K true (nowCalls w)) as [H|H]; simpl in H; rewrite H;
      [right; split; [apply (D true (nowCalls w)); exact H | exact SE]
      | left; reflexivity].
Qed.

Lemma queries_frame qs w w' :
  forallb is_query qs = true -> valid (srv w) ->
  run env cfg qs w = Ok w' ->
  (nowCalls w <= nowCalls w')%nat /\
  (srv w' = srv w \/
   (state (srv w) = StateRunning /\ state (srv w') = StateStopped)).
Proof.
  revert w. induction qs as [|c qs IH]; intros w Q V E; simpl in *.
  - inversion E; subst. split; [lia | left; reflexivity].
  - apply andb_true_iff in Q. destruct Q as [Qc Q].
    destruct (serve env cfg c w) as [[r w1]|p] eqn:E1; [|discriminate].
    destruct (query_step c w r w1 Qc V E1) as [N1 H1].
    pose proof (serve_valid env cfg c w r w1 V E1) as V1.
    destruct (IH w1 Q V1 E) as [N2 H2].
    split; [lia|].
    destruct H1 as [H1|[H1 H1']], H2 as [H2|[H2 H2']].
    + left. congruence.
    + right. split; [congruence | exact H2'].
    + right. split; [exact H1 | congruence].
    + right. split; [exact H1 | exact H2'].
Qed.

(** Start-or-pause that ends paused has found the timer running, and has
    stored the deadline minus the first reading of the clock. *)
Lemma ActionStart_paused w r w' :
  valid (srv w) -> ActionStart env cfg "POST" w = Ok (r, w') ->
  state (srv w') = StatePaused ->
  state (srv w) = StateRunning /\
  d (srv w') = Time_Sub (t (srv w)) (clock env (nowCalls w)).
Proof.
  intros V E HP.
  destruct (outcome_inv env cfg _ _ _ _
              (ActionStart_outcome env cfg "POST" w V) E) as [S1 _].
  destruct (expired_valid cfg (srv w) (proj1 V)) as [_ SE].
  rewrite S1 in HP |- *. clear S1. unfold timer_after in *. simpl in *.
  destruct V as [_ [Hs|[Hs|Hs]]]; rewrite Hs in *; simpl in *;
    try discriminate HP.
  destruct (due env w (S (nowCalls w))).
  - rewrite SE in HP. discriminate HP.
  - simpl. split; reflexivity.
Qed.

End Pause.

(** C7.  A running timer is paused, resumed and paused once more by
    start-or-pause, status queries and ticks coming in between as they
    may: under a clock that does not go back, the remaining duration
    stored at the second pause is at most the one stored at the first. *)
Theorem pause_resume_pause :
  forall env cfg (w0 w1 w2 w3 : World) (qs1 qs2 : list Call),
    monotone_clock env ->
    valid_mode (mode (srv w0)) -> state (srv w0) = StateRunning ->
    run env cfg [PostStart "POST"] w0 = Ok w1 ->
    state (srv w1) = StatePaused ->
    forallb is_query qs1 = true ->
    run env cfg (qs1 ++ [PostStart "POST"]) w1 = Ok w2 ->
    forallb is_query qs2 = true ->
    run env cfg (qs2 ++ [PostStart "POST"]) w2 = Ok w3 ->
    state (srv w3) = StatePaused ->
    state (srv w2) = StateRunning /\ d (srv w3) <= d (srv w1).
Proof.
  intros env cfg w0 w1 w2 w3 qs1 qs2 Mono Vm Hs0 E1 Hs1 Q1 E2 Q2 E3 Hs3.
  assert (V0 : valid (srv w0)) by (split; [exact Vm | right; right; exact Hs0]).
  (* the first pause *)
  destruct (run_single env cfg _ w0 w1 E1) as [r1 F1].
  pose proof (serve_valid env cfg _ w0 r1 w1 V0 F1) as V1.
  destruct (serve_PostStart env cfg _ w0 r1 w1 F1) as [a1 A1].
  destruct (ActionStart_paused env cfg w0 a1 w1 V0 A1 Hs1) as [_ D1].
  pose proof (Time_Sub_range (t (srv w0)) (clock env (nowCalls w0))) as RD.
  rewrite <- D1 in RD.
  (* the resumption *)
  rewrite run_app in E2.
  destruct (run env cfg qs1 w1) as [v1|p] eqn:R1; [|discriminate].
  pose proof (run_valid env cfg qs1 w1 v1 R1 V1) as V1'.
  assert (S1' : srv v1 = srv w1).
  { destruct (queries_frame env cfg qs1 w1 v1 Q1 V1 R1) as [_ [H|[H _]]];
      [exact H | rewrite Hs1 in H; discriminate H]. }
  destruct (run_single env cfg _ v1 w2 E2) as [r2 F2].
  pose proof (serve_valid env cfg _ v1 r2 w2 V1' F2) as V2.
  destruct (outcome_inv env cfg _ _ _ _
              (serve_outcome env cfg (PostStart "POST") v1 V1') F2)
    as [S2 N2].
  unfold timer_after in S2. simpl in S2.
  rewrite S1', Hs1 in S2. simpl in S2.
  assert (Hs2 : state (srv w2) = StateRunning) by now rewrite S2.
  split; [exact Hs2|].
  (* the second pause *)
  rewrite run_app in E3.
  destruct (run env cfg qs2 w2) as [v2|p] eqn:R2; [|discriminate].
  destruct (queries_frame env cfg qs2 w2 v2 Q2 V2 R2) as [N3 H3].
  pose proof (run_valid env cfg qs2 w2 v2 R2 V2) as V2'.
  destruct (run_single env cfg _ v2 w3 E3) as [r3 F3].
  destruct (serve_PostStart env cfg _ v2 r3 w3 F3) as [a3 A3].
  destruct (ActionStart_paused env cfg v2 a3 w3 V2' A3 Hs3) as [Hr D3].
  destruct H3 as [H3|[_ H3]]; [|rewrite Hr in H3; discriminate H3].
  rewrite D3, H3, S2. simpl.
  unfold Time_Add.
  assert (C : clock env (nowCalls v1) <= clock env (nowCalls v2)).
  { apply Mono. lia. }
  unfold Time_Sub in *. unfold minDuration, maxDuration in *.
  destruct (Z.ltb_spec
              (clock env (nowCalls v1) + d (srv w1) - clock env (nowCalls v2))
              (- 2 ^ 63)); [lia|].
  destruct (Z.ltb_spec (2 ^ 63 - 1)
              (clock env (nowCalls v1) + d (srv w1) -
               clock env (nowCalls v2))); lia.
Qed.

Lemma ticking_monotone : monotone_clock ticking.
Proof.
  intros i j H. simpl. unfold Second. lia.
Qed.

Lemma pause_resume_pause_witness :
  monotone_clock ticking /\
  state (srv started) = StateRunning /\
  state (srv paused_once) = StatePaused /\
  state (srv resumed) = StateRunning /\
  state (srv paused_twice) = StatePaused /\
  d (srv paused_twice) <= d (srv paused_once).
Proof.
  split; [exact ticking_monotone|].
  split; [reflexivity|]. split; [reflexivity|].
  assert (H : state (srv resumed) = StateRunning /\
              d (srv paused_twice) <= d (srv paused_once)).
  { apply (pause_resume_pause ticking default_config
             started paused_once resumed paused_twice
             [Tick; GetTime "GET"] [GetStatus "GET" ""]).
    - exact ticking_monotone.
    - left. reflexivity.
    - reflexivity.
    - vm_compute. reflexivity.
    - reflexivity.
    - reflexivity.
    - vm_compute. reflexivity.
    - reflexivity.
    - vm_compute. reflexivity.
    - reflexivity. }
  split; [apply H|]. split; [reflexivity | apply H].
Defined.

(** * The rest of the program: properties *)

(** ** What the operations write and send *)

Section Effects.

Variable env : Env.
Variable cfg : Config.

Lemma doRequest_effects text icon w :
  URL cfg <> "" ->
  outcome env cfg (doRequest env cfg text icon w)
    (fun _ w' =>
       srv w' = srv w /\ nowCalls w' = nowCalls w /\
       lastText w' = text /\ lastIcon w' = icon /\
       exists gets, trace w' = (trace w ++ gets)%list /\
                    execs gets = O /\ logs gets = O).
Proof.
  intros HU. unfold doRequest.
  destruct (String.eqb text (lastText w) && String.eqb icon (lastIcon w))
    eqn:EQ.
  { apply andb_true_iff in EQ. destruct EQ as [E1 E2].
    apply String.eqb_eq in E1, E2. simpl.
    repeat split; auto. exists []. now rewrite app_nil_r. }
  destruct (url_Parse_ok env (URL cfg)) eqn:EU; simpl.
  2:{ split; [reflexivity|]. intros [H|H]; congruence. }
  destruct (httpGet env (getCalls w)) as [err|code status]; simpl;
    [|destruct (code =? 200); simpl];
    repeat split; eexists; repeat split.
Qed.

Lemma outputStatus_effects output w :
  valid (srv w) ->
  outcome env cfg (outputStatus env cfg output w)
    (fun str w' =>
       srv w' = srv w /\ (nowCalls w <= nowCalls w')%nat /\
       exists line gets,
         trace w' =
         (trace w ++ (if output then [EvLog line] else []) ++ gets)%list /\
         execs gets = O /\ logs gets = O /\
         (URL cfg <> "" ->
          lastText w' = str /\ lastIcon w' = icon_for cfg (mode (srv w))) /\
         (URL cfg = "" ->
          lastText w' = lastText w /\ lastIcon w' = lastIcon w /\
          gets = [])).
Proof.
  intros V. unfold outputStatus.
  apply outcome_bind.
  assert (H1 : outcome env cfg
            ((if output
              then line <- formatStatus env cfg ;; emit (EvLog line)
              else ret tt) w)
            (fun _ w1 =>
               srv w1 = srv w /\ (nowCalls w <= nowCalls w1)%nat /\
               lastText w1 = lastText w /\ lastIcon w1 = lastIcon w /\
               exists line,
                 trace w1 =
                 (trace w ++ if output then [EvLog line] else [])%list)).
  { destruct output.
    - destruct (formatStatus_spec env cfg w V) as [line E].
      unfold bind. rewrite E. simpl.
      destruct (String.eqb (state (srv w)) StateRunning); simpl;
        repeat split; try lia; now exists line.
    - unfold ret. simpl.
      split; [reflexivity|]. split; [lia|].
      split; [reflexivity|]. split; [reflexivity|].
      exists "". now rewrite app_nil_r. }
  eapply outcome_weaken; [exact H1|]. clear H1.
  intros u1 w1 (S1 & N1 & L1 & I1 & line & T1).
  assert (V1 : valid (srv w1)) by now rewrite S1.
  apply outcome_bind. rewrite Server_formatTimer_spec by assumption. simpl.
  set (str := formatTimer
                (displayed_duration cfg (srv w1) (clock env (nowCalls w1)))
                (separator cfg (mode (srv w1)))).
  set (w2 := if String.eqb (state (srv w1)) StateRunning
             then clock_read w1 else w1).
  assert (W2 : srv w2 = srv w1 /\ (nowCalls w1 <= nowCalls w2)%nat /\
               lastText w2 = lastText w1 /\ lastIcon w2 = lastIcon w1 /\
               trace w2 = trace w1).
  { unfold w2. destruct (String.eqb (state (srv w1)) StateRunning); simpl;
      repeat split; lia. }
  destruct W2 as (S2 & N2 & L2 & I2 & T2).
  apply outcome_bind.
  destruct (String.eqb (URL cfg) "") eqn:EU; simpl.
  - apply String.eqb_eq in EU.
    split; [congruence|]. split; [lia|].
    exists line, []. rewrite app_nil_r.
    split; [congruence|]. split; [reflexivity|]. split; [reflexivity|].
    split; [intros H; contradiction|].
    intros _. split; [congruence|]. split; [congruence | reflexivity].
  - apply String.eqb_neq in EU.
    apply outcome_bind. unfold getServer. simpl.
    apply outcome_bind.
    eapply outcome_weaken; [apply doRequest_effects; exact EU|].
    intros e w3 (S3 & N3 & L3 & I3 & gets & T3 & X3 & G3). simpl.
    split; [congruence|]. split; [lia|].
    exists line, gets.
    split; [rewrite T3, T2, T1; now rewrite <- app_assoc|].
    split; [exact X3|]. split; [exact G3|].
    split; [|intros H; contradiction].
    intros _. split; [exact L3|].
    rewrite I3. unfold icon_for. now rewrite S2, S1.
Qed.

(** Passive refresh to the letter: the timer, the trace and the pair last
    handed to the push endpoint. *)
Lemma RefreshStatus_effects output w :
  valid (srv w) ->
  outcome env cfg (RefreshStatus env cfg output w)
    (fun str w' =>
       srv w' = (if due env w (nowCalls w)
                 then expired cfg (srv w) else srv w) /\
       (nowCalls w <= nowCalls w')%nat /\
       exists line gets,
         trace w' =
         (trace w ++
          (if due env w (nowCalls w) then expiry_hook cfg else []) ++
          (if due env w (nowCalls w) || output then [EvLog line] else []) ++
          gets)%list /\
         execs gets = O /\ logs gets = O /\
         (URL cfg <> "" ->
          lastText w' = str /\ lastIcon w' = icon_for cfg (mode (srv w'))) /\
         (URL cfg = "" ->
          lastText w' = lastText w /\ lastIcon w' = lastIcon w)).
Proof.
  intros V. unfold RefreshStatus, due.
  cbv [bind getServer].
  destruct (String.eqb (state (srv w)) StateRunning) eqn:ES; simpl.
  2:{ eapply outcome_weaken; [apply outputStatus_effects, V|].
      intros str w' (S1 & N1 & line & gets & T1 & X1 & G1 & U1 & U2).
      simpl. split; [exact S1|]. split; [exact N1|].
      exists line, gets. split; [exact T1|].
      split; [exact X1|]. split; [exact G1|].
      split; [rewrite S1; exact U1 | intros H; destruct (U2 H) as (A & B & _); split; assumption]. }
  unfold Time_After.
  destruct (t (srv w) <? clock env (nowCalls w)) eqn:ET; simpl.
  2:{ eapply outcome_weaken; [apply outputStatus_effects; exact V|].
      intros str w' (S1 & N1 & line & gets & T1 & X1 & G1 & U1 & U2).
      simpl in *. split; [exact S1|]. split; [lia|].
      exists line, gets. split; [exact T1|].
      split; [exact X1|]. split; [exact G1|].
      split; [rewrite S1; exact U1 | intros H; destruct (U2 H) as (A & B & _); split; assumption]. }
  rewrite nextMode_spec by (simpl; apply V). simpl.
  fold (expired cfg (srv w)).
  destruct (expired_valid cfg (srv w) (proj1 V)) as [VE _].
  unfold executeCommand, expiry_hook.
  destruct (String.eqb (Command cfg) ""); simpl.
  - eapply outcome_weaken; [apply outputStatus_effects; simpl; exact VE|].
    intros str w' (S1 & N1 & line & gets & T1 & X1 & G1 & U1 & U2).
    simpl in *. split; [exact S1|]. split; [lia|].
    exists line, gets. split; [exact T1|].
    split; [exact X1|]. split; [exact G1|].
    split; [rewrite S1; exact U1 | intros H; destruct (U2 H) as (A & B & _); split; assumption].
  - eapply outcome_weaken; [apply outputStatus_effects; simpl; exact VE|].
    intros str w' (S1 & N1 & line & gets & T1 & X1 & G1 & U1 & U2).
    simpl in *. split; [exact S1|]. split; [lia|].
    exists line, gets. split; [rewrite T1; now rewrite <- app_assoc|].
    split; [exact X1|]. split; [exact G1|].
    split; [rewrite S1; exact U1 | intros H; destruct (U2 H) as (A & B & _); split; assumption].
Qed.

End Effects.

Section Commands.

Variable env : Env.
Variable cfg : Config.

Lemma execs_app (a b : list Event) : execs (a ++ b) = (execs a + execs b)%nat.
Proof. unfold execs. now rewrite filter_app, length_app. Qed.

Lemma filter_exec_none (es : list Event) :
  execs es = O -> filter is_exec es = [].
Proof. unfold execs. intros H. now apply length_zero_iff_nil. Qed.

Lemma expiry_hook_exec : filter is_exec (expiry_hook cfg) = expiry_hook cfg.
Proof. unfold expiry_hook. destruct (String.eqb (Command cfg) ""); reflexivity. Qed.

Lemma start_hook_exec : filter is_exec (start_hook cfg) = start_hook cfg.
Proof.
  unfold start_hook. destruct (String.eqb (CommandOnStart cfg) ""); reflexivity.
Qed.

Lemma executeCommandOnStart_trace w :
  executeCommandOnStart cfg w = Ok (tt, with_trace w (start_hook cfg)) \/
  (start_hook cfg = [] /\ executeCommandOnStart cfg w = Ok (tt, w)).
Proof.
  unfold executeCommandOnStart, start_hook.
  destruct (String.eqb (CommandOnStart cfg) ""); [right | left]; auto.
Qed.

Lemma Server_formatTimer_trace w :
  valid (srv w) ->
  exists str w',
    Server_formatTimer env cfg w = Ok (str, w') /\
    srv w' = srv w /\ trace w' = trace w /\
    lastText w' = lastText w /\ lastIcon w' = lastIcon w /\
    getCalls w' = getCalls w.
Proof.
  intros V. rewrite Server_formatTimer_spec by assumption.
  eexists. eexists. split; [reflexivity|].
  destruct (String.eqb (state (srv w)) StateRunning); repeat split.
Qed.

(** The commands of a refresh at the world [w]. *)
Lemma RefreshStatus_commands output w :
  valid (srv w) ->
  outcome env cfg (RefreshStatus env cfg output w)
    (fun _ w' =>
       srv w' = (if due env w (nowCalls w)
                 then expired cfg (srv w) else srv w) /\
       exists rest,
         trace w' = (trace w ++ rest)%list /\
         filter is_exec rest =
         if due env w (nowCalls w) then expiry_hook cfg else []).
Proof.
  intros V. eapply outcome_weaken; [apply RefreshStatus_effects, V|].
  intros str w' (S1 & _ & line & gets & T1 & X1 & _). simpl.
  split; [exact S1|]. eexists. split; [exact T1|].
  rewrite !filter_app, (filter_exec_none gets X1), app_nil_r.
  destruct (due env w (nowCalls w)); simpl.
  - now rewrite expiry_hook_exec, app_nil_r.
  - destruct output; reflexivity.
Qed.

Lemma ActionStart_commands method w :
  valid (srv w) ->
  outcome env cfg (ActionStart env cfg method w)
    (fun _ w' =>
       exists rest,
         trace w' = (trace w ++ rest)%list /\
         filter is_exec rest = hooks_of env cfg w (PostStart method)).
Proof.
  intros V. unfold ActionStart, hooks_of.
  destruct (String.eqb method "POST"); simpl.
  2:{ exists []. now rewrite app_nil_r. }
  apply outcome_bind. unfold timeNow. simpl.
  apply outcome_bind. unfold getServer. simpl.
  assert (F : forall w1 : World,
    valid (srv w1) ->
    outcome env cfg
      match Server_formatTimer env cfg w1 with
      | Ok (a, w') => ret (Text a) w'
      | Panicked p => Panicked p
      end
      (fun _ w' => trace w' = trace w1)).
  { intros w1 V1.
    destruct (Server_formatTimer_trace w1 V1) as (str & w' & E & _ & T & _).
    rewrite E. exact T. }
  destruct V as [Vm [Hs|[Hs|Hs]]].
  - (* stopped *)
    rewrite Hs. simpl. apply outcome_bind. apply outcome_bind.
    rewrite Mode_Duration_spec by assumption. simpl.
    cbv [bind modifyServer].
    match goal with |- context [executeCommandOnStart cfg ?x] =>
      destruct (executeCommandOnStart_trace x) as [E1|[E0 E1]]; rewrite E1
    end; simpl.
    + eapply outcome_weaken.
      * apply F. simpl. split; [exact Vm | right; right; reflexivity].
      * intros r w' T. simpl in *. exists (start_hook cfg).
        split; [exact T | apply start_hook_exec].
    + eapply outcome_weaken.
      * apply F. simpl. split; [exact Vm | right; right; reflexivity].
      * intros r w' T. simpl in *. exists []. rewrite app_nil_r.
        split; [exact T | now rewrite E0].
  - (* paused *)
    rewrite Hs. simpl. apply outcome_bind.
    cbv [bind modifyServer].
    match goal with |- context [executeCommandOnStart cfg ?x] =>
      destruct (executeCommandOnStart_trace x) as [E1|[E0 E1]]; rewrite E1
    end; simpl.
    + eapply outcome_weaken.
      * apply F. simpl. split; [exact Vm | right; right; reflexivity].
      * intros r w' T. simpl in *. exists (start_hook cfg).
        split; [exact T | apply start_hook_exec].
    + eapply outcome_weaken.
      * apply F. simpl. split; [exact Vm | right; right; reflexivity].
      * intros r w' T. simpl in *. exists []. rewrite app_nil_r.
        split; [exact T | now rewrite E0].
  - (* running *)
    rewrite Hs. simpl. apply outcome_bind. apply outcome_bind.
    eapply outcome_weaken.
    + apply (RefreshStatus_commands true (clock_read w)). simpl.
      split; [exact Vm | right; right; exact Hs].
    + intros str w1 (S1 & rest & T1 & X1). simpl in *.
      assert (V1 : valid (srv w1)).
      { rewrite S1. destruct (due env (clock_read w) (S (nowCalls w)));
          [apply expired_valid, Vm | split; [exact Vm | right; right; exact Hs]]. }
      cbv [bind]. simpl.
      assert (D : due env (clock_read w) (S (nowCalls w)) =
                  due env w (S (nowCalls w))) by reflexivity.
      rewrite D in *.
      destruct (String.eqb (state (srv w1)) StateRunning); simpl.
      * eapply outcome_weaken.
        -- apply F. simpl. split; [apply V1 | right; left; reflexivity].
        -- intros r w' T. simpl in *. exists rest.
           split; [congruence | exact X1].
      * eapply outcome_weaken.
        -- apply F. exact V1.
        -- intros r w' T. simpl in *. exists rest.
           split; [congruence | exact X1].
Qed.

Lemma ActionStop_commands method w :
  valid (srv w) ->
  outcome env cfg (ActionStop env cfg method w)
    (fun _ w' =>
       exists rest,
         trace w' = (trace w ++ rest)%list /\ filter is_exec rest = []).
Proof.
  intros V. unfold ActionStop.
  destruct (String.eqb method "POST"); simpl.
  2:{ exists []. now rewrite app_nil_r. }
  cbv [bind getServer].
  assert (R : forall s', valid s' -> state s' = StateStopped ->
    outcome env cfg
      match RefreshStatus env cfg true (with_srv s' w) with
      | Ok (a, w') => ret (Text a) w'
      | Panicked p => Panicked p
      end
      (fun _ w' => exists rest,
           trace w' = (trace w ++ rest)%list /\ filter is_exec rest = [])).
  { intros s' V' S'. apply (outcome_map _ _ _ Text).
    eapply outcome_weaken.
    - apply RefreshStatus_commands. exact V'.
    - intros str w'. unfold due. simpl. rewrite S'. simpl.
      intros (_ & rest & T & X). now exists rest. }
  destruct V as [Vm [Hs|[Hs|Hs]]]; rewrite Hs; simpl.
  - destruct (manual_advance_valid cfg (srv w)) as [VA SA].
    { split; [exact Vm | left; exact Hs]. }
    rewrite Hs in SA. specialize (R _ VA SA).
    unfold manual_advance in *.
    destruct Vm as [Hm|[Hm|Hm]]; rewrite Hm in *; simpl in *;
      try destruct (count (srv w) <? N cfg); exact R.
  - apply R; [split; [exact Vm | left; reflexivity] | reflexivity].
  - apply R; [split; [exact Vm | left; reflexivity] | reflexivity].
Qed.

Lemma query_commands c w :
  is_query c = true -> valid (srv w) ->
  outcome env cfg (serve env cfg c w)
    (fun _ w' =>
       exists rest,
         trace w' = (trace w ++ rest)%list /\
         filter is_exec rest =
         if expires env w c then expiry_hook cfg else []).
Proof.
  intros Q V.
  assert (R : forall A (f : string -> A) (b : bool),
    outcome env cfg
      match RefreshStatus env cfg b w with
      | Ok (a, w') => ret (f a) w'
      | Panicked p => Panicked p
      end
      (fun _ w' => exists rest,
           trace w' = (trace w ++ rest)%list /\
           filter is_exec rest =
           if due env w (nowCalls w) then expiry_hook cfg else [])).
  { intros A f b. apply (outcome_map _ _ _ f).
    eapply outcome_weaken; [apply RefreshStatus_commands, V|].
    intros str w' (_ & H). exact H. }
  destruct c as [m|m a|m|m|m|]; try discriminate Q; unfold serve, expires.
  - apply (outcome_map _ _ _ Some). unfold Index.
    destruct (negb (String.eqb m "GET")); simpl;
      exists []; now rewrite app_nil_r.
  - apply (outcome_map _ _ _ Some). unfold Status.
    destruct (String.eqb m "GET"); simpl.
    2:{ exists []. now rewrite app_nil_r. }
    apply outcome_bind. eapply outcome_weaken.
    { apply RefreshStatus_commands, V. }
    intros str w1 (S1 & rest & T1 & X1). simpl.
    destruct (String.eqb a "application/json"); simpl.
    2:{ now exists rest. }
    assert (V1 : valid (srv w1)).
    { rewrite S1. destruct (due env w (nowCalls w)); [|exact V].
      apply expired_valid, V. }
    unfold formatStatusJSON. cbv [bind getServer].
    destruct (Server_formatTimer_trace w1 V1) as (str' & w' & E & _ & T & _).
    rewrite E. simpl. exists rest. split; [congruence | exact X1].
  - apply (outcome_map _ _ _ Some). unfold Server_Time.
    destruct (String.eqb m "GET"); simpl.
    2:{ exists []. now rewrite app_nil_r. }
    apply R.
  - apply (R _ (fun _ => None) false).
Qed.

Lemma serve_commands c w :
  valid (srv w) ->
  outcome env cfg (serve env cfg c w)
    (fun _ w' =>
       exists rest,
         trace w' = (trace w ++ rest)%list /\
         filter is_exec rest = hooks_of env cfg w c).
Proof.
  intros V.
  destruct c as [m|m a|m|m|m|];
    try (apply query_commands; [reflexivity | exact V]).
  - unfold serve. apply (outcome_map _ _ _ Some).
    apply ActionStart_commands, V.
  - unfold serve. apply (outcome_map _ _ _ Some).
    apply ActionStop_commands, V.
Qed.

End Commands.

(** X1.  The commands that a call hands to the shell are these and no
    others: the start command, when one is set, if start-or-pause starts
    or resumes the timer; the end command, when one is set, if the call
    finds the running interval over; none in every other case, so none
    when the timer is paused, stopped by hand or switched. *)
Theorem commands_of_a_call :
  forall env cfg (w : World) (c : Call) r w',
    valid (srv w) -> serve env cfg c w = Ok (r, w') ->
    exists rest,
      trace w' = (trace w ++ rest)%list /\
      filter is_exec rest = hooks_of env cfg w c /\
      (execs rest <= 1)%nat.
Proof.
  intros env cfg w c r w' V E.
  destruct (outcome_inv env cfg _ _ _ _ (serve_commands env cfg c w V) E)
    as (rest & T & X).
  exists rest. split; [exact T|]. split; [exact X|].
  unfold execs. rewrite X. unfold hooks_of, start_hook, expiry_hook.
  destruct c; simpl;
    repeat match goal with
           | |- context [if ?b then _ else _] => destruct b; simpl
           end; lia.
Qed.

Lemma valid_world0 : valid (srv world0).
Proof. apply NewServer_valid. Qed.

Lemma commands_of_a_call_witness :
  valid (srv world0) /\
  exists r w',
    serve hourly hook_config (PostStart "POST") world0 = Ok (r, w') /\
    filter is_exec (trace w') = [EvExec "say go" false].
Proof.
  split; [exact valid_world0|].
  destruct (serve hourly hook_config (PostStart "POST") world0)
    as [[r w']|p] eqn:E; [|vm_compute in E; discriminate E].
  exists r, w'. split; [reflexivity|].
  destruct (commands_of_a_call hourly hook_config world0 (PostStart "POST")
              r w' valid_world0 E) as (rest & T & X & _).
  rewrite T. exact X.
Defined.

(** ** Queries and ticks *)

Section Queries.

Variable env : Env.
Variable cfg : Config.

Lemma timer_after_query c w :
  is_query c = true ->
  timer_after env cfg c w =
  if expires env w c then expired cfg (srv w) else srv w.
Proof.
  destruct c as [m|m a|m|m|m|]; try discriminate; intros _; reflexivity.
Qed.

Lemma expires_running c w :
  expires env w c = true -> state (srv w) = StateRunning.
Proof.
  assert (D : forall b k, b && due env w k = true ->
                          state (srv w) = StateRunning).
  { intros b k H. apply andb_true_iff in H. destruct H as [_ H].
    now apply due_true in H. }
  destruct c as [m|m a|m|m|m|]; simpl; try discriminate; try apply D.
  apply (D true).
Qed.

Lemma queries_commands qs w w' :
  forallb is_query qs = true -> valid (srv w) ->
  run env cfg qs w = Ok w' ->
  exists rest,
    trace w' = (trace w ++ rest)%list /\
    ((srv w' = srv w /\ filter is_exec rest = []) \/
     (state (srv w) = StateRunning /\ srv w' = expired cfg (srv w) /\
      filter is_exec rest = expiry_hook cfg)).
Proof.
  revert w. induction qs as [|c qs IH]; intros w Q V E; simpl in *.
  - inversion E; subst. exists []. rewrite app_nil_r.
    split; [reflexivity|]. left. split; reflexivity.
  - apply andb_true_iff in Q. destruct Q as [Qc Q].
    destruct (serve env cfg c w) as [[r w1]|p] eqn:E1; [|discriminate].
    pose proof (serve_valid env cfg c w r w1 V E1) as V1.
    destruct (outcome_inv env cfg _ _ _ _ (serve_outcome env cfg c w V) E1)
      as [S1 _].
    destruct (outcome_inv env cfg _ _ _ _ (query_commands env cfg c w Qc V) E1)
      as (r1 & T1 & X1).
    rewrite timer_after_query in S1 by exact Qc.
    destruct (IH w1 Q V1 E) as (r2 & T2 & H2).
    exists (r1 ++ r2)%list.
    split; [rewrite T2, T1; now rewrite app_assoc|].
    rewrite filter_app, X1.
    destruct (expires env w c) eqn:X.
    + pose proof (expires_running c w X) as HR.
      destruct (expired_valid cfg (srv w) (proj1 V)) as [_ SE].
      right. split; [exact HR|].
      destruct H2 as [[S2 X2]|[S2 _]].
      * rewrite X2, app_nil_r. split; [congruence | reflexivity].
      * rewrite S1, SE in S2. discriminate S2.
    + destruct H2 as [[S2 X2]|(S2 & S2' & X2)].
      * left. rewrite X2. split; [congruence | reflexivity].
      * right. rewrite S1 in *. simpl. auto.
Qed.

End Queries.

(** X2.  While nothing but queries and ticks come in, an interval runs
    out at most once: afterwards the timer either is what it was, no
    command having run, or is the running timer expired once (stopped,
    mode advanced), the end command having run once and no other.  A
    timer that is stopped or paused stays what it is, however far the
    clock goes. *)
Theorem queries_expire_once :
  forall env cfg (qs : list Call) (w w' : World),
    valid (srv w) -> forallb is_query qs = true ->
    run env cfg qs w = Ok w' ->
    exists rest,
      trace w' = (trace w ++ rest)%list /\
      ((srv w' = srv w /\ filter is_exec rest = []) \/
       (state (srv w) = StateRunning /\ srv w' = expired cfg (srv w) /\
        state (srv w') = StateStopped /\
        filter is_exec rest = expiry_hook cfg)) /\
      (state (srv w) <> StateRunning ->
       srv w' = srv w /\ filter is_exec rest = []).
Proof.
  intros env cfg qs w w' V Q E.
  destruct (queries_commands env cfg qs w w' Q V E) as (rest & T & H).
  exists rest. split; [exact T|].
  destruct (expired_valid cfg (srv w) (proj1 V)) as [_ SE].
  split.
  - destruct H as [H|(H1 & H2 & H3)]; [left; exact H | right].
    repeat split; auto. now rewrite H2.
  - intros HR. destruct H as [H|(H1 & _)]; [exact H | contradiction].
Qed.

Lemma queries_expire_once_witness :
  valid (srv started) /\
  exists w',
    run ticking hook_config [Tick; GetTime "GET"; GetStatus "GET" ""] started =
    Ok w' /\
    srv w' = srv started.
Proof.
  assert (V : valid (srv started)).
  { split; [left; reflexivity | right; right; reflexivity]. }
  split; [exact V|].
  destruct (run ticking hook_config [Tick; GetTime "GET"; GetStatus "GET" ""]
              started) as [w'|p] eqn:E; [|vm_compute in E; discriminate E].
  exists w'. split; [reflexivity|].
  destruct (queries_expire_once ticking hook_config
              [Tick; GetTime "GET"; GetStatus "GET" ""] started w' V
              eq_refl E) as (rest & _ & [[H _]|(_ & H & _)] & _).
  - exact H.
  - vm_compute in E. inversion E; subst. discriminate H.
Defined.

(** ** What changes the fields of the timer *)

Lemma manual_advance_fields cfg s :
  count (manual_advance cfg s) = count s /\
  state (manual_advance cfg s) = state s /\
  t (manual_advance cfg s) = t s /\ d (manual_advance cfg s) = d s.
Proof.
  unfold manual_advance.
  destruct (String.eqb (mode s) ModeWork);
    [|destruct (String.eqb (mode s) ModeShortBreak)]; repeat split.
Qed.

Lemma manual_switch_not_expiry env w c :
  manual_switch w c = true -> expires env w c = false.
Proof. destruct c; simpl; try discriminate. reflexivity. Qed.

(** X3.  The count changes only when an interval runs out, and the mode
    changes only then or by stop-or-switch on a stopped timer: starting,
    pausing, resuming, stopping a running or paused timer and asking for
    the status leave both as they are.  A call that finds the interval
    over leaves the timer as automatic expiry makes it. *)
Theorem count_and_mode_change :
  forall env cfg (w : World) (c : Call) r w',
    valid (srv w) -> serve env cfg c w = Ok (r, w') ->
    (expires env w c = false -> count (srv w') = count (srv w)) /\
    (expires env w c = false -> manual_switch w c = false ->
     mode (srv w') = mode (srv w)) /\
    (expires env w c = true -> srv w' = expired cfg (srv w)).
Proof.
  intros env cfg w c r w' V E.
  destruct (outcome_inv env cfg _ _ _ _ (serve_outcome env cfg c w V) E)
    as [S1 _].
  rewrite S1.
  destruct (timer_after_kinds env cfg c w V)
    as [[M T]|[(M & X & T)|(M & X & T1 & T2)]].
  - pose proof (manual_switch_not_expiry env w c M) as X.
    rewrite T. split; [intros _; apply manual_advance_fields|].
    split; intros; congruence.
  - split; [intros; congruence|]. split; [intros; congruence|].
    intros _. exact T.
  - split; [intros _; exact T2|]. split; [intros _ _; exact T1|].
    intros; congruence.
Qed.

Lemma count_and_mode_change_witness :
  valid (srv started) /\
  exists r w',
    serve ticking default_config (PostStop "POST") started = Ok (r, w') /\
    count (srv w') = 0 /\ mode (srv w') = ModeWork.
Proof.
  assert (V : valid (srv started)).
  { split; [left; reflexivity | right; right; reflexivity]. }
  split; [exact V|].
  destruct (serve ticking default_config (PostStop "POST") started)
    as [[r w']|p] eqn:E; [|vm_compute in E; discriminate E].
  exists r, w'. split; [reflexivity|].
  destruct (count_and_mode_change ticking default_config started
              (PostStop "POST") r w' V E) as (C & M & _).
  split; [apply C; reflexivity | apply M; reflexivity].
Defined.

(** X4.  The deadline is set only by start-or-pause that starts or
    resumes the timer: to the reading of the clock plus the configured
    duration of the mode at a start, plus the remaining duration at a
    resumption.  The remaining duration is set only by start-or-pause
    that pauses the running timer: to the deadline minus the reading of
    the clock.  No other call, and no expiry, touches either. *)
Theorem deadline_and_remaining_change :
  forall env cfg (w : World) (c : Call) r w',
    valid (srv w) -> serve env cfg c w = Ok (r, w') ->
    let now := clock env (nowCalls w) in
    (t (srv w') <> t (srv w) ->
     c = PostStart "POST" /\ state (srv w') = StateRunning /\
     ((state (srv w) = StateStopped /\
       t (srv w') = Time_Add now (configured cfg (mode (srv w)))) \/
      (state (srv w) = StatePaused /\
       t (srv w') = Time_Add now (d (srv w))))) /\
    (d (srv w') <> d (srv w) ->
     c = PostStart "POST" /\ state (srv w) = StateRunning /\
     state (srv w') = StatePaused /\
     d (srv w') = Time_Sub (t (srv w)) now).
Proof.
  intros env cfg w c r w' V E now.
  destruct (outcome_inv env cfg _ _ _ _ (serve_outcome env cfg c w V) E)
    as [S1 _].
  rewrite S1. clear S1 E.
  destruct (expired_cases cfg (srv w) (proj1 V)) as (_ & Et & Ed & _).
  destruct (manual_advance_fields cfg (srv w)) as (_ & _ & Mt & Md).
  assert (K : forall b : bool,
    (t (if b then expired cfg (srv w) else srv w) <> t (srv w) -> False) /\
    (d (if b then expired cfg (srv w) else srv w) <> d (srv w) -> False)).
  { intros [|]; split; intros H; apply H; auto. }
  destruct V as [Vm Vs].
  destruct c as [m|m a|m|m|m|]; unfold timer_after.
  - split; intros H; exfalso; apply H; reflexivity.
  - split; intros H; exfalso;
      [apply (proj1 (K _) H) | apply (proj2 (K _) H)].
  - split; intros H; exfalso;
      [apply (proj1 (K _) H) | apply (proj2 (K _) H)].
  - destruct (String.eqb m "POST") eqn:EM;
      [|split; intros H; exfalso; apply H; reflexivity].
    apply String.eqb_eq in EM. subst m.
    destruct Vs as [Hs|[Hs|Hs]]; rewrite Hs; simpl.
    + split; [intros _ | intros H; exfalso; apply H; reflexivity].
      split; [reflexivity|]. split; [reflexivity|]. left. split; reflexivity.
    + split; [intros _ | intros H; exfalso; apply H; reflexivity].
      split; [reflexivity|]. split; [reflexivity|]. right. split; reflexivity.
    + destruct (due env w (S (nowCalls w))).
      * split; intros H; exfalso; apply H; assumption.
      * split; [intros H; exfalso; apply H; reflexivity | intros _].
        repeat split.
  - destruct (String.eqb m "POST");
      [|split; intros H; exfalso; apply H; reflexivity].
    destruct (String.eqb (state (srv w)) StateStopped).
    + split; intros H; exfalso; apply H; assumption.
    + split; intros H; exfalso; apply H; reflexivity.
  - split; intros H; exfalso;
      [apply (proj1 (K _) H) | apply (proj2 (K _) H)].
Qed.

Lemma deadline_and_remaining_change_witness :
  valid (srv started) /\
  exists r w',
    serve ticking default_config (PostStart "POST") started = Ok (r, w') /\
    state (srv w') = StatePaused /\
    d (srv w') = 25 * Minute - 2 * Second.
Proof.
  assert (V : valid (srv started)).
  { split; [left; reflexivity | right; right; reflexivity]. }
  split; [exact V|].
  destruct (serve ticking default_config (PostStart "POST") started)
    as [[r w']|p] eqn:E; [|vm_compute in E; discriminate E].
  exists r, w'. split; [reflexivity|].
  destruct (deadline_and_remaining_change ticking default_config started
              (PostStart "POST") r w' V E) as (_ & D).
  destruct D as (_ & _ & P & D).
  - vm_compute in E. inversion E; subst. discriminate.
  - split; [exact P | exact D].
Defined.

(** ** Start, pause, resume and stop *)

Section Moves.

Variable env : Env.
Variable cfg : Config.

(** The seven things that a call can do to the timer. *)
Lemma timer_after_cases c w :
  valid (srv w) ->
  let s := srv w in
  let now := clock env (nowCalls w) in
  timer_after env cfg c w = s \/
  (state s = StateRunning /\ timer_after env cfg c w = expired cfg s) \/
  (state s = StateStopped /\ c = PostStop "POST" /\
   timer_after env cfg c w = manual_advance cfg s) \/
  (state s <> StateStopped /\ c = PostStop "POST" /\
   timer_after env cfg c w = set_state StateStopped s) \/
  (state s = StateStopped /\ c = PostStart "POST" /\
   timer_after env cfg c w =
   set_state StateRunning (set_t (Time_Add now (configured cfg (mode s))) s)) \/
  (state s = StatePaused /\ c = PostStart "POST" /\
   timer_after env cfg c w =
   set_state StateRunning (set_t (Time_Add now (d s)) s)) \/
  (state s = StateRunning /\ c = PostStart "POST" /\
   due env w (S (nowCalls w)) = false /\
   timer_after env cfg c w =
   set_state StatePaused (set_d (Time_Sub (t s) now) s)).
Proof.
  intros [Vm Vs] s now. subst s now.
  assert (K : forall b k,
    (if b && due env w k then expired cfg (srv w) else srv w) = srv w \/
    (state (srv w) = StateRunning /\
     (if b && due env w k then expired cfg (srv w) else srv w) =
     expired cfg (srv w))).
  { intros b k. destruct (b && due env w k) eqn:H; [right | left; reflexivity].
    apply andb_true_iff in H. destruct H as [_ H]. apply due_true in H.
    split; [apply H | reflexivity]. }
  destruct c as [m|m a|m|m|m|]; unfold timer_after.
  - left; reflexivity.
  - destruct (K (String.eqb m "GET") (nowCalls w)) as [H|H]; auto.
  - destruct (K (String.eqb m "GET") (nowCalls w)) as [H|H]; auto.
  - destruct (String.eqb m "POST") eqn:EM; [|left; reflexivity].
    apply String.eqb_eq in EM. subst m.
    destruct Vs as [Hs|[Hs|Hs]]; rewrite Hs; simpl.
    + do 4 right. left. auto.
    + do 5 right. left. auto.
    + destruct (due env w (S (nowCalls w))) eqn:D.
      * right. left. auto.
      * do 6 right. auto.
  - destruct (String.eqb m "POST") eqn:EM; [|left; reflexivity].
    apply String.eqb_eq in EM. subst m.
    destruct Vs as [Hs|[Hs|Hs]]; rewrite Hs; simpl.
    + do 2 right. left. auto.
    + do 3 right. left. repeat split; auto. discriminate.
    + do 3 right. left. repeat split; auto. discriminate.
  - destruct (K true (nowCalls w)) as [H|H]; auto.
Qed.

Lemma within_interval_step c w r w' :
  monotone_clock env -> valid (srv w) ->
  serve env cfg c w = Ok (r, w') ->
  within_interval env cfg w -> within_interval env cfg w'.
Proof.
  intros Mono V E [IR IP].
  destruct (outcome_inv env cfg _ _ _ _ (serve_outcome env cfg c w V) E)
    as [S1 N1].
  destruct (expired_valid cfg (srv w) (proj1 V)) as [_ SE].
  destruct (manual_advance_fields cfg (srv w)) as (_ & SM & _).
  unfold within_interval. rewrite S1.
  destruct (timer_after_cases c w V)
    as [T|[[Hs T]|[(Hs & _ & T)|[(Hs & _ & T)|[(Hs & _ & T)|
        [(Hs & _ & T)|(Hs & _ & D & T)]]]]]]; rewrite T; simpl.
  - split; [|exact IP].
    intros H. destruct (IR H) as (k & Hk & Ht). exists k. split; [lia | exact Ht].
  - rewrite SE. split; discriminate.
  - rewrite SM, Hs. split; discriminate.
  - split; discriminate.
  - split; [intros _ | discriminate].
    exists (nowCalls w). split; [exact N1 | unfold Time_Add; lia].
  - split; [intros _ | discriminate].
    exists (nowCalls w). split; [exact N1|].
    unfold Time_Add. specialize (IP Hs). lia.
  - split; [discriminate | intros _].
    destruct (IR Hs) as (k & Hk & Ht).
    apply due_false in D. destruct D as [D|D]; [contradiction|].
    pose proof (Mono k (nowCalls w) Hk) as M1.
    pose proof (Mono (nowCalls w) (S (nowCalls w)) (Nat.le_succ_diag_r _)) as M2.
    unfold Time_Sub, minDuration, maxDuration.
    destruct (Z.ltb_spec (t (srv w) - clock env (nowCalls w)) (- 2 ^ 63));
      [lia|].
    destruct (Z.ltb_spec (2 ^ 63 - 1)
                (t (srv w) - clock env (nowCalls w))); lia.
Qed.

Lemma reachable_within_interval w :
  monotone_clock env -> reachable env cfg w -> within_interval env cfg w.
Proof.
  intros Mono R.
  induction R as [w E | w c r w' R IH _ E].
  - unfold within_interval. rewrite E. simpl. split; discriminate.
  - pose proof (reachable_avoiding_valid env cfg _ w R) as V.
    eapply within_interval_step; eassumption.
Qed.

End Moves.

(** X5.  Under a clock that does not go back, in every world reachable
    from the new server, the time left is within the interval of the
    mode: the remaining duration of a paused timer lies between zero and
    the configured duration of the mode, and the displayed duration, at
    this or any later reading of the clock, is at most the configured
    duration (or zero). *)
Theorem time_left_within_interval :
  forall env cfg (w : World),
    monotone_clock env -> reachable env cfg w ->
    (state (srv w) = StatePaused ->
     0 <= d (srv w) <= configured cfg (mode (srv w))) /\
    (forall j, (nowCalls w <= j)%nat ->
               displayed_duration cfg (srv w) (clock env j) <=
               Z.max 0 (configured cfg (mode (srv w)))).
Proof.
  intros env cfg w Mono R.
  destruct (reachable_within_interval env cfg w Mono R) as [IR IP].
  pose proof (reachable_avoiding_valid env cfg _ w R) as [_ Vs].
  split; [exact IP|].
  intros j Hj. unfold displayed_duration.
  destruct Vs as [Hs|[Hs|Hs]]; rewrite Hs; simpl.
  - lia.
  - specialize (IP Hs). lia.
  - destruct (IR Hs) as (k & Hk & Ht).
    assert (M : clock env k <= clock env j) by (apply Mono; lia).
    unfold Time_Sub, minDuration, maxDuration.
    destruct (Z.ltb_spec (t (srv w) - clock env j) (- 2 ^ 63)); [lia|].
    destruct (Z.ltb_spec (2 ^ 63 - 1) (t (srv w) - clock env j)); lia.
Qed.

Lemma time_left_within_interval_witness :
  monotone_clock ticking /\
  reachable ticking default_config paused_twice /\
  0 <= d (srv paused_twice) <= 25 * Minute.
Proof.
  assert (R : reachable ticking default_config paused_twice).
  { apply (run_reachable ticking default_config _
             [PostStart "POST"; PostStart "POST";
              Tick; GetTime "GET"; PostStart "POST";
              GetStatus "GET" ""; PostStart "POST"] world0).
    - vm_compute. reflexivity.
    - apply avoiding_init. reflexivity.
    - vm_compute. reflexivity. }
  split; [exact ticking_monotone|]. split; [exact R|].
  destruct (time_left_within_interval ticking default_config paused_twice
              ticking_monotone R) as [H _].
  apply H. reflexivity.
Defined.

Section Steps2.

Variable env : Env.
Variable cfg : Config.

Lemma pause_step w r w' :
  valid_mode (mode (srv w)) -> state (srv w) = StateRunning ->
  serve env cfg (PostStart "POST") w = Ok (r, w') ->
  state (srv w') = StatePaused ->
  due env w (S (nowCalls w)) = false /\
  srv w' = set_state StatePaused
             (set_d (Time_Sub (t (srv w)) (clock env (nowCalls w))) (srv w)).
Proof.
  intros Vm Hs E HP.
  assert (V : valid (srv w)) by (split; [exact Vm | right; right; exact Hs]).
  destruct (outcome_inv env cfg _ _ _ _ (serve_outcome env cfg _ w V) E)
    as [S1 _].
  destruct (expired_valid cfg (srv w) Vm) as [_ SE].
  unfold timer_after in S1. simpl in S1. rewrite Hs in S1. simpl in S1.
  destruct (due env w (S (nowCalls w))).
  - rewrite S1, SE in HP. discriminate HP.
  - split; [reflexivity | exact S1].
Qed.

Lemma resume_step w r w' :
  valid_mode (mode (srv w)) -> state (srv w) = StatePaused ->
  serve env cfg (PostStart "POST") w = Ok (r, w') ->
  srv w' = set_state StateRunning
             (set_t (Time_Add (clock env (nowCalls w)) (d (srv w))) (srv w)).
Proof.
  intros Vm Hs E.
  assert (V : valid (srv w)) by (split; [exact Vm | right; left; exact Hs]).
  destruct (outcome_inv env cfg _ _ _ _ (serve_outcome env cfg _ w V) E)
    as [S1 _].
  unfold timer_after in S1. simpl in S1. rewrite Hs in S1. exact S1.
Qed.

Lemma start_step w r w' :
  valid_mode (mode (srv w)) -> state (srv w) = StateStopped ->
  serve env cfg (PostStart "POST") w = Ok (r, w') ->
  srv w' = set_state StateRunning
             (set_t (Time_Add (clock env (nowCalls w))
                              (configured cfg (mode (srv w)))) (srv w)).
Proof.
  intros Vm Hs E.
  assert (V : valid (srv w)) by (split; [exact Vm | left; exact Hs]).
  destruct (outcome_inv env cfg _ _ _ _ (serve_outcome env cfg _ w V) E)
    as [S1 _].
  unfold timer_after in S1. simpl in S1. rewrite Hs in S1. exact S1.
Qed.

Lemma stop_step w r w' :
  valid (srv w) -> state (srv w) <> StateStopped ->
  serve env cfg (PostStop "POST") w = Ok (r, w') ->
  srv w' = set_state StateStopped (srv w).
Proof.
  intros V Hs E.
  destruct (outcome_inv env cfg _ _ _ _ (serve_outcome env cfg _ w V) E)
    as [S1 _].
  unfold timer_after in S1. simpl in S1.
  apply String.eqb_neq in Hs. rewrite Hs in S1. exact S1.
Qed.

End Steps2.

(** X6.  A pause costs no time and gives none: when a running timer is
    paused and later resumed, queries and ticks coming in between as they
    may, the deadline has moved by the time between the reading of the
    clock at the pause and the reading at the resumption, and mode and
    count are what they were. *)
Theorem pause_shifts_deadline :
  forall env cfg (w0 w1 w2 : World) (qs : list Call),
    monotone_clock env ->
    valid_mode (mode (srv w0)) -> state (srv w0) = StateRunning ->
    t (srv w0) - clock env (nowCalls w0) <= maxDuration ->
    run env cfg [PostStart "POST"] w0 = Ok w1 ->
    state (srv w1) = StatePaused ->
    forallb is_query qs = true ->
    run env cfg (qs ++ [PostStart "POST"]) w1 = Ok w2 ->
    exists k,
      (nowCalls w1 <= k)%nat /\
      state (srv w2) = StateRunning /\
      t (srv w2) = t (srv w0) + (clock env k - clock env (nowCalls w0)) /\
      mode (srv w2) = mode (srv w0) /\ count (srv w2) = count (srv w0).
Proof.
  intros env cfg w0 w1 w2 qs Mono Vm Hs0 Hmax E1 Hs1 Q E2.
  assert (V0 : valid (srv w0)) by (split; [exact Vm | right; right; exact Hs0]).
  destruct (run_single env cfg _ w0 w1 E1) as [r1 F1].
  pose proof (serve_valid env cfg _ w0 r1 w1 V0 F1) as V1.
  destruct (pause_step env cfg w0 r1 w1 Vm Hs0 F1 Hs1) as [D S1].
  rewrite run_app in E2.
  destruct (run env cfg qs w1) as [v1|p] eqn:R1; [|discriminate].
  pose proof (run_valid env cfg qs w1 v1 R1 V1) as V1'.
  destruct (queries_frame env cfg qs w1 v1 Q V1 R1) as [N1 [H|[H _]]];
    [|rewrite Hs1 in H; discriminate H].
  destruct (run_single env cfg _ v1 w2 E2) as [r2 F2].
  assert (Hv : state (srv v1) = StatePaused) by now rewrite H.
  pose proof (resume_step env cfg v1 r2 w2 (proj1 V1') Hv F2) as S2.
  exists (nowCalls v1). split; [exact N1|].
  rewrite S2, H, S1. simpl. split; [reflexivity|].
  split; [|split; reflexivity].
  apply due_false in D. destruct D as [D|D]; [contradiction|].
  pose proof (Mono (nowCalls w0) (S (nowCalls w0)) (Nat.le_succ_diag_r _)) as M.
  unfold Time_Add. rewrite Time_Sub_exact; [lia|].
  unfold minDuration. split; [lia | exact Hmax].
Qed.

Lemma pause_shifts_deadline_witness :
  monotone_clock ticking /\
  state (srv started) = StateRunning /\
  state (srv paused_once) = StatePaused /\
  exists k,
    (nowCalls paused_once <= k)%nat /\
    t (srv resumed) = t (srv started) +
                      (clock ticking k - clock ticking (nowCalls started)).
Proof.
  split; [exact ticking_monotone|]. split; [reflexivity|].
  split; [reflexivity|].
  destruct (pause_shifts_deadline ticking default_config
              started paused_once resumed [Tick; GetTime "GET"])
    as (k & Hk & _ & Ht & _).
  - exact ticking_monotone.
  - left. reflexivity.
  - reflexivity.
  - vm_compute. discriminate.
  - vm_compute. reflexivity.
  - reflexivity.
  - reflexivity.
  - vm_compute. reflexivity.
  - exists k. split; [exact Hk | exact Ht].
Defined.

(** X7.  Stopping by hand discards the interval: stop-or-switch on a
    running or paused timer stops it and changes nothing else, and
    start-or-pause after it begins a full interval of the same mode, the
    deadline at the reading of the clock plus the configured duration;
    the count is what it was, and of the two commands only the start
    command has run. *)
Theorem stop_then_start :
  forall env cfg (w w1 w2 : World),
    valid (srv w) -> state (srv w) <> StateStopped ->
    run env cfg [PostStop "POST"] w = Ok w1 ->
    run env cfg [PostStart "POST"] w1 = Ok w2 ->
    srv w1 = set_state StateStopped (srv w) /\
    srv w2 =
    set_state StateRunning
      (set_t (Time_Add (clock env (nowCalls w1))
                       (configured cfg (mode (srv w)))) (srv w)) /\
    exists rest,
      trace w2 = (trace w ++ rest)%list /\
      filter is_exec rest = start_hook cfg.
Proof.
  intros env cfg w w1 w2 V Hs E1 E2.
  destruct (run_single env cfg _ w w1 E1) as [r1 F1].
  destruct (run_single env cfg _ w1 w2 E2) as [r2 F2].
  pose proof (stop_step env cfg w r1 w1 V Hs F1) as S1.
  pose proof (serve_valid env cfg _ w r1 w1 V F1) as V1.
  assert (H1 : state (srv w1) = StateStopped) by now rewrite S1.
  pose proof (start_step env cfg w1 r2 w2 (proj1 V1) H1 F2) as S2.
  split; [exact S1|]. split; [rewrite S2, S1; reflexivity|].
  destruct (outcome_inv env cfg _ _ _ _ (serve_commands env cfg _ w V) F1)
    as (a & Ta & Xa).
  destruct (outcome_inv env cfg _ _ _ _ (serve_commands env cfg _ w1 V1) F2)
    as (b & Tb & Xb).
  exists (a ++ b)%list. split; [rewrite Tb, Ta; now rewrite app_assoc|].
  rewrite filter_app, Xa, Xb. unfold hooks_of. simpl.
  rewrite H1. reflexivity.
Qed.

Lemma stop_then_start_witness :
  valid (srv paused_once) /\
  exists w1 w2,
    run ticking hook_config [PostStop "POST"] paused_once = Ok w1 /\
    run ticking hook_config [PostStart "POST"] w1 = Ok w2 /\
    state (srv w2) = StateRunning /\
    t (srv w2) = clock ticking (nowCalls w1) + 25 * Minute.
Proof.
  assert (V : valid (srv paused_once)).
  { split; [left; reflexivity | right; left; reflexivity]. }
  split; [exact V|].
  destruct (run ticking hook_config [PostStop "POST"] paused_once)
    as [w1|p] eqn:E1; [|vm_compute in E1; discriminate E1].
  destruct (run ticking hook_config [PostStart "POST"] w1)
    as [w2|p] eqn:E2.
  2:{ vm_compute in E1. inversion E1; subst.
      vm_compute in E2. discriminate E2. }
  exists w1, w2. split; [reflexivity|]. split; [exact E2|].
  destruct (stop_then_start ticking hook_config paused_once w1 w2 V)
    as (_ & S2 & _); [discriminate | exact E1 | exact E2 |].
  rewrite S2. split; reflexivity.
Defined.

(** ** The log and the push endpoint *)

Lemma logs_app (a b : list Event) : logs (a ++ b) = (logs a + logs b)%nat.
Proof. unfold logs. now rewrite filter_app, length_app. Qed.

Lemma logs_expiry_hook cfg : logs (expiry_hook cfg) = O.
Proof. unfold expiry_hook. destruct (String.eqb (Command cfg) ""); reflexivity. Qed.



(** X9.  A refresh writes one status line to the log when it is asked to
    or when it finds the interval over, and none otherwise: the tick,
    which asks for none, logs only at the end of an interval. *)
Theorem refresh_logs :
  forall env cfg (w : World) (output : bool) str w',
    valid (srv w) ->
    RefreshStatus env cfg output w = Ok (str, w') ->
    exists rest,
      trace w' = (trace w ++ rest)%list /\
      logs rest = if due env w (nowCalls w) || output then 1%nat else O.
Proof.
  intros env cfg w output str w' V E.
  destruct (outcome_inv env cfg _ _ _ _
              (RefreshStatus_effects env cfg output w V) E)
    as (_ & _ & line & gets & T & _ & G & _).
  eexists. split; [exact T|].
  rewrite !logs_app, G.
  destruct (due env w (nowCalls w)); simpl.
  - rewrite logs_expiry_hook. reflexivity.
  - destruct output; reflexivity.
Qed.

Lemma refresh_logs_witness :
  valid (srv started) /\
  exists str w',
    RefreshStatus ticking default_config false started = Ok (str, w') /\
    logs (trace w') = O.
Proof.
  assert (V : valid (srv started)).
  { split; [left; reflexivity | right; right; reflexivity]. }
  split; [exact V|].
  destruct (RefreshStatus ticking default_config false started)
    as [[str w']|p] eqn:E; [|vm_compute in E; discriminate E].
  exists str, w'. split; [reflexivity|].
  destruct (refresh_logs ticking default_config started false str w' V E)
    as (rest & T & L).
  rewrite T, logs_app, L. reflexivity.
Defined.

(** X10.  What [doRequest] reports for a pair that differs from the last
    one sent: the error of the request when the request fails, an error
    naming the status when the status is not 200, and no error
    otherwise.  In all three cases one call has been made and the pair
    counts as sent: the same pair is not sent again, not even after a
    failure. *)
Theorem doRequest_reports :
  forall env cfg (text icon : string) (w : World),
    url_Parse_ok env (URL cfg) = true ->
    String.eqb text (lastText w) && String.eqb icon (lastIcon w) = false ->
    exists w1,
      doRequest env cfg text icon w =
      Ok (match httpGet env (getCalls w) with
          | GetFailed err => Some err
          | GetResponse code status =>
              if code =? 200 then None
              else Some ("Response status: " ++ status)
          end, w1) /\
      getCalls w1 = S (getCalls w) /\
      doRequest env cfg text icon w1 = Ok (None, w1).
Proof.
  intros env cfg text icon w HU F.
  assert (R : forall w1, lastText w1 = text -> lastIcon w1 = icon ->
                         doRequest env cfg text icon w1 = Ok (None, w1)).
  { intros w1 H1 H2. unfold doRequest.
    rewrite H1, H2, !String.eqb_refl. reflexivity. }
  unfold doRequest at 1. rewrite F, HU. simpl.
  destruct (httpGet env (getCalls w)) as [err|code status];
    [|destruct (code =? 200)]; simpl;
    eexists; (split; [reflexivity|]); (split; [reflexivity|]);
    apply R; reflexivity.
Qed.

Lemma doRequest_reports_witness :
  url_Parse_ok hourly (URL push_config) = true /\
  exists w1,
    doRequest hourly push_config "24:59" "cmVk" pushed = Ok (None, w1) /\
    getCalls w1 = 2%nat.
Proof.
  split; [reflexivity|].
  destruct (doRequest_reports hourly push_config "24:59" "cmVk" pushed
              eq_refl eq_refl) as (w1 & E & G & _).
  exists w1. split; [exact E | exact G].
Defined.

(** ** The manual change of mode *)





(** ** The display to the second *)

Lemma digit_inj (a b : Z) :
  0 <= a <= 9 -> 0 <= b <= 9 -> digit a = digit b -> a = b.
Proof.
  intros Ha Hb E. unfold digit in E.
  apply (f_equal nat_of_ascii) in E.
  rewrite !nat_ascii_embedding in E by lia. lia.
Qed.

Lemma two_digits_inj (a b : Z) :
  0 <= a <= 99 -> 0 <= b <= 99 -> two_digits a = two_digits b -> a = b.
Proof.
  intros Ha Hb E. unfold two_digits in E.
  injection E as E1 E2.
  apply digit_inj in E1; [|Z.div_mod_to_equations; lia ..].
  apply digit_inj in E2; [|Z.div_mod_to_equations; lia ..].
  Z.div_mod_to_equations. lia.
Qed.

Lemma append_cancel (p x y : string) : p ++ x = p ++ y -> x = y.
Proof.
  induction p as [|c p IH]; simpl; intros E; [exact E|].
  injection E as E. apply IH, E.
Qed.

Lemma seconds_split (dur : Duration) :
  dur / Second = 60 * (dur / Minute) + (dur mod Minute) / Second.
Proof.
  unfold Minute, Second. Z.div_mod_to_equations. lia.
Qed.

(** X12.  Below a hundred minutes the display tells durations apart to
    the second and no further: two durations are written alike, with one
    separator, exactly when they have the same number of whole
    seconds. *)
Theorem formatTimer_to_the_second :
  forall (d1 d2 : Duration) (sep : string),
    0 <= d1 < 100 * Minute -> 0 <= d2 < 100 * Minute ->
    (formatTimer d1 sep = formatTimer d2 sep <-> d1 / Second = d2 / Second).
Proof.
  intros d1 d2 sep H1 H2.
  assert (HM : 0 < Minute) by (unfold Minute, Second; lia).
  assert (B : forall x, 0 <= x < 100 * Minute ->
                        Z.min 99 (x / Minute) = x / Minute /\
                        0 <= x / Minute <= 99 /\
                        0 <= (x mod Minute) / Second <= 59).
  { intros x Hx.
    destruct (minutes_seconds_bounds x (proj1 Hx)) as [_ Bs].
    assert (x / Minute < 100) by (apply Z.div_lt_upper_bound; lia).
    assert (0 <= x / Minute) by (apply Z.div_pos; lia).
    repeat split; try lia. }
  destruct (B d1 H1) as (M1 & Bm1 & Bs1).
  destruct (B d2 H2) as (M2 & Bm2 & Bs2).
  rewrite !formatTimer_nonneg by lia. rewrite M1, M2.
  rewrite (seconds_split d1), (seconds_split d2).
  split.
  - intros E. unfold two_digits at 1 3 in E. simpl in E.
    injection E as E1 E2 E3.
    apply append_cancel in E3.
    apply two_digits_inj in E3; [|lia ..].
    assert (Em : d1 / Minute = d2 / Minute).
    { apply two_digits_inj; [lia | lia |].
      unfold two_digits. now rewrite E1, E2. }
    lia.
  - intros E.
    assert (d1 / Minute = d2 / Minute /\
            (d1 mod Minute) / Second = (d2 mod Minute) / Second) as [Em Es]
      by lia.
    now rewrite Em, Es.
Qed.

Lemma formatTimer_to_the_second_witness :
  0 <= 17 * Minute + 43 * Second < 100 * Minute /\
  0 <= 17 * Minute + 43 * Second + 999999999 < 100 * Minute /\
  formatTimer (17 * Minute + 43 * Second) ":" =
  formatTimer (17 * Minute + 43 * Second + 999999999) ":".
Proof.
  assert (A : 0 <= 17 * Minute + 43 * Second < 100 * Minute)
    by (vm_compute; split; [discriminate | reflexivity]).
  assert (B : 0 <= 17 * Minute + 43 * Second + 999999999 < 100 * Minute)
    by (vm_compute; split; [discriminate | reflexivity]).
  split; [exact A|]. split; [exact B|].
  apply (formatTimer_to_the_second _ _ ":" A B). reflexivity.
Defined.

(** ** The start of the program *)

Lemma formatTimer_not_empty (dur : Duration) (sep : string) :
  String.eqb (formatTimer dur sep) "" = false.
Proof.
  rewrite formatTimer_floor, formatTimer_nonneg by lia. reflexivity.
Qed.

Lemma push_url_cases env fl url :
  push_url env fl = Fine url ->
  (flag_url fl <> "" <-> flag_port fl = "" /\ flag_uuid fl = "" /\
                         url = flag_url fl /\ url <> "") /\
  (flag_port fl <> "" <->
   flag_url fl = "" /\ flag_uuid fl <> "" /\
   url = "http://127.0.0.1:" ++ flag_port fl ++ "/update_touch_bar_widget/") /\
  (url = "" <-> flag_url fl = "" /\ flag_port fl = "" /\ flag_uuid fl = "") /\
  (url = "" \/ flag_url fl = "" \/ url_Parse_ok env url = true).
Proof.
  unfold push_url.
  destruct (String.eqb_spec (flag_url fl) "") as [U|U];
    destruct (String.eqb_spec (flag_port fl) "") as [P|P];
    destruct (String.eqb_spec (flag_uuid fl) "") as [I|I]; simpl;
    try discriminate.
  - intros E. inversion E; subst. repeat split; auto; try tauto;
      try (intros []; congruence); try (intros (? & ? & ?); congruence).
  - intros E. inversion E; subst. rewrite U.
    repeat split; auto; try tauto; try discriminate;
      try (intros (? & ? & ?); congruence);
      try (intros H; contradiction).
  - destruct (url_Parse_ok env (flag_url fl)) eqn:EU; [|discriminate].
    intros E. inversion E; subst.
    repeat split; auto; try tauto; try congruence;
      try (intros (? & ? & ?); congruence).
Qed.

(** X13.  When [main] gets as far as serving, the tick lies strictly
    between 10 and 1000 and [N] between 1 and 9, the push URL is unset or
    one that [url.Parse] takes, and the world is one with the new server:
    what the theorems on reachable worlds ask for.  With a push URL one
    request has gone out, with the full work interval as text and the
    first icon. *)
Theorem main_serving :
  forall env load (fl : Flags) listen tick cfg (w : World),
    main env load fl = Serving listen tick cfg w ->
    10 < tick < 1000 /\ config_ok cfg /\ push_ok env cfg /\
    srv w = NewServer /\ reachable env cfg w /\
    N cfg = flag_n fl /\
    (URL cfg = "" -> w = world0) /\
    (URL cfg <> "" ->
     lastText w = formatTimer (DurationWork cfg) (SepColon cfg) /\
     lastIcon w = Icon1Data cfg /\ getCalls w = 1%nat).
Proof.
  intros env load fl listen tick cfg w. unfold main.
  destruct (Z.leb_spec (flag_tick fl) 10) as [T1|T1]; [discriminate|].
  destruct (Z.leb_spec 1000 (flag_tick fl)) as [T2|T2]; [discriminate|].
  destruct (Z.leb_spec (flag_n fl) 0) as [N1|N1]; [discriminate|].
  destruct (Z.leb_spec 10 (flag_n fl)) as [N2|N2]; [discriminate|].
  simpl.
  destruct (parseDuration (flag_work fl)) as [work|e]; [|discriminate].
  destruct (parseDuration (flag_short fl)) as [short|e]; [|discriminate].
  destruct (parseDuration (flag_long fl)) as [long|e]; [|discriminate].
  destruct (push_url env fl) as [url|e] eqn:EU; [|discriminate].
  destruct (String.eqb_spec url "") as [U|U]; simpl.
  - intros E. inversion E; subst. simpl.
    split; [lia|]. split; [unfold config_ok; simpl; lia|].
    split; [left; reflexivity|]. split; [reflexivity|].
    split; [apply avoiding_init; reflexivity|].
    split; [reflexivity|]. split; [reflexivity | intros H; contradiction].
  - destruct (load (flag_icon1 fl) "red.png") as [icon1|e]; [|discriminate].
    destruct (load (flag_icon2 fl) "green.png") as [icon2|e]; [|discriminate].
    unfold doRequest. simpl.
    rewrite formatTimer_not_empty. simpl.
    destruct (url_Parse_ok env url) eqn:EP; simpl; [|discriminate].
    destruct (httpGet env 0) as [err|code status]; [discriminate|].
    destruct (negb (code =? 200)); [discriminate|].
    intros E. inversion E; subst. simpl.
    split; [lia|]. split; [unfold config_ok; simpl; lia|].
    split; [right; exact EP|]. split; [reflexivity|].
    split; [apply avoiding_init; reflexivity|].
    split; [reflexivity|]. split; [intros H; contradiction|].
    intros _. repeat split.
Qed.

Lemma main_serving_witness :
  exists cfg w,
    main hourly builtin_icons default_flags = Serving ":12321" 100 cfg w /\
    config_ok cfg /\ reachable hourly cfg w.
Proof.
  destruct (main hourly builtin_icons default_flags)
    as [e|p|listen tick cfg w] eqn:E;
    try (vm_compute in E; discriminate E).
  destruct (main_serving hourly builtin_icons default_flags listen tick cfg w E)
    as (_ & C & _ & _ & R & _).
  exists cfg, w. vm_compute in E. inversion E; subst.
  split; [reflexivity|]. split; [exact C | exact R].
Defined.

(** X14.  [main] serves with [-uuid] only together with [-port] and
    never with both [-port] and [-url]: [-url] together with [-uuid]
    ends in [fatalf], so that a server started with [-url] sends every
    request with an empty uuid; and [-port] stands for the URL of
    BetterTouchTool on that port. *)
Theorem main_push_flags :
  forall env load (fl : Flags),
    (flag_url fl <> "" -> flag_uuid fl <> "" ->
     exists e, main env load fl = Exited e) /\
    (forall listen tick cfg w,
        main env load fl = Serving listen tick cfg w ->
        (flag_uuid fl = "" <-> flag_port fl = "") /\
        (flag_url fl = "" \/ flag_port fl = "") /\
        UUID cfg = flag_uuid fl /\
        (flag_url fl <> "" -> URL cfg = flag_url fl /\ UUID cfg = "") /\
        (flag_port fl <> "" ->
         URL cfg =
         "http://127.0.0.1:" ++ flag_port fl ++ "/update_touch_bar_widget/") /\
        (flag_url fl = "" -> flag_port fl = "" -> URL cfg = "")).
Proof.
  intros env load fl.
  assert (S : forall listen tick cfg w,
            main env load fl = Serving listen tick cfg w ->
            push_url env fl = Fine (URL cfg) /\ UUID cfg = flag_uuid fl).
  { intros listen tick cfg w. unfold main.
    destruct ((flag_tick fl <=? 10) || (1000 <=? flag_tick fl));
      [discriminate|].
    destruct ((flag_n fl <=? 0) || (10 <=? flag_n fl)); [discriminate|].
    destruct (parseDuration (flag_work fl)) as [work|e]; [|discriminate].
    destruct (parseDuration (flag_short fl)) as [short|e]; [|discriminate].
    destruct (parseDuration (flag_long fl)) as [long|e]; [|discriminate].
    destruct (push_url env fl) as [url|e] eqn:EU; [|discriminate].
    destruct (negb (String.eqb url "")).
    - destruct (load (flag_icon1 fl) "red.png") as [icon1|e]; [|discriminate].
      destruct (load (flag_icon2 fl) "green.png") as [icon2|e];
        [|discriminate].
      match goal with |- context [doRequest ?a ?b ?c ?d ?e] =>
        destruct (doRequest a b c d e) as [[[err|] w1]|p] end;
        try discriminate.
      intros E. inversion E; subst. split; reflexivity.
    - intros E. inversion E; subst. split; reflexivity. }
  split.
  - intros HU HI. unfold main.
    destruct ((flag_tick fl <=? 10) || (1000 <=? flag_tick fl)); [eauto|].
    destruct ((flag_n fl <=? 0) || (10 <=? flag_n fl)); [eauto|].
    destruct (parseDuration (flag_work fl)) as [work|e]; [|eauto].
    destruct (parseDuration (flag_short fl)) as [short|e]; [|eauto].
    destruct (parseDuration (flag_long fl)) as [long|e]; [|eauto].
    destruct (push_url env fl) as [url|e] eqn:EU; [|eauto].
    destruct (push_url_cases env fl url EU) as (A & _).
    destruct (proj1 A HU) as (_ & I & _). contradiction.
  - intros listen tick cfg w E.
    destruct (S listen tick cfg w E) as [EU EI].
    destruct (push_url_cases env fl (URL cfg) EU) as (A & B & C & _).
    destruct (String.eqb_spec (flag_url fl) "") as [U|U];
      destruct (String.eqb_spec (flag_port fl) "") as [P|P].
    + assert (HC : URL cfg = "" -> flag_uuid fl = "") by (intros H; apply C, H).
      assert (HU : URL cfg = "").
      { destruct (String.eqb_spec (URL cfg) "") as [H|H]; [exact H|].
        exfalso. unfold push_url in EU. rewrite U, P in EU. simpl in EU.
        destruct (String.eqb (flag_uuid fl) ""); simpl in EU;
          [inversion EU; congruence | discriminate]. }
      repeat split; auto; try tauto; try (intros; contradiction).
    + destruct (proj1 B P) as (_ & I & HU).
      repeat split; auto; try tauto; try (intros; contradiction).
    + destruct (proj1 A U) as (_ & I & HU & _).
      repeat split; auto; try tauto; try congruence;
        try (intros; contradiction).
    + destruct (proj1 A U) as (P' & _). contradiction.
Qed.

Lemma main_push_flags_witness :
  flag_url url_uuid_flags <> "" /\ flag_uuid url_uuid_flags <> "" /\
  main hourly builtin_icons url_uuid_flags = Exited PortAndUuid.
Proof.
  split; [discriminate|]. split; [discriminate|].
  destruct (main_push_flags hourly builtin_icons url_uuid_flags) as [H _].
  destruct H as [e E]; [discriminate | discriminate |].
  rewrite E. vm_compute in E. inversion E; subst. reflexivity.
Defined.

(** ** Durations on the command line *)

Lemma digit_is_digit (x : Z) :
  0 <= x <= 9 ->
  is_digit (digit x) = true /\
  Z.of_nat (nat_of_ascii (digit x)) - 48 = x.
Proof.
  intros H. unfold is_digit, digit.
  rewrite nat_ascii_embedding by lia. split; [|lia].
  apply andb_true_iff. split; apply Nat.leb_le; lia.
Qed.

Lemma parse_digits_decimal (fuel : nat) :
  forall n rest,
    0 <= n < 10 ^ Z.of_nat fuel ->
    exists k, 0 <= k /\
      forall acc, parse_digits acc (decimal_digits fuel n rest) =
                  parse_digits (acc * 10 ^ k + n) rest.
Proof.
  induction fuel as [|fuel IH]; intros n rest Hn.
  - exists 0. split; [lia|]. intros acc. simpl in *.
    replace n with 0 by lia. f_equal. lia.
  - cbn [decimal_digits].
    assert (Hd : 0 <= n mod 10 <= 9) by (Z.div_mod_to_equations; lia).
    destruct (digit_is_digit (n mod 10) Hd) as [D1 D2].
    destruct (Z.ltb_spec n 10) as [L|L].
    + exists 1. split; [lia|]. intros acc. cbn [parse_digits].
      rewrite D1, D2. f_equal. rewrite Z.mod_small by lia. lia.
    + assert (Hq : 0 <= n / 10 < 10 ^ Z.of_nat fuel).
      { rewrite Nat2Z.inj_succ, Z.pow_succ_r in Hn by lia.
        Z.div_mod_to_equations. lia. }
      destruct (IH (n / 10) (String (digit (n mod 10)) rest) Hq)
        as (k & Hk & E).
      exists (k + 1). split; [lia|]. intros acc.
      rewrite E. cbn [parse_digits]. rewrite D1, D2. f_equal.
      rewrite Z.pow_add_r by lia.
      Z.div_mod_to_equations. lia.
Qed.

Lemma decimal_fuel (n : Z) :
  0 <= n -> n < 10 ^ Z.of_nat (S (Z.to_nat (Z.log2 n))).
Proof.
  intros H. rewrite Nat2Z.inj_succ, Z2Nat.id by apply Z.log2_nonneg.
  destruct (Z.eq_dec n 0) as [->|Hz].
  - simpl. lia.
  - destruct (Z.log2_spec n) as [_ Hl]; [lia|].
    eapply Z.lt_le_trans; [exact Hl|].
    apply Z.pow_le_mono_l. pose proof (Z.log2_nonneg n). lia.
Qed.

Lemma parse_digits_of_decimal (n : Z) :
  0 <= n -> parse_digits 0 (decimal n) = Some n.
Proof.
  intros H. unfold decimal.
  destruct (parse_digits_decimal _ n "" (conj H (decimal_fuel n H)))
    as (k & _ & E).
  rewrite E. simpl. reflexivity.
Qed.

Lemma digit_not_sign (c : ascii) :
  is_digit c = true ->
  Ascii.eqb c "-"%char = false /\ Ascii.eqb c "+"%char = false /\
  Ascii.eqb c "m"%char = false /\ Ascii.eqb c "s"%char = false.
Proof.
  destruct c as [[|] [|] [|] [|] [|] [|] [|] [|]]; vm_compute;
    intros H; try discriminate H; repeat split.
Qed.

(** [strconv.Atoi] reads back what [%d] writes. *)
Lemma Atoi_decimal (n : Z) :
  0 <= n <= maxInt -> Atoi (decimal n) = Some n.
Proof.
  intros H. pose proof (parse_digits_of_decimal n (proj1 H)) as P.
  unfold Atoi. destruct (decimal n) as [|c s'] eqn:E.
  - simpl in P. inversion P; subst.
    unfold decimal in E. simpl in E. discriminate E.
  - assert (D : is_digit c = true).
    { cbn [parse_digits] in P. destruct (is_digit c); [reflexivity|].
      discriminate P. }
    destruct (digit_not_sign c D) as (S1 & S2 & _).
    rewrite S1, S2. simpl orb. cbv iota. rewrite P.
    unfold minInt, maxInt in *.
    destruct (Z.leb_spec (- 2 ^ 63) n); [|lia].
    destruct (Z.leb_spec n (2 ^ 63 - 1)); [|lia]. reflexivity.
Qed.

Lemma split_last_app (x : string) (c : ascii) :
  split_last (x ++ String c "") = Some (x, c).
Proof.
  induction x as [|a x IH]; simpl; [reflexivity|]. now rewrite IH.
Qed.

Lemma split_last_inv (s body : string) (c : ascii) :
  split_last s = Some (body, c) -> s = body ++ String c "".
Proof.
  revert body. induction s as [|a s IH]; intros body E; simpl in E;
    [discriminate|].
  destruct (split_last s) as [[b l]|] eqn:ES.
  - inversion E; subst. simpl. f_equal. apply IH. reflexivity.
  - inversion E; subst. destruct s; [reflexivity|].
    simpl in ES. destruct (split_last s) as [[? ?]|]; discriminate ES.
Qed.

Lemma split_last_decimal_digits (fuel : nat) :
  forall n c rest,
    exists body l,
      split_last (decimal_digits fuel n (String c rest)) = Some (body, l) /\
      exists body', split_last (String c rest) = Some (body', l).
Proof.
  induction fuel as [|fuel IH]; intros n c rest.
  - simpl decimal_digits.
    destruct (split_last (String c rest)) as [[b l]|] eqn:E.
    + exists b, l. split; [reflexivity|]. now exists b.
    + simpl in E. destruct (split_last rest) as [[? ?]|]; discriminate E.
  - cbn [decimal_digits].
    destruct (n <? 10).
    + destruct (split_last (String c rest)) as [[b l]|] eqn:E.
      * exists (String (digit (n mod 10)) b), l.
        split; [|now exists b].
        change (split_last (String (digit (n mod 10)) (String c rest)))
          with (match split_last (String c rest) with
                | None => Some (EmptyString, digit (n mod 10))
                | Some (body, l) => Some (String (digit (n mod 10)) body, l)
                end).
        now rewrite E.
      * simpl in E. destruct (split_last rest) as [[? ?]|]; discriminate E.
    + destruct (IH (n / 10) (digit (n mod 10)) (String c rest))
        as (body & l & E1 & body' & E2).
      exists body, l. split; [exact E1|].
      change (split_last (String (digit (n mod 10)) (String c rest)))
        with (match split_last (String c rest) with
              | None => Some (EmptyString, digit (n mod 10))
              | Some (body, l) => Some (String (digit (n mod 10)) body, l)
              end) in E2.
      destruct (split_last (String c rest)) as [[b l']|] eqn:E.
      * inversion E2; subst. now exists b.
      * simpl in E. destruct (split_last rest) as [[? ?]|]; discriminate E.
Qed.

Lemma split_last_decimal (n : Z) :
  0 <= n ->
  exists body l, split_last (decimal n) = Some (body, l) /\
                 is_digit l = true.
Proof.
  intros H. unfold decimal. cbn [decimal_digits].
  assert (Hd : 0 <= n mod 10 <= 9) by (Z.div_mod_to_equations; lia).
  destruct (digit_is_digit (n mod 10) Hd) as [D _].
  destruct (n <? 10).
  - exists "", (digit (n mod 10)). split; [reflexivity | exact D].
  - destruct (split_last_decimal_digits (Z.to_nat (Z.log2 n)) (n / 10)
                (digit (n mod 10)) "") as (body & l & E1 & body' & E2).
    simpl in E2. inversion E2; subst. exists body, (digit (n mod 10)).
    split; [exact E1 | exact D].
Qed.

(** X15.  [parseDuration] reads a positive number written in decimal as
    so many minutes, with [m] behind it or with nothing, and as so many
    seconds with [s] behind it.  The product is computed in [int64]: it
    is the number times the unit as long as that fits a [Duration], and
    wraps around beyond. *)
Theorem parseDuration_reads :
  forall n : Z,
    0 < n <= maxInt ->
    parseDuration (fmt_d n ++ "m") = Fine (wrap_int (n * Minute)) /\
    parseDuration (fmt_d n ++ "s") = Fine (wrap_int (n * Second)) /\
    parseDuration (fmt_d n) = Fine (wrap_int (n * Minute)) /\
    (n * Minute <= maxDuration -> wrap_int (n * Minute) = n * Minute) /\
    (n * Second <= maxDuration -> wrap_int (n * Second) = n * Second).
Proof.
  intros n H.
  assert (F : fmt_d n = decimal n).
  { unfold fmt_d. destruct (Z.ltb_spec n 0); [lia | reflexivity]. }
  assert (A : Atoi (decimal n) = Some n) by (apply Atoi_decimal; lia).
  assert (P : (n <=? 0) = false) by (apply Z.leb_gt; lia).
  rewrite F. split; [|split; [|split; [|split]]].
  - unfold parseDuration. rewrite split_last_app. simpl Ascii.eqb. cbv iota.
    now rewrite A, P.
  - unfold parseDuration. rewrite split_last_app. simpl Ascii.eqb. cbv iota.
    now rewrite A, P.
  - unfold parseDuration.
    destruct (split_last_decimal n) as (body & l & E & D); [lia|].
    rewrite E. destruct (digit_not_sign l D) as (_ & _ & M & S).
    rewrite M, S. now rewrite A, P.
  - intros B. apply wrap_int_small. unfold maxDuration, Minute, Second in *.
    lia.
  - intros B. apply wrap_int_small. unfold maxDuration, Second in *. lia.
Qed.

Lemma parseDuration_reads_witness :
  0 < 300 <= maxInt /\
  parseDuration "300s" = Fine (300 * Second) /\
  parseDuration "300" = Fine (300 * Minute).
Proof.
  assert (H : 0 < 300 <= maxInt)
    by (vm_compute; split; [reflexivity | discriminate]).
  split; [exact H|].
  destruct (parseDuration_reads 300 H) as (_ & S & M & WM & WS).
  split.
  - rewrite <- WS; [exact S | vm_compute; discriminate].
  - rewrite <- WM; [exact M | vm_compute; discriminate].
Defined.

(** X16.  What [parseDuration] takes is a whole number above zero,
    written as [strconv.Atoi] reads it, with [m], [s] or nothing behind
    it, and what it returns is the number times a minute, or times a
    second after [s], in [int64]: positive as long as the product fits a
    [Duration].  The empty string, a unit without a number, zero, a
    negative number and any other text end in [fatalf]. *)
Theorem parseDuration_takes :
  forall (s : string) (dur : Duration),
    parseDuration s = Fine dur ->
    exists body i unit,
      Atoi body = Some i /\ 0 < i <= maxInt /\
      ((s = body ++ "m" /\ unit = Minute) \/
       (s = body ++ "s" /\ unit = Second) \/
       (s = body /\ unit = Minute)) /\
      dur = wrap_int (i * unit) /\
      (i * unit <= maxDuration -> dur = i * unit /\ 0 < dur).
Proof.
  intros s dur. unfold parseDuration.
  destruct (split_last s) as [[body c]|] eqn:E; [|discriminate].
  apply split_last_inv in E.
  assert (R : forall b i, Atoi b = Some i -> i <= maxInt).
  { intros b i. unfold Atoi. destruct b as [|a b']; [discriminate|].
    destruct (if (Ascii.eqb a "-" || Ascii.eqb a "+")%bool
              then b' else String a b'); [discriminate|].
    destruct (parse_digits 0 _) as [v|]; [|discriminate].
    destruct (Z.leb_spec minInt (if Ascii.eqb a "-" then - v else v))
      as [L1|L1]; [|discriminate].
    destruct (Z.leb_spec (if Ascii.eqb a "-" then - v else v) maxInt)
      as [L2|L2]; [|discriminate].
    simpl. intros EQ. inversion EQ; subst. exact L2. }
  assert (K : forall b unit,
    (unit = Minute \/ unit = Second) ->
    match Atoi b with
    | Some i => if i <=? 0 then Fatalf (InvalidDuration b)
                else Fine (wrap_int (i * unit))
    | None => Fatalf (InvalidDuration b)
    end = Fine dur ->
    exists i, Atoi b = Some i /\ 0 < i <= maxInt /\
              dur = wrap_int (i * unit) /\
              (i * unit <= maxDuration -> dur = i * unit /\ 0 < dur)).
  { intros b unit HU. destruct (Atoi b) as [i|] eqn:A; [|discriminate].
    destruct (Z.leb_spec i 0) as [L|L]; [discriminate|].
    intros EQ. inversion EQ; subst. exists i.
    split; [reflexivity|]. split; [split; [lia | eapply R; exact A]|].
    split; [reflexivity|]. intros B.
    rewrite wrap_int_small.
    - split; [reflexivity|].
      destruct HU as [-> | ->]; unfold Minute, Second; lia.
    - unfold maxDuration in B.
      destruct HU as [-> | ->]; unfold Minute, Second in *; lia. }
  destruct (Ascii.eqb_spec c "m"%char) as [Cm|Cm].
  - intros H. destruct (K body Minute (or_introl eq_refl) H)
      as (i & A & Hi & D & X).
    exists body, i, Minute. subst c. simpl in E.
    split; [exact A|]. split; [exact Hi|].
    split; [left; split; [exact E | reflexivity]|].
    split; [exact D | exact X].
  - destruct (Ascii.eqb_spec c "s"%char) as [Cs|Cs].
    + intros H. destruct (K body Second (or_intror eq_refl) H)
        as (i & A & Hi & D & X).
      exists body, i, Second. subst c. simpl in E.
      split; [exact A|]. split; [exact Hi|].
      split; [right; left; split; [exact E | reflexivity]|].
      split; [exact D | exact X].
    + intros H. destruct (K s Minute (or_introl eq_refl) H)
        as (i & A & Hi & D & X).
      exists s, i, Minute.
      split; [exact A|]. split; [exact Hi|].
      split; [right; right; split; reflexivity|].
      split; [exact D | exact X].
Qed.

Lemma parseDuration_takes_witness :
  parseDuration "25m" = Fine (25 * Minute) /\
  exists body i unit,
    Atoi body = Some i /\ "25m" = body ++ "m" /\ unit = Minute /\ 0 < i.
Proof.
  assert (E : parseDuration "25m" = Fine (25 * Minute)) by reflexivity.
  split; [exact E|].
  destruct (parseDuration_takes "25m" (25 * Minute) E)
    as (body & i & unit & A & Hi & [[S U]|[[S U]|[S U]]] & _).
  - exists body, i, unit. split; [exact A|]. split; [exact S|].
    split; [exact U | apply Hi].
  - exfalso. apply (f_equal split_last) in S.
    rewrite (split_last_app body "s") in S. vm_compute in S. discriminate S.
  - exfalso. subst body. vm_compute in A. discriminate A.
Defined.

(** ** The commands, with what comes back from them *)

Lemma printCommandError_some cfg e w :
  exists w',
    printCommandError cfg (Some e) w = Ok (tt, w') /\
    srv w' = srv w /\
    exists rest, trace w' = (trace w ++ rest)%list /\ filter is_exec rest = [].
Proof.
  unfold printCommandError, bind, emit.
  destruct (contains e "exit status 127" &&
            contains (Command cfg) "terminal-notifier"); simpl;
    eexists; (split; [reflexivity|]); (split; [reflexivity|]); simpl;
    eexists; (split; [rewrite <- ?app_assoc; reflexivity | reflexivity]).
Qed.

(** X17.  With [-async], a command that starts and then fails brings the
    program down: the goroutine that waits for it calls
    [printCommandError] with the error of the start, which is [nil], and
    [err.Error()] panics.  In every other case (no command set, no
    [-async], a command that does not start, a command that succeeds)
    [executeCommand] and [executeCommandOnStart] return, leave the timer
    alone and have handed the one command to the shell, as the shorter
    [executeCommand] and [executeCommandOnStart] have it. *)
Theorem commands_panic_when_async_fails_late :
  forall cfg (o : ExecOutcome) (w : World),
    let late := CommandAsync cfg && fails_late o in
    (if negb (String.eqb (Command cfg) "") && late
     then executeCommand_with cfg o w = Panicked nil_dereference
     else exists w',
         executeCommand_with cfg o w = Ok (tt, w') /\ srv w' = srv w /\
         exists rest, trace w' = (trace w ++ rest)%list /\
                      filter is_exec rest = expiry_hook cfg) /\
    (if negb (String.eqb (CommandOnStart cfg) "") && late
     then executeCommandOnStart_with cfg o w = Panicked nil_dereference
     else exists w',
         executeCommandOnStart_with cfg o w = Ok (tt, w') /\
         srv w' = srv w /\
         exists rest, trace w' = (trace w ++ rest)%list /\
                      filter is_exec rest = start_hook cfg).
Proof.
  intros cfg [se we] w late. subst late.
  unfold executeCommand_with, executeCommandOnStart_with,
    expiry_hook, start_hook, fails_late, cmd_Run.
  split.
  - destruct (String.eqb (Command cfg) "") eqn:EC; simpl.
    { exists w. repeat split. exists []. now rewrite app_nil_r. }
    destruct (CommandAsync cfg) eqn:EA; simpl;
      destruct se as [s1|]; destruct we as [s2|]; simpl;
      try reflexivity;
      unfold bind, emit; simpl;
      try (destruct (printCommandError_some cfg s1
             (with_trace
                (with_trace w
                   [EvLog "Executing command (without waiting it to finish)..."])
                [EvExec (Command cfg) true]))
             as (w' & E & S & rest & T & X); rewrite E);
      try (destruct (printCommandError_some cfg s1
             (with_trace w [EvExec (Command cfg) false]))
             as (w' & E & S & rest & T & X); rewrite E);
      try (destruct (printCommandError_some cfg s2
             (with_trace w [EvExec (Command cfg) false]))
             as (w' & E & S & rest & T & X); rewrite E);
      eexists; (split; [reflexivity|]); (split; [try exact S; reflexivity|]);
      try (eexists; split;
           [rewrite T; simpl; rewrite <- ?app_assoc; reflexivity
           | rewrite ?filter_app, X; reflexivity]);
      simpl; eexists;
      (split; [rewrite <- ?app_assoc; reflexivity | reflexivity]).
  - destruct (String.eqb (CommandOnStart cfg) "") eqn:EC; simpl.
    { exists w. repeat split. exists []. now rewrite app_nil_r. }
    destruct (CommandAsync cfg) eqn:EA; simpl;
      destruct se as [s1|]; destruct we as [s2|]; simpl;
      try reflexivity;
      unfold bind, emit; simpl;
      try (destruct (printCommandError_some cfg s1
             (with_trace
                (with_trace w
                   [EvLog "Executing command (without waiting it to finish)..."])
                [EvExec (CommandOnStart cfg) true]))
             as (w' & E & S & rest & T & X); rewrite E);
      try (destruct (printCommandError_some cfg s1
             (with_trace w [EvExec (CommandOnStart cfg) false]))
             as (w' & E & S & rest & T & X); rewrite E);
      try (destruct (printCommandError_some cfg s2
             (with_trace w [EvExec (CommandOnStart cfg) false]))
             as (w' & E & S & rest & T & X); rewrite E);
      eexists; (split; [reflexivity|]); (split; [try exact S; reflexivity|]);
      try (eexists; split;
           [rewrite T; simpl; rewrite <- ?app_assoc; reflexivity
           | rewrite ?filter_app, X; reflexivity]);
      simpl; eexists;
      (split; [rewrite <- ?app_assoc; reflexivity | reflexivity]).
Qed.

(** An end command under [-async] that starts and exits with an error,
    and the same command without [-async]. *)
Example async_late_failure :
  executeCommand_with async_config
    {| start_error := None; wait_error := Some "exit status 1" |} world0 =
  Panicked nil_dereference /\
  executeCommand_with hook_config
    {| start_error := None; wait_error := Some "exit status 1" |} world0 =
  Ok (tt, with_trace world0
            [EvExec "say done" false;
             EvLog "Failed to execute command at end of timer: exit status 1"]).
Proof. split; reflexivity. Qed.
